(** * PatternFitter: a shallow embedding of [pax/PatternFitter.py]

    The pattern fitter compares an observed per-channel amplitude vector with
    a binned response map and searches for the position of best agreement.
    This file embeds the binning scheme, the pattern lookup, the goodness of
    fit computation (including the expression strings handed to numexpr) and
    the grid minimiser, and states the properties of the specification
    against them.

    Conventions of the embedding.

    - A Python/NumPy float is an exact rational ([Q]) or one of the three
      special values +inf, -inf and NaN (type [float] below).  Rounding is not
      modelled there, and there is a single zero (no negative zero).  All
      numbers given to the fitter (axis bounds, map entries, observed
      amplitudes, systematic errors, coordinates) are finite; special values
      only arise from divisions inside the goodness of fit formula.
    - The axis loop of [__init__] and the two binning methods are embedded a
      second time over IEEE 754 doubles (module [Binary64]), because a bin
      index computed with rounding can differ from the exact one; an axis of
      the program meets [wf_axis] below when its stored bin width is the
      exact quotient, as it is for the range -10 to 10 in 20 bins.
    - The map holds numbers, not an int64 or float64 array: the wrap-around
      of an integer sum is not modelled.
    - A Python exception is a value of type [exn]; a computation that may
      raise has type [result A].
    - An N-dimensional array is a tree [nd A]: one [Node] level per spatial
      axis, and the channel vector of one spatial bin in each [Leaf].  The
      fitter is always called with one coordinate per spatial axis; an index
      list of another length is answered with [IndexError].
    - Index lists such as [bin_selection + [pmt_selection]] are read as index
      tuples, as the NumPy releases this code was written for do.
    - File loading, map zooming, plotting and the SciPy minimiser are not
      part of the embedding. *)

From Stdlib Require Import List String Ascii Bool ZArith QArith Qround Qminmax.
From Stdlib Require Import Lia Lqa.
From Stdlib Require PrimFloat FloatOps SpecFloat Uint63.
Import ListNotations.

(* ------------------------------------------------------------------ *)
(** * Exceptions and the error monad *)

Module Py.

(** The two places that raise [CoordinateOutOfRangeException]. *)
Inductive oor_message :=
| NotInAllowedRange   (* "%s is not in allowed range %s-%s" *)
| OnlyZeros.          (* "Expected light pattern ... consists of only zeros!" *)

Inductive exn :=
| CoordinateOutOfRangeException (msg : oor_message)
| IndexError
| ValueError
| ZeroDivisionError
| SyntaxError
| KeyError
| TypeError
| OverflowError
| NotImplementedError.

Inductive result (A : Type) :=
| Ok (a : A)
| Raise (e : exn).

Arguments Ok {A} a.
Arguments Raise {A} e.

Definition bind {A B} (m : result A) (k : A -> result B) : result B :=
  match m with
  | Ok a => k a
  | Raise e => Raise e
  end.

Definition fmap {A B} (f : A -> B) (m : result A) : result B :=
  bind m (fun a => Ok (f a)).

(** [except CoordinateOutOfRangeException]: the class test of a handler. *)
Definition is_CoordinateOutOfRange (e : exn) : bool :=
  match e with
  | CoordinateOutOfRangeException _ => true
  | _ => false
  end.

Section MapM.

Context {A B : Type} (f : A -> result B).

(** A list comprehension whose body may raise: the first error wins. *)
Fixpoint mapM (l : list A) : result (list B) :=
  match l with
  | [] => Ok []
  | a :: l' =>
      match f a with
      | Ok b => match mapM l' with
                | Ok bs => Ok (b :: bs)
                | Raise e => Raise e
                end
      | Raise e => Raise e
      end
  end.

End MapM.

End Py.

Import Py.

Declare Scope py_scope.
Notation "x <- m ;; k" := (bind m (fun x => k))
  (at level 61, m at next level, right associativity) : py_scope.
Notation "' pat <- m ;; k" := (bind m (fun x => match x with pat => k end))
  (at level 61, pat pattern, m at next level, right associativity) : py_scope.
Open Scope py_scope.
Open Scope Q_scope.

(* ------------------------------------------------------------------ *)
(** * Floats: exact rationals with the IEEE special values *)

Module Float.

Inductive float :=
| Fin (q : Q)
| PInf
| NInf
| NaN.

Definition is_nan (a : float) : bool :=
  match a with NaN => true | _ => false end.

Definition is_finite (a : float) : bool :=
  match a with Fin _ => true | _ => false end.

(** Sign of a float as a comparison with zero; [Eq] for zero and NaN. *)
Definition sign (a : float) : comparison :=
  match a with
  | Fin q => q ?= 0
  | PInf => Gt
  | NInf => Lt
  | NaN => Eq
  end.

Definition mul_sign (a b : comparison) : comparison :=
  match a, b with
  | Eq, _ | _, Eq => Eq
  | Gt, Gt | Lt, Lt => Gt
  | _, _ => Lt
  end.

(** A signed infinity; the sign [Eq] stands for the invalid operations
    (0/0, inf*0), which give NaN. *)
Definition inf_of_sign (c : comparison) : float :=
  match c with
  | Gt => PInf
  | Lt => NInf
  | Eq => NaN
  end.

Definition neg (a : float) : float :=
  match a with
  | Fin q => Fin (- q)
  | PInf => NInf
  | NInf => PInf
  | NaN => NaN
  end.

Definition add (a b : float) : float :=
  match a, b with
  | NaN, _ | _, NaN => NaN
  | Fin x, Fin y => Fin (x + y)
  | PInf, NInf | NInf, PInf => NaN
  | PInf, _ | _, PInf => PInf
  | NInf, _ | _, NInf => NInf
  end.

Definition sub (a b : float) : float := add a (neg b).

Definition mul (a b : float) : float :=
  match a, b with
  | NaN, _ | _, NaN => NaN
  | Fin x, Fin y => Fin (x * y)
  | _, _ => inf_of_sign (mul_sign (sign a) (sign b))
  end.

(** NumPy/numexpr division: dividing by zero does not raise. *)
Definition div (a b : float) : float :=
  match a, b with
  | NaN, _ | _, NaN => NaN
  | Fin x, Fin y =>
      if Qeq_bool y 0 then inf_of_sign (x ?= 0) else Fin (x / y)
  | Fin _, _ => Fin 0
  | _, Fin y =>
      if Qeq_bool y 0 then a else inf_of_sign (mul_sign (sign a) (y ?= 0))
  | _, _ => NaN
  end.

(** [x ** n] for a literal exponent [n], as repeated multiplication. *)
Fixpoint pow (a : float) (n : nat) : float :=
  match n with
  | O => Fin 1
  | S O => a
  | S n' => mul a (pow a n')
  end.

(** [a < b]; every comparison with NaN is false. *)
Definition ltb (a b : float) : bool :=
  match a, b with
  | NaN, _ | _, NaN => false
  | Fin x, Fin y => negb (Qle_bool y x)
  | NInf, NInf => false
  | NInf, _ => true
  | Fin _, PInf => true
  | _, _ => false
  end.

Definition gtb (a b : float) : bool := ltb b a.

Definition sum (l : list float) : float := fold_right add (Fin 0) l.

(** Equality of floats up to the representation of the rational. *)
Definition eq (a b : float) : Prop :=
  match a, b with
  | Fin x, Fin y => x == y
  | PInf, PInf | NInf, NInf | NaN, NaN => True
  | _, _ => False
  end.

End Float.

Import Float.

Definition Qsum (l : list Q) : Q := fold_right Qplus 0 l.

(* ------------------------------------------------------------------ *)
(** * The numexpr expression language

    [ne.evaluate] receives its formula as a string, compiles it with Python's
    expression grammar and evaluates it elementwise over the arrays found in
    the caller's frame.  The embedding keeps the strings and gives them a
    lexer, a parser and an evaluator for the fragment the fitter writes:
    names, integer literals, [+ - * / **], [>], parentheses and calls. *)

Module Numexpr.

Inductive token :=
| TName (x : string)
| TNum (n : Z)
| TLParen | TRParen | TComma
| TPlus | TMinus | TStar | TSlash | TPow | TGt.

#[local] Unset Elimination Schemes.
Inductive expr :=
| EVar (x : string)
| ENum (n : Z)
| ENeg (a : expr)
| EAdd (a b : expr)
| ESub (a b : expr)
| EMul (a b : expr)
| EDiv (a b : expr)
| EPow (a b : expr)
| EGt (a b : expr)
| ECall (f : string) (args : list expr).
#[local] Set Elimination Schemes.

(** ** Lexer *)

Definition is_digit (c : ascii) : bool :=
  let n := nat_of_ascii c in (48 <=? n)%nat && (n <=? 57)%nat.

Definition is_alpha (c : ascii) : bool :=
  let n := nat_of_ascii c in
  ((65 <=? n)%nat && (n <=? 90)%nat) || ((97 <=? n)%nat && (n <=? 122)%nat)
  || (n =? 95)%nat.

Definition is_space (c : ascii) : bool :=
  let n := nat_of_ascii c in (n =? 32)%nat || (n =? 9)%nat.

Definition digit_value (c : ascii) : Z := Z.of_nat (nat_of_ascii c - 48).

(** The token being read. *)
Inductive pending :=
| PNone
| PName (x : string)
| PNum (n : Z).

Definition flush (p : pending) : list token :=
  match p with
  | PNone => []
  | PName x => [TName x]
  | PNum n => [TNum n]
  end.

Definition snoc (x : string) (c : ascii) : string :=
  (x ++ String c EmptyString)%string.

Definition emit (p : pending) (t : token) (rest : option (list token))
  : option (list token) :=
  option_map (fun ts => flush p ++ t :: ts) rest.

Fixpoint lex (s : string) (p : pending) : option (list token) :=
  match s with
  | EmptyString => Some (flush p)
  | String c s' =>
      if is_alpha c then
        match p with
        | PNone => lex s' (PName (String c EmptyString))
        | PName x => lex s' (PName (snoc x c))
        | PNum _ => None
        end
      else if is_digit c then
        match p with
        | PNone => lex s' (PNum (digit_value c))
        | PName x => lex s' (PName (snoc x c))
        | PNum n => lex s' (PNum (10 * n + digit_value c))
        end
      else if is_space c then
        option_map (app (flush p)) (lex s' PNone)
      else
        match c with
        | "("%char => emit p TLParen (lex s' PNone)
        | ")"%char => emit p TRParen (lex s' PNone)
        | ","%char => emit p TComma (lex s' PNone)
        | "+"%char => emit p TPlus (lex s' PNone)
        | "-"%char => emit p TMinus (lex s' PNone)
        | "/"%char => emit p TSlash (lex s' PNone)
        | ">"%char => emit p TGt (lex s' PNone)
        | "*"%char =>
            match s' with
            | String "*"%char s'' => emit p TPow (lex s'' PNone)
            | _ => emit p TStar (lex s' PNone)
            end
        | _ => None
        end
  end.

(** ** Parser

    Recursive descent over Python's precedence levels
    (comparison, arithmetic, term, factor, power, atom).  The fuel bounds the
    recursion depth; running out of fuel is reported apart from a syntax
    error, so that a rejection is never an artefact of the bound. *)

Inductive parsed (A : Type) :=
| Parsed (a : A) (rest : list token)
| SyntaxErr
| OutOfFuel.

Arguments Parsed {A} a rest.
Arguments SyntaxErr {A}.
Arguments OutOfFuel {A}.

Definition pbind {A B} (m : parsed A) (k : A -> list token -> parsed B)
  : parsed B :=
  match m with
  | Parsed a ts => k a ts
  | SyntaxErr => SyntaxErr
  | OutOfFuel => OutOfFuel
  end.

Fixpoint parse_comparison (fuel : nat) (ts : list token) : parsed expr :=
  match fuel with
  | O => OutOfFuel
  | S f =>
      pbind (parse_arith f ts) (fun a ts1 =>
        match ts1 with
        | TGt :: ts2 => pbind (parse_arith f ts2) (fun b ts3 => Parsed (EGt a b) ts3)
        | _ => Parsed a ts1
        end)
  end
with parse_arith (fuel : nat) (ts : list token) : parsed expr :=
  match fuel with
  | O => OutOfFuel
  | S f => pbind (parse_term f ts) (fun a ts1 => parse_arith_rest f a ts1)
  end
with parse_arith_rest (fuel : nat) (a : expr) (ts : list token) : parsed expr :=
  match fuel with
  | O => OutOfFuel
  | S f =>
      match ts with
      | TPlus :: ts1 =>
          pbind (parse_term f ts1) (fun b ts2 => parse_arith_rest f (EAdd a b) ts2)
      | TMinus :: ts1 =>
          pbind (parse_term f ts1) (fun b ts2 => parse_arith_rest f (ESub a b) ts2)
      | _ => Parsed a ts
      end
  end
with parse_term (fuel : nat) (ts : list token) : parsed expr :=
  match fuel with
  | O => OutOfFuel
  | S f => pbind (parse_factor f ts) (fun a ts1 => parse_term_rest f a ts1)
  end
with parse_term_rest (fuel : nat) (a : expr) (ts : list token) : parsed expr :=
  match fuel with
  | O => OutOfFuel
  | S f =>
      match ts with
      | TStar :: ts1 =>
          pbind (parse_factor f ts1) (fun b ts2 => parse_term_rest f (EMul a b) ts2)
      | TSlash :: ts1 =>
          pbind (parse_factor f ts1) (fun b ts2 => parse_term_rest f (EDiv a b) ts2)
      | _ => Parsed a ts
      end
  end
with parse_factor (fuel : nat) (ts : list token) : parsed expr :=
  match fuel with
  | O => OutOfFuel
  | S f =>
      match ts with
      | TMinus :: ts1 => pbind (parse_factor f ts1) (fun a ts2 => Parsed (ENeg a) ts2)
      | TPlus :: ts1 => parse_factor f ts1
      | _ => parse_power f ts
      end
  end
with parse_power (fuel : nat) (ts : list token) : parsed expr :=
  match fuel with
  | O => OutOfFuel
  | S f =>
      pbind (parse_atom f ts) (fun a ts1 =>
        match ts1 with
        | TPow :: ts2 => pbind (parse_factor f ts2) (fun b ts3 => Parsed (EPow a b) ts3)
        | _ => Parsed a ts1
        end)
  end
with parse_atom (fuel : nat) (ts : list token) : parsed expr :=
  match fuel with
  | O => OutOfFuel
  | S f =>
      match ts with
      | TNum n :: ts1 => Parsed (ENum n) ts1
      | TName x :: TLParen :: ts1 =>
          pbind (parse_args f ts1) (fun args ts2 => Parsed (ECall x args) ts2)
      | TName x :: ts1 => Parsed (EVar x) ts1
      | TLParen :: ts1 =>
          pbind (parse_comparison f ts1) (fun a ts2 =>
            match ts2 with
            | TRParen :: ts3 => Parsed a ts3
            | _ => SyntaxErr
            end)
      | _ => SyntaxErr
      end
  end
with parse_args (fuel : nat) (ts : list token) : parsed (list expr) :=
  match fuel with
  | O => OutOfFuel
  | S f =>
      match ts with
      | TRParen :: ts1 => Parsed [] ts1
      | _ =>
          pbind (parse_comparison f ts) (fun a ts1 =>
            match ts1 with
            | TComma :: ts2 =>
                pbind (parse_args f ts2) (fun rest ts3 => Parsed (a :: rest) ts3)
            | TRParen :: ts2 => Parsed [a] ts2
            | _ => SyntaxErr
            end)
      end
  end.

Definition fuel_for (ts : list token) : nat := 8 * List.length ts + 8.

(** A whole string is an expression when the parser consumes every token. *)
Definition parse_tokens (ts : list token) : parsed expr :=
  pbind (parse_comparison (fuel_for ts) ts) (fun e rest =>
    match rest with
    | [] => Parsed e []
    | _ => SyntaxErr
    end).

Definition parse (s : string) : parsed expr :=
  match lex s PNone with
  | Some ts => parse_tokens ts
  | None => SyntaxErr
  end.

(** ** Evaluator *)

Inductive value :=
| VNum (a : float)
| VBool (b : bool).

Definition env := list (string * float).

Fixpoint lookup (x : string) (rho : env) : option float :=
  match rho with
  | [] => None
  | (y, v) :: rho' => if String.eqb x y then Some v else lookup x rho'
  end.

Definition as_num (v : value) : result float :=
  match v with
  | VNum a => Ok a
  | VBool _ => Raise TypeError
  end.

Definition binop (op : float -> float -> float) (x y : result value)
  : result value :=
  a <- bind x as_num ;; b <- bind y as_num ;; Ok (VNum (op a b)).

(** Only the function [where] is part of the fragment. *)
Fixpoint eval (rho : env) (e : expr) : result value :=
  match e with
  | EVar x =>
      match lookup x rho with
      | Some a => Ok (VNum a)
      | None => Raise KeyError
      end
  | ENum n => Ok (VNum (Fin (inject_Z n)))
  | ENeg a => v <- bind (eval rho a) as_num ;; Ok (VNum (neg v))
  | EAdd a b => binop add (eval rho a) (eval rho b)
  | ESub a b => binop sub (eval rho a) (eval rho b)
  | EMul a b => binop mul (eval rho a) (eval rho b)
  | EDiv a b => binop div (eval rho a) (eval rho b)
  | EPow a b =>
      match b with
      | ENum n =>
          if (0 <=? n)%Z
          then v <- bind (eval rho a) as_num ;; Ok (VNum (pow v (Z.to_nat n)))
          else Raise NotImplementedError
      | _ => Raise NotImplementedError
      end
  | EGt a b =>
      x <- bind (eval rho a) as_num ;;
      y <- bind (eval rho b) as_num ;;
      Ok (VBool (gtb x y))
  | ECall f args =>
      if String.eqb f "where" then
        match args with
        | [c; a; b] =>
            vc <- eval rho c ;;
            x <- bind (eval rho a) as_num ;;
            y <- bind (eval rho b) as_num ;;
            match vc with
            | VBool t => Ok (VNum (if t then x else y))
            | VNum _ => Raise TypeError
            end
        | _ => Raise TypeError
        end
      else Raise TypeError
  end.

(** Compilation of the expression string: the step of [ne.evaluate] that
    fails on a malformed formula, before any array is looked at.  The fuel
    of [parse] is ample for the formulas of the fitter ([OutOfFuel] does not
    occur for them, see [parse_chi2] below). *)
Definition compile (ex : string) : result expr :=
  match parse ex with
  | Parsed e _ => Ok e
  | SyntaxErr => Raise SyntaxError
  | OutOfFuel => Raise SyntaxError
  end.

(** One element of the broadcast evaluation. *)
Definition run (e : expr) (rho : env) : result float :=
  bind (eval rho e) as_num.

End Numexpr.

(** ** [str.format] with the single field [{ae}] *)

Fixpoint format_ae (s : string) (ae : string) : string :=
  match s with
  | String "{" (String "a" (String "e" (String "}" s'))) =>
      (ae ++ format_ae s' ae)%string
  | String c s' => String c (format_ae s' ae)
  | EmptyString => EmptyString
  end.

Definition chi2gamma_template : string :=
  "(ao + where(ao > 1, 1, ao) - {ae})**2 /" ++
  "({ae} + square_syst_errors + 1)".

Definition chi2_template : string :=
  "(ao + {ae})**2 /" ++
  "({ae} + square_syst_errors".

Definition ae_text : string := "fractions_expected * total_observed".

(* ------------------------------------------------------------------ *)
(** * Arrays *)

Module Ndarray.

#[local] Unset Elimination Schemes.
Inductive nd (A : Type) :=
| Leaf (a : A)
| Node (rows : list (nd A)).
#[local] Set Elimination Schemes.

Arguments Leaf {A} a.
Arguments Node {A} rows.

Fixpoint nd_map {A B} (f : A -> B) (t : nd A) : nd B :=
  match t with
  | Leaf a => Leaf (f a)
  | Node rows => Node (map (nd_map f) rows)
  end.

Fixpoint nd_mapM {A B} (f : A -> result B) (t : nd A) : result (nd B) :=
  match t with
  | Leaf a => fmap Leaf (f a)
  | Node rows => fmap Node (mapM (nd_mapM f) rows)
  end.

(** Row-major (C order) traversal, the order of [ravel] and of flat indices. *)
Fixpoint flatten {A} (t : nd A) : list A :=
  match t with
  | Leaf a => [a]
  | Node rows => flat_map flatten rows
  end.

(** The shape of a rectangular array, read along the first rows. *)
Fixpoint shape {A} (t : nd A) : list nat :=
  match t with
  | Leaf _ => []
  | Node rows =>
      List.length rows :: match rows with
                          | r :: _ => shape r
                          | [] => []
                          end
  end.

(** [has_shape t s]: [t] is rectangular with [s] entries along its axes. *)
Fixpoint has_shape {A} (t : nd A) (s : list nat) : bool :=
  match t, s with
  | Leaf _, [] => true
  | Node rows, n :: s' =>
      Nat.eqb (List.length rows) n && forallb (fun r => has_shape r s') rows
  | _, _ => false
  end.

(** ** Indexing *)

Inductive index :=
| Int (i : Z)
| Slice (start stop : Z).

(** The index on the channel axis: [slice(None)] or a boolean array. *)
Inductive channel_index :=
| AllChannels
| Mask (m : list bool).

(** [l[i]] for a Python integer, negative values counting from the end. *)
Definition item {A} (l : list A) (i : Z) : result A :=
  let n := Z.of_nat (List.length l) in
  let j := if (i <? 0)%Z then (i + n)%Z else i in
  if (0 <=? j)%Z && (j <? n)%Z then
    match nth_error l (Z.to_nat j) with
    | Some a => Ok a
    | None => Raise IndexError
    end
  else Raise IndexError.

(** [slice.indices]: how a slice bound is clipped to a length [n]. *)
Definition clip (n i : Z) : Z :=
  if (i <? 0)%Z then Z.max 0 (i + n) else Z.min i n.

(** [l[start:stop]]; bounds outside the list are clipped, never an error. *)
Definition slice {A} (l : list A) (start stop : Z) : list A :=
  let n := Z.of_nat (List.length l) in
  let a := clip n start in
  let b := clip n stop in
  firstn (Z.to_nat (b - a)) (skipn (Z.to_nat a) l).

Fixpoint select {A} (m : list bool) (v : list A) : list A :=
  match m, v with
  | b :: m', x :: v' => if b then x :: select m' v' else select m' v'
  | _, _ => []
  end.

(** [v[m]] for a boolean array [m]: the lengths must agree. *)
Definition boolean_index {A} (m : list bool) (v : list A) : result (list A) :=
  if Nat.eqb (List.length m) (List.length v) then Ok (select m v)
  else Raise IndexError.

Definition channel_select {A} (ch : channel_index) (v : list A)
  : result (list A) :=
  match ch with
  | AllChannels => Ok v
  | Mask m => boolean_index m v
  end.

(** [a[sel + [ch]]]: one index per spatial axis, then the channel index. *)
Fixpoint getitem {A} (sel : list index) (ch : channel_index) (a : nd (list A))
  : result (nd (list A)) :=
  match sel with
  | [] =>
      match a with
      | Leaf v => fmap Leaf (channel_select ch v)
      | Node _ => Raise IndexError
      end
  | ix :: sel' =>
      match a with
      | Leaf _ => Raise IndexError
      | Node rows =>
          match ix with
          | Int i => r <- item rows i ;; getitem sel' ch r
          | Slice start stop =>
              fmap Node (mapM (getitem sel' ch) (slice rows start stop))
          end
      end
  end.

(** [a[idx]] for a tuple of integers. *)
Fixpoint item_at {A} (idx : list nat) (a : nd A) : result A :=
  match idx, a with
  | [], Leaf x => Ok x
  | i :: idx', Node rows =>
      match nth_error rows i with
      | Some r => item_at idx' r
      | None => Raise IndexError
      end
  | _, _ => Raise IndexError
  end.

(** ** [np.unravel_index], [np.argmin], [np.nanargmin] *)

Fixpoint unravel_index (k : nat) (s : list nat) : list nat :=
  match s with
  | [] => []
  | _ :: s' =>
      let m := fold_right Nat.mul 1%nat s' in
      (k / m)%nat :: unravel_index (k mod m)%nat s'
  end.

(** Position of the first smallest element of [x :: l], scanning left to
    right: a later element replaces the candidate only when strictly less. *)
Fixpoint argmin_from (best_i : nat) (best : float) (i : nat) (l : list float)
  : nat :=
  match l with
  | [] => best_i
  | x :: l' =>
      if ltb x best then argmin_from i x (S i) l'
      else argmin_from best_i best (S i) l'
  end.

Definition argmin (l : list float) : result nat :=
  match l with
  | [] => Raise ValueError
  | x :: l' => Ok (argmin_from 0 x 1 l')
  end.

Definition replace_nan (a : float) : float :=
  if is_nan a then PInf else a.

(** NumPy's [nanargmin]: NaN entries are replaced by +inf, the first minimum
    of the result is located, and an array of NaNs only is an error. *)
Definition nanargmin (l : list float) : result nat :=
  k <- argmin (map replace_nan l) ;;
  if forallb is_nan l then Raise ValueError else Ok k.

End Ndarray.

Import Ndarray.

(* ------------------------------------------------------------------ *)
(** * The pattern fitter *)

(** Python's [int(x)] on a float: truncation toward zero. *)
Definition py_int (x : Q) : Z :=
  if Qle_bool 0 x then Qfloor x else Qceiling x.

(** Python's [max(a, b)] and [min(a, b)]: the first argument wins ties. *)
Definition py_max (a b : Q) : Q := if Qle_bool b a then a else b.
Definition py_min (a b : Q) : Q := if Qle_bool a b then a else b.

Fixpoint enumerate_from {A} (i : nat) (l : list A) : list (nat * A) :=
  match l with
  | [] => []
  | x :: l' => (i, x) :: enumerate_from (S i) l'
  end.

Definition enumerate {A} (l : list A) : list (nat * A) := enumerate_from 0 l.

Record CoordinateData := {
  minimum : Q;
  maximum : Q;
  n_bins : Z;
  bin_spacing : Q
}.

(** [default_errors]: a number ([0] when not given) or one factor per channel. *)
Inductive errors :=
| ErrScalar (e : Q)
| ErrArray (e : list Q).

Record PatternFitter := {
  data : nd (list Q);
  dimensions : nat;
  coordinate_data : list CoordinateData;
  n_points : nat;
  default_pmt_selection : list bool;
  default_errors : errors
}.

Section Methods.

Variable self : PatternFitter.

Definition axis (dimension_i : nat) : result CoordinateData :=
  match nth_error (coordinate_data self) dimension_i with
  | Some cd => Ok cd
  | None => Raise IndexError
  end.

(** [cd.minimum <= value <= cd.maximum] *)
Definition in_range (cd : CoordinateData) (value : Q) : bool :=
  Qle_bool (minimum cd) value && Qle_bool value (maximum cd).

Definition _get_bin_index (value : Q) (dimension_i : nat) : result Z :=
  cd <- axis dimension_i ;;
  if negb (in_range cd value) then
    Raise (CoordinateOutOfRangeException NotInAllowedRange)
  else if Qeq_bool (bin_spacing cd) 0 then Raise ZeroDivisionError
  else Ok (py_int ((value - minimum cd) / bin_spacing cd)).

Definition _get_bin_center (bin_i : Z) (dimension_i : nat) : result Q :=
  cd <- axis dimension_i ;;
  Ok (minimum cd + bin_spacing cd * (inject_Z bin_i + (1 # 2))).

Definition get_bin_indices (coordinates : list Q) : result (list Z) :=
  mapM (fun '(dimension_i, x) => _get_bin_index x dimension_i)
       (enumerate coordinates).

(** [self.data[self.get_bin_indices(coordinates) + [slice(None)]]]: the
    full channel vector of the bin that holds [coordinates]. *)
Definition pattern_at (coordinates : list Q) : result (nd (list Q)) :=
  idx <- get_bin_indices coordinates ;;
  getitem (map Int idx) AllChannels (data self).

Definition expected_pattern (coordinates : list Q) : result (list Q) :=
  p <- pattern_at coordinates ;;
  match p with
  | Leaf pattern =>
      let sum_pattern := Qsum pattern in
      if Qeq_bool sum_pattern 0 then
        Raise (CoordinateOutOfRangeException OnlyZeros)
      else Ok (map (fun x => x / sum_pattern) pattern)
  | Node _ => Raise IndexError
  end.

(** [(self.default_errors * areas_observed) ** 2], a product of a number or
    a one-dimensional array with a one-dimensional array: arrays of one
    length are multiplied entry by entry, an array of length one is
    broadcast over the other, and any other pair of lengths is an error. *)
Definition default_square_syst_errors (areas_observed : list Q)
  : result (list Q) :=
  match default_errors self with
  | ErrScalar e => Ok (map (fun a => (e * a) ^ 2) areas_observed)
  | ErrArray es =>
      if Nat.eqb (List.length es) (List.length areas_observed)
      then Ok (map (fun p => (fst p * snd p) ^ 2) (combine es areas_observed))
      else
        match es, areas_observed with
        | [e], _ => Ok (map (fun a => (e * a) ^ 2) areas_observed)
        | _, [a] => Ok (map (fun e => (e * a) ^ 2) es)
        | _, _ => Raise ValueError
        end
  end.

(** The frame of one element of the broadcast goodness of fit formula. *)
Definition gof_frame (total_observed : Q) (elt : float * (Q * Q))
  : Numexpr.env :=
  let '(fe, (ao, sse)) := elt in
  [("ao", Fin ao); ("fractions_expected", fe);
   ("total_observed", Fin total_observed);
   ("square_syst_errors", Fin sse)]%string.

(** [ne.evaluate(ex)] on the arrays of [_compute_gof_base]: the formula is
    compiled once, then applied to every channel of every selected bin. *)
Definition evaluate_gof (ex : string) (fractions_expected : nd (list float))
    (ao : list Q) (total_observed : Q) (square_syst_errors : list Q)
  : result (nd (list float)) :=
  e <- Numexpr.compile ex ;;
  nd_mapM (fun fe =>
             mapM (fun elt => Numexpr.run e (gof_frame total_observed elt))
                  (combine fe (combine ao square_syst_errors)))
          fractions_expected.

(** [ne.evaluate("q / qsum")], with [qsum] the sum over the channel axis. *)
Definition evaluate_fractions (q : nd (list Q)) : result (nd (list float)) :=
  e <- Numexpr.compile "q / qsum" ;;
  nd_mapM (fun qv =>
             let qsum := Qsum qv in
             mapM (fun x => Numexpr.run e [("q", Fin x); ("qsum", Fin qsum)]%string)
                  qv)
          q.

(** [if pmt_selection is None: pmt_selection = self.default_pmt_selection] *)
Definition selection_or_default (pmt_selection : option (list bool))
  : list bool :=
  match pmt_selection with
  | Some m => m
  | None => default_pmt_selection self
  end.

(** [if square_syst_errors is None: square_syst_errors = ...] *)
Definition errors_or_default (areas_observed : list Q)
    (square_syst_errors : option (list Q)) : result (list Q) :=
  match square_syst_errors with
  | Some s => Ok s
  | None => default_square_syst_errors areas_observed
  end.

(** The branch on [statistic]: the formula string given to [ne.evaluate]. *)
Definition gof_formula (statistic : string) : result string :=
  if String.eqb statistic "chi2gamma" then
    Ok (format_ae chi2gamma_template ae_text)
  else if String.eqb statistic "chi2" then
    Ok (format_ae chi2_template ae_text)
  else Raise ValueError.

(** The array [result] of [_compute_gof_base], before the sum over channels:
    the contribution of every channel at every selected bin. *)
Definition gof_contributions (bin_selection : list index)
    (areas_observed : list Q) (pmt_selection : option (list bool))
    (square_syst_errors : option (list Q)) (statistic : string)
  : result (nd (list float)) :=
  let pmt_selection := selection_or_default pmt_selection in
  square_syst_errors <- errors_or_default areas_observed square_syst_errors ;;
  areas_observed <- boolean_index pmt_selection areas_observed ;;
  q <- getitem bin_selection (Mask pmt_selection) (data self) ;;
  fractions_expected <- evaluate_fractions q ;;
  let total_observed := Qsum areas_observed in
  square_syst_errors <- boolean_index pmt_selection square_syst_errors ;;
  ex <- gof_formula statistic ;;
  evaluate_gof ex fractions_expected areas_observed total_observed
               square_syst_errors.

Definition _compute_gof_base (bin_selection : list index)
    (areas_observed : list Q) (pmt_selection : option (list bool))
    (square_syst_errors : option (list Q)) (statistic : string)
  : result (nd float) :=
  result <- gof_contributions bin_selection areas_observed pmt_selection
                              square_syst_errors statistic ;;
  Ok (nd_map Float.sum result).

Definition compute_gof (coordinates : list Q) (areas_observed : list Q)
    (pmt_selection : option (list bool)) (square_syst_errors : option (list Q))
    (statistic : string) : result (nd float) :=
  idx <- get_bin_indices coordinates ;;
  _compute_gof_base (map Int idx) areas_observed pmt_selection
                    square_syst_errors statistic.

(** The loop of [compute_gof_grid] over the center coordinates, giving
    [bin_selection] and [lowest_bins]. *)
Fixpoint grid_selection (grid_size : Q) (center : list (nat * Q))
  : result (list index * list Z) :=
  match center with
  | [] => Ok ([], [])
  | (dimension_i, x) :: rest =>
      cd <- axis dimension_i ;;
      if negb (in_range cd x) then
        Raise (CoordinateOutOfRangeException NotInAllowedRange)
      else
        start <- _get_bin_index (py_max (x - grid_size / 2) (minimum cd))
                                dimension_i ;;
        stop <- _get_bin_index (py_min (x + grid_size / 2) (maximum cd))
                               dimension_i ;;
        '(bin_selection, lowest_bins) <- grid_selection grid_size rest ;;
        Ok (Slice start (stop + 1) :: bin_selection, start :: lowest_bins)
  end.

(** [compute_gof_grid] with [plot=False]. *)
Definition compute_gof_grid (center_coordinates : list Q) (grid_size : Q)
    (areas_observed : list Q) (pmt_selection : option (list bool))
    (square_syst_errors : option (list Q)) (statistic : string)
  : result (nd float * list Z) :=
  '(bin_selection, lowest_bins) <-
     grid_selection grid_size (enumerate center_coordinates) ;;
  gofs <- _compute_gof_base bin_selection areas_observed pmt_selection
                            square_syst_errors statistic ;;
  Ok (gofs, lowest_bins).

(** The loop of [minimize_gof_grid] that turns [min_index] into a position. *)
Fixpoint index_to_position (lowest_bins : list Z) (min_index : list (nat * nat))
  : result (list Q) :=
  match min_index with
  | [] => Ok []
  | (dimension_i, i_of_minimum) :: rest =>
      lowest <- item lowest_bins (Z.of_nat dimension_i) ;;
      x <- _get_bin_center (lowest + Z.of_nat i_of_minimum) dimension_i ;;
      xs <- index_to_position lowest_bins rest ;;
      Ok (x :: xs)
  end.

(** [minimize_gof_grid] with [plot=False]. *)
Definition minimize_gof_grid (center_coordinates : list Q) (grid_size : Q)
    (areas_observed : list Q) (pmt_selection : option (list bool))
    (square_syst_errors : option (list Q)) (statistic : string)
  : result (list Q * float) :=
  '(gofs, lowest_bins) <-
     compute_gof_grid center_coordinates grid_size areas_observed
                      pmt_selection square_syst_errors statistic ;;
  k <- nanargmin (flatten gofs) ;;
  let min_index := unravel_index k (shape gofs) in
  result <- index_to_position lowest_bins (enumerate min_index) ;;
  g <- item_at min_index gofs ;;
  Ok (result, g).

(** The objective [safe_compute_gof] that [minimize_gof_powell] hands to the
    minimiser: [compute_gof], with [CoordinateOutOfRangeException] turned
    into [float('inf')]. *)
Definition safe_compute_gof (coordinates : list Q) (areas_observed : list Q)
    (pmt_selection : option (list bool)) (square_syst_errors : option (list Q))
    (statistic : string) : result (nd float) :=
  match compute_gof coordinates areas_observed pmt_selection
                    square_syst_errors statistic with
  | Raise (CoordinateOutOfRangeException _) => Ok (Leaf PInf)
  | r => r
  end.

End Methods.

(** ** A small map for examples: one axis from 0 to 2 in two bins, one
    channel; the first bin is dead (expected response 0). *)
Definition pf_example : PatternFitter :=
  {| data := Node [Leaf [0]; Leaf [1]];
     dimensions := 1;
     coordinate_data := [ {| minimum := 0; maximum := 2; n_bins := 2; bin_spacing := 1 |} ];
     n_points := 1;
     default_pmt_selection := [true];
     default_errors := ErrScalar 0 |}.

(* ------------------------------------------------------------------ *)
(** * The binning in double precision

    The axis loop of [__init__] and the two binning methods once more, over
    IEEE 754 binary64 numbers, which is what a Python [float] is.  An index
    that the program computes can differ from the one exact arithmetic gives
    when an operation rounds; the statements that turn on this difference
    are made against this module. *)

Module Binary64.

Import PrimFloat SpecFloat.

Record CoordinateData := {
  minimum : float;
  maximum : float;
  n_bins : Z;
  bin_spacing : float
}.

(** [float(n)] for a Python integer [n] that a 63-bit word holds. *)
Definition float_of_int (n : Z) : float :=
  if (n <? 0)%Z then (- of_uint63 (Uint63.of_Z (- n)))%float
  else of_uint63 (Uint63.of_Z n).

(** [x == 0]: true of the two zeros only. *)
Definition is_zero (x : float) : bool :=
  match FloatOps.Prim2SF x with
  | S754_zero _ => true
  | _ => false
  end.

(** Python's [int(x)] on a float: truncation toward zero; the infinities
    and NaN have no integer. *)
Definition py_int (x : float) : result Z :=
  match FloatOps.Prim2SF x with
  | S754_zero _ => Ok 0%Z
  | S754_finite s m e =>
      let z := if s then Zneg m else Zpos m in
      Ok (match e with
          | Z0 => z
          | Zpos p => (z * 2 ^ Zpos p)%Z
          | Zneg p => Z.quot z (Zpos (2 ^ p))
          end)
  | S754_infinity _ => Raise OverflowError
  | S754_nan => Raise ValueError
  end.

(** The loop of [__init__] that stores one axis ([n_bins *= zoom_factor];
    Python's true division raises on a zero bin count). *)
Definition make_coordinate_data (zoom_factor : Z) (axis : float * float * Z)
  : result CoordinateData :=
  let '(start, stop, n_bins) := axis in
  let n_bins := (n_bins * zoom_factor)%Z in
  if (n_bins =? 0)%Z then Raise ZeroDivisionError
  else Ok {| minimum := start;
             maximum := stop;
             n_bins := n_bins;
             bin_spacing := ((stop - start) / float_of_int n_bins)%float |}.

Section Methods.

(** [self.coordinate_data] *)
Variable coordinate_data : list CoordinateData.

Definition axis (dimension_i : nat) : result CoordinateData :=
  match nth_error coordinate_data dimension_i with
  | Some cd => Ok cd
  | None => Raise IndexError
  end.

(** [cd.minimum <= value <= cd.maximum] *)
Definition in_range (cd : CoordinateData) (value : float) : bool :=
  (minimum cd <=? value)%float && (value <=? maximum cd)%float.

Definition _get_bin_index (value : float) (dimension_i : nat) : result Z :=
  cd <- axis dimension_i ;;
  if negb (in_range cd value) then
    Raise (CoordinateOutOfRangeException NotInAllowedRange)
  else if is_zero (bin_spacing cd) then Raise ZeroDivisionError
  else py_int ((value - minimum cd) / bin_spacing cd)%float.

Definition _get_bin_center (bin_i : Z) (dimension_i : nat) : result float :=
  cd <- axis dimension_i ;;
  Ok (minimum cd + bin_spacing cd * (float_of_int bin_i + 0.5))%float.

End Methods.

(** The number a double stands for; the infinities and NaN stand for
    none. *)
Definition value (x : float) : option Q :=
  match FloatOps.Prim2SF x with
  | S754_zero _ => Some 0
  | S754_finite s m e =>
      let z := if s then Zneg m else Zpos m in
      Some (match e with
            | Z0 => inject_Z z
            | Zpos p => inject_Z (z * 2 ^ Zpos p)
            | Zneg p => z # (2 ^ p)
            end)
  | _ => None
  end.

(** Entries of ['coordinate_system']: the axis of the examples, from -10 to
    10 in 20 bins, and an axis of two bins of width 1 that begins at
    10^16, where neighbouring doubles are 2 apart. *)
Definition axis20 : float * float * Z := ((-10)%float, 10%float, 20%Z).

(** The double next below 10. *)
Definition below_10 : float := 0x1.3ffffffffffffp+3%float.

(** Every bin of the axis is found again from its center. *)
Definition round_trips (cd : CoordinateData) : bool :=
  forallb (fun i =>
             match _get_bin_center [cd] i 0 with
             | Ok c =>
                 match _get_bin_index [cd] c 0 with
                 | Ok j => (j =? i)%Z
                 | Raise _ => false
                 end
             | Raise _ => false
             end)
          (map Z.of_nat (seq 0 (Z.to_nat (n_bins cd)))).

End Binary64.

(* ------------------------------------------------------------------ *)
(** * Vocabulary of the statements *)

Import Numexpr.

(** ** Axes *)

(** An axis with a proper range, a positive number of bins and a bin width
    that is exactly the range divided by the number of bins, which is what
    [__init__] stores when that quotient is a double. *)
Definition wf_axis (cd : CoordinateData) : Prop :=
  minimum cd < maximum cd /\
  (0 < n_bins cd)%Z /\
  bin_spacing cd == (maximum cd - minimum cd) / inject_Z (n_bins cd).

(** The spec's example axis: [-10, 10] in 20 bins. *)
Definition pf_axis20 : PatternFitter :=
  {| data := Node (repeat (Leaf [1; 1]) 20);
     dimensions := 1;
     coordinate_data :=
       [ {| minimum := -(10); maximum := 10; n_bins := 20; bin_spacing := 1 |} ];
     n_points := 2;
     default_pmt_selection := [true; true];
     default_errors := ErrScalar 0 |}.

(** ** Arrays *)

(** The induction principle of [nd], with the hypothesis for every row. *)
Section NdInduction.

Context {A : Type} (P : nd A -> Prop).
Hypothesis HLeaf : forall a, P (Leaf a).
Hypothesis HNode : forall rows, Forall P rows -> P (Node rows).

Fixpoint nd_induction (t : nd A) : P t :=
  match t with
  | Leaf a => HLeaf a
  | Node rows =>
      HNode rows
        ((fix all (l : list (nd A)) : Forall P l :=
            match l with
            | [] => Forall_nil P
            | r :: l' => Forall_cons r (nd_induction r) (all l')
            end) rows)
  end.

End NdInduction.

(** The number of entries of an array of shape [s]. *)
Definition size (s : list nat) : nat := fold_right Nat.mul 1%nat s.

(** The indices that [compute_gof_grid] builds are slices. *)
Definition is_slice (ix : index) : Prop :=
  match ix with
  | Slice _ _ => True
  | Int _ => False
  end.

(** The shape of [a[sel]] for slices [sel] of an array of shape [s]. *)
Fixpoint sliced_shape (sel : list index) (s : list nat) : list nat :=
  match sel, s with
  | Slice start stop :: sel', n :: s' =>
      List.length (slice (repeat tt n) start stop) :: sliced_shape sel' s'
  | _, _ => []
  end.

(** [nest n t]: [t] wrapped in [n] axes of length one. *)
Fixpoint nest {A} (n : nat) (t : nd A) : nd A :=
  match n with
  | O => t
  | S n' => Node [nest n' t]
  end.

(** [v] is the entry at position [k] of [l], no entry is below it, and
    every entry before position [k] is strictly above it. *)
Definition is_first_minimum (l : list float) (k : nat) (v : float) : Prop :=
  nth_error l k = Some v /\
  (forall y, In y l -> ltb y v = false) /\
  (forall j y, (j < k)%nat -> nth_error l j = Some y -> ltb v y = true).

(** The slice [ix] begins at bin [low]. *)
Definition slice_from (ix : index) (low : Z) : Prop :=
  match ix with
  | Slice start _ => start = low
  | Int _ => False
  end.

(** The bin indices in the map of the grid entry at [idx]:
    [lowest_bins[d] + idx[d]] on every axis. *)
Definition offset_index (lows : list Z) (idx : list nat) : list Z :=
  map (fun p => (fst p + Z.of_nat (snd p))%Z) (combine lows idx).

(** ** The formulas, compiled and as functions on floats *)

(** The syntax trees of ["q / qsum"] and of the ['chi2gamma'] formula. *)
Definition fractions_ast : expr := EDiv (EVar "q") (EVar "qsum").

Definition chi2gamma_ast : expr :=
  let ae := EMul (EVar "fractions_expected") (EVar "total_observed") in
  EDiv (EPow (ESub (EAdd (EVar "ao")
                         (ECall "where" [EGt (EVar "ao") (ENum 1); ENum 1;
                                         EVar "ao"]))
                   ae)
             (ENum 2))
       (EAdd (EAdd ae (EVar "square_syst_errors")) (ENum 1)).

(** One element of [fractions_expected], and one element of the
    ['chi2gamma'] result, as the evaluator computes them. *)
Definition fractions_element (x qsum : Q) : float := div (Fin x) (Fin qsum).

Definition chi2gamma_element (total_observed : Q) (fe : float) (ao sse : Q)
  : float :=
  let ae := mul fe (Fin total_observed) in
  div (pow (sub (add (Fin ao) (if gtb (Fin ao) (Fin 1) then Fin 1 else Fin ao))
                ae) 2)
      (add (add ae (Fin sse)) (Fin 1)).

(** The contributions of the channels of one bin, from its masked map
    vector [qv]. *)
Definition bin_fractions (qv : list Q) : list float :=
  map (fun x => fractions_element x (Qsum qv)) qv.

Definition bin_contributions (ao sse : list Q) (fe : list float) : list float :=
  map (fun elt => chi2gamma_element (Qsum ao) (fst elt) (fst (snd elt))
                                    (snd (snd elt)))
      (combine fe (combine ao sse)).

(** The formula of the specification, with [max(observed, 1)]. *)
Definition chi2gamma_spec_contribution (observed expected_amplitude sse : Q) : Q :=
  (observed + Qmax observed 1 - expected_amplitude) ^ 2
  / (expected_amplitude + sse + 1).

(** ** Exceptions *)

(** The computation raises the fitter's own exception. *)
Definition raises_out_of_range {A} (m : result A) : Prop :=
  exists msg, m = Raise (CoordinateOutOfRangeException msg).

(** Some component of the center, counted from axis [k], is out of range. *)
Definition center_outside (self : PatternFitter) (k : nat) (center : list Q)
  : Prop :=
  exists j x cd,
    nth_error center j = Some x /\
    nth_error (coordinate_data self) (k + j) = Some cd /\
    in_range cd x = false.

(* ------------------------------------------------------------------ *)
(** * Bin indexing *)

Lemma Qfloor_unique (x : Q) (i : Z) :
  inject_Z i <= x -> x < inject_Z (i + 1) -> Qfloor x = i.
Proof.
  intros Hlo Hhi.
  assert (H1 : (i <= Qfloor x)%Z).
  { rewrite <- (Qfloor_Z i). now apply Qfloor_resp_le. }
  assert (H2 : (Qfloor x < i + 1)%Z).
  { rewrite Zlt_Qlt. eapply Qle_lt_trans; [apply Qfloor_le | exact Hhi]. }
  lia.
Qed.

Lemma py_int_nonneg (x : Q) : 0 <= x -> py_int x = Qfloor x.
Proof.
  intros H. unfold py_int.
  apply Qle_bool_iff in H. now rewrite H.
Qed.

Section Axis.

Variable cd : CoordinateData.
Hypothesis Hwf : wf_axis cd.

Lemma n_bins_pos : 0 < inject_Z (n_bins cd).
Proof.
  destruct Hwf as (_ & Hn & _).
  change 0 with (inject_Z 0). now rewrite <- Zlt_Qlt.
Qed.

Lemma bin_spacing_pos : 0 < bin_spacing cd.
Proof.
  destruct Hwf as (Hlt & Hn & Hs). rewrite Hs.
  apply Qlt_shift_div_l; [apply n_bins_pos | lra].
Qed.

Lemma bin_spacing_nonzero : Qeq_bool (bin_spacing cd) 0 = false.
Proof.
  destruct (Qeq_bool (bin_spacing cd) 0) eqn:E; [|reflexivity].
  apply Qeq_bool_iff in E. pose proof bin_spacing_pos. lra.
Qed.

(** The full range is [n_bins] bins wide. *)
Lemma range_in_bins :
  (maximum cd - minimum cd) / bin_spacing cd == inject_Z (n_bins cd).
Proof.
  destruct Hwf as (Hlt & Hn & Hs).
  pose proof n_bins_pos as Hp. rewrite Hs. field. split; lra.
Qed.

Lemma width_is_bins_times_spacing :
  maximum cd - minimum cd == bin_spacing cd * inject_Z (n_bins cd).
Proof.
  destruct Hwf as (Hlt & Hn & Hs).
  pose proof n_bins_pos as Hp. rewrite Hs. field. lra.
Qed.

Lemma offset_nonneg (value : Q) :
  minimum cd <= value -> 0 <= (value - minimum cd) / bin_spacing cd.
Proof.
  intros H. apply Qle_shift_div_l; [apply bin_spacing_pos | lra].
Qed.

End Axis.

Lemma in_range_iff (cd : CoordinateData) (value : Q) :
  in_range cd value = true <-> minimum cd <= value /\ value <= maximum cd.
Proof.
  unfold in_range. rewrite andb_true_iff, !Qle_bool_iff. tauto.
Qed.

Section BinIndex.

Variable self : PatternFitter.
Variable dimension_i : nat.
Variable cd : CoordinateData.
Hypothesis Haxis : axis self dimension_i = Ok cd.
Hypothesis Hwf : wf_axis cd.

(** Inside the closed range the lookup returns, and returns the floor. *)
Lemma bin_index_in_range (value : Q) :
  in_range cd value = true ->
  _get_bin_index self value dimension_i
  = Ok (Qfloor ((value - minimum cd) / bin_spacing cd)).
Proof.
  intros Hin. unfold _get_bin_index. rewrite Haxis. simpl.
  rewrite Hin. simpl. rewrite (bin_spacing_nonzero _ Hwf).
  apply in_range_iff in Hin. destruct Hin as [Hlo _].
  now rewrite (py_int_nonneg _ (offset_nonneg _ Hwf _ Hlo)).
Qed.

(** Outside the closed range the lookup raises. *)
Lemma bin_index_out_of_range (value : Q) :
  in_range cd value = false ->
  _get_bin_index self value dimension_i
  = Raise (CoordinateOutOfRangeException NotInAllowedRange).
Proof.
  intros Hout. unfold _get_bin_index. rewrite Haxis. simpl.
  now rewrite Hout.
Qed.

End BinIndex.

Lemma pf_axis20_wf : Forall wf_axis (coordinate_data pf_axis20).
Proof.
  repeat constructor; simpl; try lia; try lra; reflexivity.
Qed.



(** The round trip in exact arithmetic: on a well-formed axis the center of
    every valid bin [i] is looked up as bin [i] again. *)
Theorem bin_center_round_trip (self : PatternFitter) (dimension_i : nat)
    (cd : CoordinateData) (i : Z) :
  axis self dimension_i = Ok cd ->
  wf_axis cd ->
  (0 <= i < n_bins cd)%Z ->
  _get_bin_center self i dimension_i
  = Ok (minimum cd + bin_spacing cd * (inject_Z i + (1 # 2))) /\
  (c <- _get_bin_center self i dimension_i ;; _get_bin_index self c dimension_i)
  = Ok i.
Proof.
  intros Haxis Hwf [Hi0 Hin].
  unfold _get_bin_center. rewrite Haxis. simpl. split; [reflexivity|].
  pose proof (bin_spacing_pos _ Hwf) as Hs.
  pose proof (width_is_bins_times_spacing _ Hwf) as Hw.
  set (h := inject_Z i + (1 # 2)).
  assert (Hh0 : 0 <= h).
  { unfold h. assert (0 <= inject_Z i)
      by (change 0 with (inject_Z 0); rewrite <- Zle_Qle; exact Hi0).
    lra. }
  assert (Hh1 : h <= inject_Z (n_bins cd)).
  { unfold h. assert (inject_Z (i + 1) <= inject_Z (n_bins cd))
      by (rewrite <- Zle_Qle; lia).
    rewrite inject_Z_plus in H. change (inject_Z 1) with 1 in H. lra. }
  assert (Hfloor : Qfloor h = i).
  { apply Qfloor_unique; unfold h.
    - lra.
    - rewrite inject_Z_plus. change (inject_Z 1) with 1. lra. }
  clearbody h.
  assert (Hrange : in_range cd (minimum cd + bin_spacing cd * h) = true).
  { apply in_range_iff. split.
    - assert (0 <= bin_spacing cd * h)
        by (apply Qmult_le_0_compat; [apply Qlt_le_weak; exact Hs | exact Hh0]).
      lra.
    - assert (bin_spacing cd * h <= bin_spacing cd * inject_Z (n_bins cd))
        by (apply Qmult_le_l; [exact Hs | exact Hh1]).
      lra. }
  rewrite (bin_index_in_range _ _ _ Haxis Hwf _ Hrange). f_equal.
  rewrite <- Hfloor. apply Qfloor_comp. field. lra.
Qed.

Lemma bin_center_round_trip_witness :
  _get_bin_center pf_axis20 19 0
  = Ok (-(10) + 1 * (inject_Z 19 + (1 # 2))) /\
  (c <- _get_bin_center pf_axis20 19 0 ;; _get_bin_index pf_axis20 c 0)
  = Ok 19%Z.
Proof.
  apply (bin_center_round_trip pf_axis20 0%nat
           {| minimum := -(10); maximum := 10; n_bins := 20; bin_spacing := 1 |}
           19%Z).
  - reflexivity.
  - repeat split; reflexivity.
  - simpl; lia.
Defined.

(* ------------------------------------------------------------------ *)
(** * Goodness of fit *)

(** ** Induction over arrays and the two monadic maps *)

Lemma mapM_total {A B} (f : A -> result B) (g : A -> B) (l : list A) :
  (forall a, In a l -> f a = Ok (g a)) -> mapM f l = Ok (map g l).
Proof.
  induction l as [|a l IH]; intros H; simpl; [reflexivity|].
  rewrite (H a (or_introl eq_refl)), IH; [reflexivity|].
  intros b Hb. apply H. now right.
Qed.

Lemma nd_mapM_total {A B} (f : A -> result B) (g : A -> B) (t : nd A) :
  (forall a, f a = Ok (g a)) -> nd_mapM f t = Ok (nd_map g t).
Proof.
  intros H. induction t as [a|rows IH] using nd_induction; simpl.
  - now rewrite H.
  - rewrite (mapM_total (nd_mapM f) (nd_map g)); [reflexivity|].
    intros r Hr. rewrite Forall_forall in IH. now apply IH.
Qed.

Lemma nd_map_ext {A B} (f g : A -> B) (t : nd A) :
  (forall a, f a = g a) -> nd_map f t = nd_map g t.
Proof.
  intros H. induction t as [a|rows IH] using nd_induction; simpl.
  - now rewrite H.
  - f_equal. apply map_ext_in. intros r Hr.
    rewrite Forall_forall in IH. now apply IH.
Qed.

Lemma nd_map_nd_map {A B C} (f : A -> B) (g : B -> C) (t : nd A) :
  nd_map g (nd_map f t) = nd_map (fun a => g (f a)) t.
Proof.
  induction t as [a|rows IH] using nd_induction; simpl; [reflexivity|].
  f_equal. rewrite map_map. apply map_ext_in. intros r Hr.
  rewrite Forall_forall in IH. now apply IH.
Qed.

(** ** What the three formula strings compile to *)

Lemma compile_fractions : compile "q / qsum" = Ok fractions_ast.
Proof. vm_compute. reflexivity. Qed.

Lemma compile_chi2gamma :
  compile (format_ae chi2gamma_template ae_text) = Ok chi2gamma_ast.
Proof. vm_compute. reflexivity. Qed.

(** The ['chi2'] formula, as the source writes it, has an opening
    parenthesis that is never closed: the parser rejects it (and does so for
    its syntax, not for lack of fuel). *)
Lemma chi2_formula_text :
  format_ae chi2_template ae_text
  = ("(ao + fractions_expected * total_observed)**2 /" ++
     "(fractions_expected * total_observed + square_syst_errors")%string.
Proof. vm_compute. reflexivity. Qed.

Lemma parse_chi2 : parse (format_ae chi2_template ae_text) = SyntaxErr.
Proof. vm_compute. reflexivity. Qed.

Lemma compile_chi2 :
  compile (format_ae chi2_template ae_text) = Raise SyntaxError.
Proof. vm_compute. reflexivity. Qed.

(** With the missing parenthesis supplied the same text is accepted. *)
Lemma parse_chi2_closed :
  exists e, parse (format_ae chi2_template ae_text ++ ")") = Parsed e [].
Proof. eexists. vm_compute. reflexivity. Qed.

(** ** The formulas as functions on floats *)

Lemma run_fractions (x qsum : Q) :
  run fractions_ast [("q", Fin x); ("qsum", Fin qsum)]%string
  = Ok (fractions_element x qsum).
Proof. reflexivity. Qed.

Lemma run_chi2gamma (total_observed : Q) (fe : float) (ao sse : Q) :
  run chi2gamma_ast (gof_frame total_observed (fe, (ao, sse)))
  = Ok (chi2gamma_element total_observed fe ao sse).
Proof. reflexivity. Qed.

Lemma evaluate_fractions_total (q : nd (list Q)) :
  evaluate_fractions q = Ok (nd_map bin_fractions q).
Proof.
  unfold evaluate_fractions. rewrite compile_fractions. simpl.
  apply nd_mapM_total. intros qv. apply mapM_total. intros x _.
  apply run_fractions.
Qed.

Lemma evaluate_gof_chi2gamma (fr : nd (list float)) (ao sse : list Q) :
  evaluate_gof (format_ae chi2gamma_template ae_text) fr ao (Qsum ao) sse
  = Ok (nd_map (bin_contributions ao sse) fr).
Proof.
  unfold evaluate_gof. rewrite compile_chi2gamma. simpl.
  apply nd_mapM_total. intros fe. apply mapM_total.
  intros [f [o s]] _. apply run_chi2gamma.
Qed.

Lemma gof_formula_chi2gamma :
  gof_formula "chi2gamma" = Ok (format_ae chi2gamma_template ae_text).
Proof. reflexivity. Qed.

Lemma gof_formula_chi2 :
  gof_formula "chi2" = Ok (format_ae chi2_template ae_text).
Proof. reflexivity. Qed.

(** [gof_contributions] for ['chi2gamma'], once the index operations have
    succeeded. *)
Lemma gof_contributions_chi2gamma (self : PatternFitter) (sel : list index)
    (ao : list Q) (pmt : option (list bool)) (sse : option (list Q))
    (s0 aom sm : list Q) (q : nd (list Q)) :
  errors_or_default self ao sse = Ok s0 ->
  boolean_index (selection_or_default self pmt) ao = Ok aom ->
  getitem sel (Mask (selection_or_default self pmt)) (data self) = Ok q ->
  boolean_index (selection_or_default self pmt) s0 = Ok sm ->
  gof_contributions self sel ao pmt sse "chi2gamma"
  = Ok (nd_map (fun qv => bin_contributions aom sm (bin_fractions qv)) q).
Proof.
  intros H0 H1 H2 H3. unfold gof_contributions.
  rewrite H0. cbn [bind]. rewrite H1. cbn [bind]. rewrite H2. cbn [bind].
  rewrite evaluate_fractions_total. cbn [bind]. rewrite H3. cbn [bind].
  rewrite gof_formula_chi2gamma. cbn [bind].
  rewrite evaluate_gof_chi2gamma. now rewrite nd_map_nd_map.
Qed.

(** C2.  With [statistic = 'chi2'] the goodness of fit never returns: the
    formula string does not compile.  Whatever the map and the amplitudes,
    [_compute_gof_base], [compute_gof] and [compute_gof_grid] raise; when the
    index operations before the formula succeed the error is the
    [SyntaxError] of the unbalanced parenthesis. *)
Theorem chi2_always_raises (self : PatternFitter) (ao : list Q)
    (pmt : option (list bool)) (sse : option (list Q)) :
  (forall sel, exists e, _compute_gof_base self sel ao pmt sse "chi2" = Raise e)
  /\ (forall c, exists e, compute_gof self c ao pmt sse "chi2" = Raise e)
  /\ (forall c g, exists e, compute_gof_grid self c g ao pmt sse "chi2" = Raise e)
  /\ (forall fr aom sm, evaluate_gof (format_ae chi2_template ae_text)
                                      fr aom (Qsum aom) sm
                        = Raise SyntaxError).
Proof.
  assert (Hbase : forall sel, exists e,
             _compute_gof_base self sel ao pmt sse "chi2" = Raise e).
  { intros sel. unfold _compute_gof_base, gof_contributions.
    destruct (errors_or_default self ao sse) as [s0|e]; cbn [bind]; [|eauto].
    destruct (boolean_index _ ao) as [aom|e]; cbn [bind]; [|eauto].
    destruct (getitem sel _ _) as [q|e]; cbn [bind]; [|eauto].
    rewrite evaluate_fractions_total. cbn [bind].
    destruct (boolean_index _ s0) as [sm|e]; cbn [bind]; [|eauto].
    rewrite gof_formula_chi2. cbn [bind].
    unfold evaluate_gof. rewrite compile_chi2. cbn [bind]. eauto. }
  split; [exact Hbase|]. split; [|split].
  - intros c. unfold compute_gof.
    destruct (get_bin_indices self c) as [idx|e]; cbn [bind]; [|eauto].
    apply Hbase.
  - intros c g. unfold compute_gof_grid.
    destruct (grid_selection self g (enumerate c)) as [[sel lows]|e];
      cbn [bind]; [|eauto].
    destruct (Hbase sel) as [e He]. rewrite He. cbn [bind]. eauto.
  - intros fr aom sm. unfold evaluate_gof. now rewrite compile_chi2.
Qed.

Example chi2_raises_on_axis20 :
  compute_gof pf_axis20 [0] [1; 1] None None "chi2" = Raise SyntaxError.
Proof. vm_compute. reflexivity. Qed.

(** ** The chi2gamma formula *)

Lemma combine_map_l {A B C} (f : A -> B) (l : list A) (l' : list C) :
  combine (map f l) l' = map (fun p => (f (fst p), snd p)) (combine l l').
Proof.
  revert l'. induction l as [|a l IH]; intros [|c l']; simpl; try reflexivity.
  now rewrite IH.
Qed.

(** The contributions of one bin, channel by channel. *)
Lemma bin_contributions_elements (ao sse qv : list Q) :
  bin_contributions ao sse (bin_fractions qv)
  = map (fun elt => chi2gamma_element (Qsum ao)
                      (fractions_element (fst elt) (Qsum qv))
                      (fst (snd elt)) (snd (snd elt)))
        (combine qv (combine ao sse)).
Proof.
  unfold bin_contributions, bin_fractions.
  rewrite combine_map_l, map_map. reflexivity.
Qed.

Lemma Qeq_bool_false (x y : Q) : ~ x == y -> Qeq_bool x y = false.
Proof.
  intros H. destruct (Qeq_bool x y) eqn:E; [|reflexivity].
  apply Qeq_bool_iff in E. contradiction.
Qed.

(** The formula on finite values: the correction term is [min(observed, 1)],
    the meaning of [where(ao > 1, 1, ao)]. *)
Lemma chi2gamma_element_finite (total x qsum o s : Q) :
  ~ qsum == 0 ->
  ~ x / qsum * total + s + 1 == 0 ->
  Float.eq (chi2gamma_element total (fractions_element x qsum) o s)
           (Fin ((o + Qmin o 1 - x / qsum * total) ^ 2
                 / (x / qsum * total + s + 1))).
Proof.
  intros Hq Hd. unfold chi2gamma_element, fractions_element.
  cbn [div]. rewrite (Qeq_bool_false _ _ Hq).
  cbn [mul add sub neg pow gtb ltb].
  generalize (x / qsum * total) Hd. clear Hd. intros ae Hd.
  assert (Hden : forall w,
             w == Qmin o 1 ->
             Float.eq (div (Fin ((o + w + - ae) * (o + w + - ae)))
                           (Fin (ae + s + 1)))
                      (Fin ((o + Qmin o 1 - ae) ^ 2 / (ae + s + 1)))).
  { intros w Hw. cbn [div]. rewrite (Qeq_bool_false _ _ Hd).
    cbn [Float.eq]. rewrite Hw. field. exact Hd. }
  destruct (Qle_bool o 1) eqn:E; cbn [negb].
  - apply (Hden o). symmetry. apply Q.min_l. now apply Qle_bool_iff.
  - apply (Hden 1). symmetry. apply Q.min_r.
    destruct (Qlt_le_dec 1 o) as [Hlt|Hle]; [now apply Qlt_le_weak|].
    apply Qle_bool_iff in Hle. congruence.
Qed.

(** C3, as stated, fails.  One bin with expected response [[1]], observed
    amplitude 4 (so the expected amplitude is 4 as well) and no systematic
    error: the code's contribution is 1/5, the stated formula gives 16/5. *)
Lemma chi2gamma_max_counterexample :
  ~ (exists c,
        gof_contributions pf_example [Int 1] [4] None None "chi2gamma"
        = Ok (Leaf [c]) /\
        Float.eq c (Fin (chi2gamma_spec_contribution 4 (1 / 1 * 4) 0))).
Proof.
  intros [c [H E]]. vm_compute in H. injection H as <-.
  vm_compute in E. discriminate E.
Qed.

(** C3, amended.  For ['chi2gamma'] the contribution of a channel is
    [(observed + min(observed, 1) - expected_amplitude)^2 /
     (expected_amplitude + systematic_error^2 + 1)], with
    [expected_amplitude = q / qsum * total_observed]; where
    [observed == expected_amplitude] and the systematic error is zero it is
    [min(observed, 1)^2 / (observed + 1)], nonzero for a positive observed
    amplitude. *)
Theorem chi2gamma_contribution_min (self : PatternFitter) (sel : list index)
    (ao : list Q) (pmt : option (list bool)) (sse : option (list Q))
    (s0 aom sm : list Q) (q : nd (list Q)) :
  errors_or_default self ao sse = Ok s0 ->
  boolean_index (selection_or_default self pmt) ao = Ok aom ->
  getitem sel (Mask (selection_or_default self pmt)) (data self) = Ok q ->
  boolean_index (selection_or_default self pmt) s0 = Ok sm ->
  gof_contributions self sel ao pmt sse "chi2gamma"
  = Ok (nd_map (fun qv =>
                  map (fun elt => chi2gamma_element (Qsum aom)
                                    (fractions_element (fst elt) (Qsum qv))
                                    (fst (snd elt)) (snd (snd elt)))
                      (combine qv (combine aom sm)))
               q)
  /\ forall x qsum o s : Q,
       ~ qsum == 0 ->
       ~ x / qsum * Qsum aom + s + 1 == 0 ->
       Float.eq (chi2gamma_element (Qsum aom) (fractions_element x qsum) o s)
                (Fin ((o + Qmin o 1 - x / qsum * Qsum aom) ^ 2
                      / (x / qsum * Qsum aom + s + 1)))
       /\ (o == x / qsum * Qsum aom -> s == 0 ->
           Float.eq (chi2gamma_element (Qsum aom) (fractions_element x qsum) o s)
                    (Fin (Qmin o 1 ^ 2 / (o + 1)))
           /\ (0 < o ->
               ~ Float.eq (chi2gamma_element (Qsum aom)
                             (fractions_element x qsum) o s)
                          (Fin 0))).
Proof.
  intros H0 H1 H2 H3. split.
  - rewrite (gof_contributions_chi2gamma _ _ _ _ _ _ _ _ _ H0 H1 H2 H3).
    f_equal. apply nd_map_ext. intros qv. apply bin_contributions_elements.
  - intros x qsum o s Hq Hd.
    pose proof (chi2gamma_element_finite (Qsum aom) x qsum o s Hq Hd) as Hf.
    split; [exact Hf|]. intros Ho Hs.
    destruct (chi2gamma_element (Qsum aom) (fractions_element x qsum) o s)
      as [c| | |]; cbn [Float.eq] in *; try contradiction.
    assert (Hd' : ~ o + 1 == 0).
    { intros Hz. apply Hd. rewrite <- Ho, Hs. lra. }
    assert (Hc : c == Qmin o 1 ^ 2 / (o + 1)).
    { rewrite Hf, <- Ho, Hs. field. exact Hd'. }
    split; [exact Hc|]. intros Hpos Hzero.
    assert (Hmin : 0 < Qmin o 1).
    { apply Q.min_glb_lt; lra. }
    assert (Hsq : 0 < Qmin o 1 ^ 2 / (o + 1)).
    { apply Qlt_shift_div_l; [lra|].
      rewrite Qmult_0_l. simpl. apply Qmult_lt_0_compat; exact Hmin. }
    rewrite Hc in Hzero. lra.
Qed.

Lemma chi2gamma_contribution_min_witness :
  gof_contributions pf_example [Int 1] [4] None None "chi2gamma"
  = Ok (nd_map (fun qv =>
                  map (fun elt => chi2gamma_element (Qsum [4])
                                    (fractions_element (fst elt) (Qsum qv))
                                    (fst (snd elt)) (snd (snd elt)))
                      (combine qv (combine [4] [(0 * 4) ^ 2])))
               (Leaf [1]))
  /\ ~ Float.eq (chi2gamma_element (Qsum [4]) (fractions_element 1 1) 4 0)
                (Fin 0).
Proof.
  destruct (chi2gamma_contribution_min pf_example [Int 1] [4] None None
              [(0 * 4) ^ 2] [4] [(0 * 4) ^ 2] (Leaf [1])
              eq_refl eq_refl eq_refl eq_refl) as [Hres Hform].
  split; [exact Hres|].
  assert (Hq : ~ 1 == 0) by (intros H; vm_compute in H; discriminate H).
  assert (Hd : ~ 1 / 1 * Qsum [4] + 0 + 1 == 0)
    by (intros H; vm_compute in H; discriminate H).
  destruct (Hform 1 1 4 0 Hq Hd) as [_ Hpart].
  assert (Ho : 4 == 1 / 1 * Qsum [4]) by (vm_compute; reflexivity).
  assert (Hs : 0 == 0) by reflexivity.
  destruct (Hpart Ho Hs) as [_ Hnz].
  apply Hnz. reflexivity.
Defined.

(* ------------------------------------------------------------------ *)
(** * Pattern lookup and dead bins *)

Lemma select_length {A B} (m : list bool) (v : list A) (w : list B) :
  List.length m = List.length v -> List.length m = List.length w ->
  List.length (select m v) = List.length (select m w).
Proof.
  revert v w. induction m as [|b m IH]; intros [|x v] [|y w] Hv Hw;
    simpl in *; try discriminate; try reflexivity.
  injection Hv as Hv. injection Hw as Hw.
  destruct b; simpl; rewrite (IH v w Hv Hw); reflexivity.
Qed.

Lemma boolean_index_same_length {A} (m : list bool) (v : list A) :
  List.length m = List.length v -> boolean_index m v = Ok (select m v).
Proof.
  intros H. unfold boolean_index. now rewrite H, Nat.eqb_refl.
Qed.

(** Indexing one bin with a mask selects from the bin's full vector. *)
Lemma getitem_mask_of_all {A} (idx : list Z) (m : list bool) (v : list A) :
  forall d : nd (list A),
    getitem (map Int idx) AllChannels d = Ok (Leaf v) ->
    List.length m = List.length v ->
    getitem (map Int idx) (Mask m) d = Ok (Leaf (select m v)).
Proof.
  induction idx as [|i idx IH]; intros d H Hlen; simpl in *.
  - destruct d as [v'|rows]; [|discriminate].
    simpl in H. injection H as ->.
    simpl. now rewrite (boolean_index_same_length _ _ Hlen).
  - destruct d as [v'|rows]; [discriminate|].
    destruct (item rows i) as [r|e]; [|discriminate].
    cbn [bind] in *. now apply IH.
Qed.

Lemma pattern_at_indices (self : PatternFitter) (c : list Q) (p : nd (list Q)) :
  pattern_at self c = Ok p ->
  exists idx, get_bin_indices self c = Ok idx /\
              getitem (map Int idx) AllChannels (data self) = Ok p.
Proof.
  unfold pattern_at. intros H.
  destruct (get_bin_indices self c) as [idx|e]; [|discriminate].
  exists idx. split; [reflexivity | exact H].
Qed.

Lemma Qsum_scale (k : Q) (v : list Q) :
  Qsum (map (fun x => x / k) v) == Qsum v / k.
Proof.
  induction v as [|x v IH]; simpl.
  - unfold Qdiv. now rewrite Qmult_0_l.
  - rewrite IH. unfold Qdiv. ring.
Qed.

Lemma Qsum_nonneg (v : list Q) : Forall (fun x => 0 <= x) v -> 0 <= Qsum v.
Proof.
  induction 1 as [|x v Hx _ IH]; simpl; [apply Qle_refl|].
  change 0 with (0 + 0). now apply Qplus_le_compat.
Qed.

(** Where the bin of [c] is found and holds a vector of nonnegative values
    with a sum that is not zero, [expected_pattern] returns that vector
    divided by its sum: nonnegative entries that sum to 1 (in exact
    arithmetic). *)
Theorem expected_pattern_distribution (self : PatternFitter) (c : list Q)
    (v : list Q) :
  pattern_at self c = Ok (Leaf v) ->
  Forall (fun x => 0 <= x) v ->
  ~ Qsum v == 0 ->
  exists p,
    expected_pattern self c = Ok p /\
    p = map (fun x => x / Qsum v) v /\
    Forall (fun x => 0 <= x) p /\
    Qsum p == 1.
Proof.
  intros Hat Hpos Hsum. unfold expected_pattern. rewrite Hat. cbn [bind].
  rewrite (Qeq_bool_false _ _ Hsum).
  eexists. split; [reflexivity|]. split; [reflexivity|].
  assert (Hs : 0 < Qsum v).
  { pose proof (Qsum_nonneg v Hpos) as H0.
    destruct (Qlt_le_dec 0 (Qsum v)) as [Hlt|Hle]; [exact Hlt|].
    exfalso. apply Hsum. now apply Qle_antisym. }
  split.
  - rewrite Forall_forall in *. intros y Hy.
    apply in_map_iff in Hy. destruct Hy as [x [<- Hx]].
    apply Qle_shift_div_l; [exact Hs|]. rewrite Qmult_0_l. now apply Hpos.
  - rewrite Qsum_scale. field. exact Hsum.
Qed.

Lemma expected_pattern_distribution_witness :
  exists p,
    expected_pattern pf_example [3 # 2] = Ok p /\
    p = map (fun x => x / Qsum [1]) [1] /\
    Forall (fun x => 0 <= x) p /\
    Qsum p == 1.
Proof.
  apply (expected_pattern_distribution pf_example [3 # 2] [1]).
  - reflexivity.
  - repeat constructor. vm_compute. discriminate.
  - intros H. vm_compute in H. discriminate H.
Defined.

(** C9.  The in-range coordinate that equals the maximum of its axis is not
    given a distribution.  On the axis from -10 to 10 in 20 bins, where
    every bin holds the live vector [1, 1], the coordinate 10 passes the
    range check and is looked up as bin 20, one past the last bin, so
    [expected_pattern] raises [IndexError]; the coordinate 19/2 in the last
    bin is given [1/2, 1/2]. *)
Theorem expected_pattern_at_upper_edge :
  (exists cd, axis pf_axis20 0 = Ok cd /\ in_range cd 10 = true) /\
  _get_bin_index pf_axis20 10 0 = Ok 20%Z /\
  has_shape (data pf_axis20) [20%nat] = true /\
  Forall (fun v => Forall (fun x => 0 <= x) v /\ ~ Qsum v == 0)
         (flatten (data pf_axis20)) /\
  expected_pattern pf_axis20 [10] = Raise IndexError /\
  expected_pattern pf_axis20 [19 # 2] = Ok [1 # 2; 1 # 2].
Proof.
  split; [eexists; split; reflexivity|].
  split; [reflexivity|]. split; [reflexivity|]. split.
  - cbn [pf_axis20 data flatten]. apply Forall_forall. intros v Hv.
    apply in_flat_map in Hv. destruct Hv as [r [Hr Hv]].
    apply repeat_spec in Hr. subst r. destruct Hv as [<-|[]]. split.
    + repeat constructor; vm_compute; discriminate.
    + intros H. vm_compute in H. discriminate H.
  - split; vm_compute; reflexivity.
Qed.

(** ** Dead bins in the goodness of fit *)

Lemma chi2gamma_element_dead (total x qsum o s : Q) :
  qsum == 0 ->
  chi2gamma_element total (fractions_element x qsum) o s = NaN.
Proof.
  intros Hq. unfold chi2gamma_element, fractions_element.
  cbn [div]. rewrite (Qeq_eq_bool _ _ Hq).
  cbn [gtb ltb].
  destruct (x ?= 0), (total ?= 0) eqn:Et, (Qle_bool o 1);
    cbn; rewrite ?Et; reflexivity.
Qed.

Lemma sum_all_nan {A} (f : A -> float) (l : list A) :
  l <> [] -> (forall a, f a = NaN) -> Float.sum (map f l) = NaN.
Proof.
  intros Hne Hf. destruct l as [|a l]; [contradiction|].
  simpl. now rewrite Hf.
Qed.

Lemma combine_nonempty {A B} (l : list A) (l' : list B) :
  l <> [] -> List.length l = List.length l' -> combine l l' <> [].
Proof.
  destruct l, l'; simpl; intros; try discriminate; congruence.
Qed.

(** C10, as stated, fails when the mask selects no channel: the masked
    expected responses sum to zero (an empty sum), no division takes place
    and the goodness of fit is the finite value 0. *)
Lemma dead_bin_empty_mask_counterexample :
  ~ (Qsum (select [false] [0]) == 0 ->
     exists g,
       compute_gof pf_example [1 # 2] [4] (Some [false]) None "chi2gamma"
       = Ok (Leaf g) /\
       is_finite g = false).
Proof.
  intros H. destruct (H (Qeq_refl _)) as [g [Hg Hfin]].
  vm_compute in Hg. injection Hg as <-. discriminate Hfin.
Qed.

(** C10, amended.  For ['chi2gamma'], with at least one channel selected:
    where the selected expected responses of the bin sum to zero,
    [compute_gof] does not raise and returns NaN; [expected_pattern] is the
    function that raises on a bin whose responses sum to zero. *)
Theorem compute_gof_dead_bin (self : PatternFitter) (c : list Q)
    (ao : list Q) (pmt : option (list bool)) (sse : option (list Q))
    (v s0 : list Q) :
  pattern_at self c = Ok (Leaf v) ->
  List.length (selection_or_default self pmt) = List.length v ->
  List.length ao = List.length v ->
  errors_or_default self ao sse = Ok s0 ->
  List.length s0 = List.length v ->
  select (selection_or_default self pmt) v <> [] ->
  Qsum (select (selection_or_default self pmt) v) == 0 ->
  compute_gof self c ao pmt sse "chi2gamma" = Ok (Leaf NaN)
  /\ (Qsum v == 0 ->
      expected_pattern self c
      = Raise (CoordinateOutOfRangeException OnlyZeros)).
Proof.
  intros Hat Hm Hao Hs0 Hs0len Hne Hzero.
  split.
  2:{ intros Hv. unfold expected_pattern. rewrite Hat. cbn [bind].
      now rewrite (Qeq_eq_bool _ _ Hv). }
  set (m := selection_or_default self pmt) in *.
  destruct (pattern_at_indices _ _ _ Hat) as [idx [Hidx Hget]].
  unfold compute_gof. rewrite Hidx. cbn [bind].
  unfold _compute_gof_base.
  assert (Hmao : List.length m = List.length ao) by congruence.
  assert (Hms0 : List.length m = List.length s0) by congruence.
  rewrite (gof_contributions_chi2gamma self (map Int idx) ao pmt sse s0
             (select m ao) (select m s0) (Leaf (select m v)) Hs0
             (boolean_index_same_length _ _ Hmao)
             (getitem_mask_of_all idx m v _ Hget Hm)
             (boolean_index_same_length _ _ Hms0)).
  cbn [bind nd_map]. do 2 f_equal.
  rewrite bin_contributions_elements.
  apply sum_all_nan.
  - apply combine_nonempty; [exact Hne|].
    rewrite length_combine.
    rewrite <- (select_length m v ao Hm Hmao).
    rewrite <- (select_length m v s0 Hm Hms0).
    now rewrite Nat.min_id.
  - intros elt. now apply chi2gamma_element_dead.
Qed.

Lemma compute_gof_dead_bin_witness :
  compute_gof pf_example [1 # 2] [4] None None "chi2gamma" = Ok (Leaf NaN)
  /\ (Qsum [0] == 0 ->
      expected_pattern pf_example [1 # 2]
      = Raise (CoordinateOutOfRangeException OnlyZeros)).
Proof.
  apply (compute_gof_dead_bin pf_example [1 # 2] [4] None None
           [0] [(0 * 4) ^ 2]).
  - reflexivity.
  - reflexivity.
  - reflexivity.
  - reflexivity.
  - reflexivity.
  - simpl. discriminate.
  - reflexivity.
Defined.

(** C4, as stated, fails: the zero-sum failure of [expected_pattern] is a
    [CoordinateOutOfRangeException], the class raised for coordinates out of
    range, and so an error that [except CoordinateOutOfRangeException]
    catches. *)
Lemma only_zeros_not_distinct_counterexample :
  ~ (exists e,
        expected_pattern pf_example [1 # 2] = Raise e /\
        is_CoordinateOutOfRange e = false).
Proof.
  intros [e [H Hclass]]. vm_compute in H. injection H as <-.
  discriminate Hclass.
Qed.

(* ------------------------------------------------------------------ *)
(** * Which computations can raise [CoordinateOutOfRangeException] *)

Lemma bind_not_out_of_range {A B} (m : result A) (k : A -> result B) :
  ~ raises_out_of_range m ->
  (forall a, m = Ok a -> ~ raises_out_of_range (k a)) ->
  ~ raises_out_of_range (bind m k).
Proof.
  intros Hm Hk [msg H]. destruct m as [a|e]; cbn [bind] in H.
  - apply (Hk a eq_refl). now exists msg.
  - apply Hm. exists msg. injection H as ->. reflexivity.
Qed.

Lemma mapM_raise {A B} (f : A -> result B) (l : list A) (e : exn) :
  mapM f l = Raise e -> exists a, In a l /\ f a = Raise e.
Proof.
  induction l as [|a l IH]; simpl; [discriminate|].
  destruct (f a) as [b|e'] eqn:Ea.
  - destruct (mapM f l) as [bs|e'']; [discriminate|].
    intros H. injection H as ->. destruct (IH eq_refl) as [a' [Hin Ha']].
    exists a'. split; [now right | exact Ha'].
  - intros H. injection H as ->. exists a. split; [now left | exact Ea].
Qed.

Lemma mapM_not_out_of_range {A B} (f : A -> result B) (l : list A) :
  (forall a, ~ raises_out_of_range (f a)) ->
  ~ raises_out_of_range (mapM f l).
Proof.
  intros Hf [msg H]. apply mapM_raise in H. destruct H as [a [_ Ha]].
  apply (Hf a). now exists msg.
Qed.

Lemma item_not_out_of_range {A} (l : list A) (i : Z) :
  ~ raises_out_of_range (item l i).
Proof.
  intros [msg H]. unfold item in H.
  destruct (_ && _); [|discriminate].
  destruct (nth_error _ _); discriminate.
Qed.

Lemma boolean_index_not_out_of_range {A} (m : list bool) (v : list A) :
  ~ raises_out_of_range (boolean_index m v).
Proof.
  intros [msg H]. unfold boolean_index in H.
  destruct (Nat.eqb _ _); discriminate.
Qed.

Lemma getitem_not_out_of_range {A} (sel : list index) (ch : channel_index) :
  forall a : nd (list A), ~ raises_out_of_range (getitem sel ch a).
Proof.
  induction sel as [|ix sel IH]; intros a; simpl.
  - destruct a as [v|rows]; [|intros [msg H]; discriminate].
    apply bind_not_out_of_range.
    + destruct ch as [|m]; simpl;
        [intros [msg H]; discriminate
        | apply boolean_index_not_out_of_range].
    + intros v' _ [msg H]. discriminate.
  - destruct a as [v|rows]; [intros [msg H]; discriminate|].
    destruct ix as [i|start stop].
    + apply bind_not_out_of_range; [apply item_not_out_of_range|].
      intros r _. apply IH.
    + apply bind_not_out_of_range; [now apply mapM_not_out_of_range|].
      intros rs _ [msg H]. discriminate.
Qed.

(** The goodness of fit proper never raises the fitter's own exception. *)
Lemma compute_gof_base_not_out_of_range (self : PatternFitter)
    (sel : list index) (ao : list Q) (pmt : option (list bool))
    (sse : option (list Q)) (statistic : string) :
  ~ raises_out_of_range (_compute_gof_base self sel ao pmt sse statistic).
Proof.
  unfold _compute_gof_base. apply bind_not_out_of_range;
    [|intros r _ [msg H]; discriminate].
  unfold gof_contributions.
  apply bind_not_out_of_range.
  { intros [msg H]. destruct sse as [s|]; [discriminate|].
    unfold errors_or_default, default_square_syst_errors in H.
    destruct (default_errors self) as [e|es]; [discriminate|].
    destruct (Nat.eqb _ _); [discriminate|].
    destruct es as [|e [|e' es]], ao as [|a [|a' ao]]; discriminate. }
  intros s0 _. apply bind_not_out_of_range;
    [apply boolean_index_not_out_of_range|].
  intros aom _. apply bind_not_out_of_range;
    [apply getitem_not_out_of_range|].
  intros q _. rewrite evaluate_fractions_total. cbn [bind].
  apply bind_not_out_of_range; [apply boolean_index_not_out_of_range|].
  intros sm _. unfold gof_formula.
  destruct (String.eqb statistic "chi2gamma"); cbn [bind].
  - rewrite evaluate_gof_chi2gamma. intros [msg H]. discriminate.
  - destruct (String.eqb statistic "chi2"); cbn [bind].
    + unfold evaluate_gof. rewrite compile_chi2. intros [msg H]. discriminate.
    + intros [msg H]. discriminate.
Qed.

Lemma get_bin_index_raise (self : PatternFitter) (x : Q) (d : nat)
    (msg : oor_message) :
  _get_bin_index self x d = Raise (CoordinateOutOfRangeException msg) ->
  msg = NotInAllowedRange.
Proof.
  unfold _get_bin_index, axis.
  destruct (nth_error (coordinate_data self) d) as [cd|]; cbn [bind].
  - destruct (negb (in_range cd x)); [intros H; now injection H|].
    destruct (Qeq_bool _ _); discriminate.
  - discriminate.
Qed.

Lemma get_bin_indices_raise (self : PatternFitter) (c : list Q)
    (msg : oor_message) :
  get_bin_indices self c = Raise (CoordinateOutOfRangeException msg) ->
  msg = NotInAllowedRange.
Proof.
  unfold get_bin_indices. intros H. apply mapM_raise in H.
  destruct H as [[d x] [_ H]]. now apply get_bin_index_raise in H.
Qed.

(** C4, amended.  Where the bin of [c] holds a vector that sums to zero,
    [expected_pattern] raises [CoordinateOutOfRangeException] (with the
    only-zeros message): the class of the out-of-range error.  The objective
    of [minimize_gof_powell] wraps [compute_gof]; it turns every exception of
    that class into +infinity and lets every other error through, and
    [compute_gof] never raises the only-zeros error. *)
Theorem only_zeros_is_out_of_range_class (self : PatternFitter) (c : list Q)
    (v : list Q) :
  pattern_at self c = Ok (Leaf v) ->
  Qsum v == 0 ->
  expected_pattern self c = Raise (CoordinateOutOfRangeException OnlyZeros)
  /\ forall (c' ao : list Q) (pmt : option (list bool))
            (sse : option (list Q)) (statistic : string),
       compute_gof self c' ao pmt sse statistic
       <> Raise (CoordinateOutOfRangeException OnlyZeros)
       /\ (forall e,
              compute_gof self c' ao pmt sse statistic = Raise e ->
              safe_compute_gof self c' ao pmt sse statistic
              = if is_CoordinateOutOfRange e then Ok (Leaf PInf) else Raise e)
       /\ (forall g,
              compute_gof self c' ao pmt sse statistic = Ok g ->
              safe_compute_gof self c' ao pmt sse statistic = Ok g).
Proof.
  intros Hat Hzero. split.
  - unfold expected_pattern. rewrite Hat. cbn [bind].
    now rewrite (Qeq_eq_bool _ _ Hzero).
  - intros c' ao pmt sse statistic. split; [|split].
    + unfold compute_gof. intros H.
      destruct (get_bin_indices self c') as [idx|e] eqn:Eidx; cbn [bind] in H.
      * apply (compute_gof_base_not_out_of_range
                 self (map Int idx) ao pmt sse statistic).
        now exists OnlyZeros.
      * injection H as ->. apply get_bin_indices_raise in Eidx. discriminate.
    + intros e He. unfold safe_compute_gof. rewrite He.
      destruct e; reflexivity.
    + intros g Hg. unfold safe_compute_gof. now rewrite Hg.
Qed.

Lemma only_zeros_is_out_of_range_class_witness :
  expected_pattern pf_example [1 # 2]
  = Raise (CoordinateOutOfRangeException OnlyZeros).
Proof.
  apply (only_zeros_is_out_of_range_class pf_example [1 # 2] [0]).
  - reflexivity.
  - reflexivity.
Defined.

(* ------------------------------------------------------------------ *)
(** * The search window of [compute_gof_grid] *)

Lemma window_low_in_range (cd : CoordinateData) (x grid_size : Q) :
  in_range cd x = true -> 0 <= grid_size ->
  in_range cd (py_max (x - grid_size / 2) (minimum cd)) = true.
Proof.
  intros Hin Hg. apply in_range_iff in Hin. destruct Hin as [Hlo Hhi].
  assert (Hh : 0 <= grid_size / 2) by (apply Qle_shift_div_l; lra).
  apply in_range_iff. unfold py_max.
  destruct (Qle_bool (minimum cd) (x - grid_size / 2)) eqn:E.
  - apply Qle_bool_iff in E. lra.
  - lra.
Qed.

Lemma window_high_in_range (cd : CoordinateData) (x grid_size : Q) :
  in_range cd x = true -> 0 <= grid_size ->
  in_range cd (py_min (x + grid_size / 2) (maximum cd)) = true.
Proof.
  intros Hin Hg. apply in_range_iff in Hin. destruct Hin as [Hlo Hhi].
  assert (Hh : 0 <= grid_size / 2) by (apply Qle_shift_div_l; lra).
  apply in_range_iff. unfold py_min.
  destruct (Qle_bool (x + grid_size / 2) (maximum cd)) eqn:E.
  - apply Qle_bool_iff in E. lra.
  - lra.
Qed.

Section Window.

Variable self : PatternFitter.
Variable grid_size : Q.
Hypothesis Hwf : Forall wf_axis (coordinate_data self).
Hypothesis Hsize : 0 <= grid_size.

(** The loop either selects a window for every axis, or stops at a center
    component that is out of range; the window edges never stop it. *)
Lemma grid_selection_cases (center : list Q) :
  forall k,
    (k + List.length center <= List.length (coordinate_data self))%nat ->
    (~ center_outside self k center /\
     exists sel lows,
       grid_selection self grid_size (enumerate_from k center) = Ok (sel, lows)
       /\ List.length sel = List.length center
       /\ List.length lows = List.length center)
    \/
    (center_outside self k center /\
     grid_selection self grid_size (enumerate_from k center)
     = Raise (CoordinateOutOfRangeException NotInAllowedRange)).
Proof.
  induction center as [|x center IH]; intros k Hk.
  - left. split.
    + intros (j & y & cd & Hj & _). destruct j; discriminate.
    + exists [], []. repeat split.
  - simpl in Hk.
    destruct (nth_error (coordinate_data self) k) as [cd|] eqn:Ecd.
    2:{ apply nth_error_None in Ecd. lia. }
    assert (Hcd : wf_axis cd).
    { rewrite Forall_forall in Hwf. apply Hwf. eapply nth_error_In; eauto. }
    assert (Haxis : axis self k = Ok cd) by (unfold axis; now rewrite Ecd).
    cbn [enumerate_from grid_selection]. rewrite Haxis. cbn [bind].
    destruct (in_range cd x) eqn:Ein; cbn [negb].
    + rewrite (bin_index_in_range self k cd Haxis Hcd _
                 (window_low_in_range cd x grid_size Ein Hsize)).
      rewrite (bin_index_in_range self k cd Haxis Hcd _
                 (window_high_in_range cd x grid_size Ein Hsize)).
      cbn [bind].
      destruct (IH (S k)) as [[Hin (sel & lows & Hsel & Hl1 & Hl2)]|[Hout Hraise]];
        [lia| |].
      * left. split.
        -- intros (j & y & cd' & Hj & Hcd' & Hr). destruct j as [|j].
           ++ simpl in Hj. injection Hj as <-.
              rewrite Nat.add_0_r in Hcd'. congruence.
           ++ apply Hin. exists j, y, cd'. simpl in Hj.
              rewrite Nat.add_succ_r in Hcd'. auto.
        -- rewrite Hsel. cbn [bind]. eexists _, _.
           split; [reflexivity|]. simpl. split; congruence.
      * right. split.
        -- destruct Hout as (j & y & cd' & Hj & Hcd' & Hr).
           exists (S j), y, cd'. simpl. rewrite Nat.add_succ_r. auto.
        -- now rewrite Hraise.
    + right. split; [|reflexivity].
      exists 0%nat, x, cd. rewrite Nat.add_0_r. auto.
Qed.

End Window.

(** A negative window size puts the lower edge above the center, where
    clamping from below does not help: the center 19/2 is in range, and
    the lookup of the edge 19/2 + 2 raises. *)
Lemma grid_negative_size_counterexample :
  (forall d x cd,
      nth_error [19 # 2] d = Some x ->
      nth_error (coordinate_data pf_axis20) d = Some cd ->
      in_range cd x = true) /\
  compute_gof_grid pf_axis20 [19 # 2] (-(4)) [1; 1] None None "chi2gamma"
  = Raise (CoordinateOutOfRangeException NotInAllowedRange).
Proof.
  split; [|vm_compute; reflexivity].
  intros [|[|d]] x cd Hx Hcd; try discriminate.
  simpl in Hx, Hcd. injection Hx as <-. injection Hcd as <-. reflexivity.
Qed.

(** C6.  For a window size that is not negative and one center coordinate
    per axis, [compute_gof_grid] raises [CoordinateOutOfRangeException]
    exactly when some component of the center is outside its axis range; with
    the center in range both clamped window edges are in range and the bin
    selection is computed for every axis. *)
Theorem grid_out_of_range_iff_center (self : PatternFitter)
    (center : list Q) (grid_size : Q) (ao : list Q)
    (pmt : option (list bool)) (sse : option (list Q)) (statistic : string) :
  Forall wf_axis (coordinate_data self) ->
  List.length center = List.length (coordinate_data self) ->
  0 <= grid_size ->
  ((exists msg,
       compute_gof_grid self center grid_size ao pmt sse statistic
       = Raise (CoordinateOutOfRangeException msg))
   <->
   (exists d x cd,
       nth_error center d = Some x /\
       nth_error (coordinate_data self) d = Some cd /\
       in_range cd x = false))
  /\
  ((forall d x cd,
       nth_error center d = Some x ->
       nth_error (coordinate_data self) d = Some cd ->
       in_range cd x = true) ->
   (forall d x cd,
       nth_error center d = Some x ->
       nth_error (coordinate_data self) d = Some cd ->
       (exists start,
           _get_bin_index self (py_max (x - grid_size / 2) (minimum cd)) d
           = Ok start) /\
       (exists stop,
           _get_bin_index self (py_min (x + grid_size / 2) (maximum cd)) d
           = Ok stop)) /\
   exists sel lows,
     grid_selection self grid_size (enumerate center) = Ok (sel, lows)).
Proof.
  intros Hwf Hlen Hg.
  assert (Hk : (0 + List.length center <= List.length (coordinate_data self))%nat)
    by lia.
  pose proof (grid_selection_cases self grid_size Hwf Hg center 0%nat Hk)
    as Hcases.
  unfold center_outside in Hcases. simpl in Hcases.
  fold (enumerate center) in Hcases.
  split; [split|].
  - intros [msg H]. unfold compute_gof_grid in H.
    destruct Hcases as [[_ (sel & lows & Hsel & _)]|[Hout _]]; [|exact Hout].
    exfalso. rewrite Hsel in H. cbn [bind] in H.
    apply (compute_gof_base_not_out_of_range self sel ao pmt sse statistic).
    destruct (_compute_gof_base self sel ao pmt sse statistic) as [gofs|e];
      cbn [bind] in H; [discriminate|].
    exists msg. injection H as ->. reflexivity.
  - intros Hout.
    destruct Hcases as [[Hin _]|[_ Hraise]]; [contradiction|].
    exists NotInAllowedRange. unfold compute_gof_grid. now rewrite Hraise.
  - intros Hall. split.
    + intros d x cd Hd Hcd.
      assert (Hcdwf : wf_axis cd).
      { rewrite Forall_forall in Hwf. apply Hwf. eapply nth_error_In; eauto. }
      assert (Haxis : axis self d = Ok cd) by (unfold axis; now rewrite Hcd).
      pose proof (Hall d x cd Hd Hcd) as Hin.
      split; eexists.
      * apply (bin_index_in_range self d cd Haxis Hcdwf).
        now apply window_low_in_range.
      * apply (bin_index_in_range self d cd Haxis Hcdwf).
        now apply window_high_in_range.
    + destruct Hcases as [[_ (sel & lows & Hsel & _)]|[Hout _]]; [eauto|].
      destruct Hout as (j & x & cd & Hj & Hcd & Hr).
      pose proof (Hall j x cd Hj Hcd). congruence.
Qed.

Lemma grid_out_of_range_iff_center_witness :
  ~ (exists msg,
        compute_gof_grid pf_axis20 [19 # 2] 4 [1; 1] None None "chi2gamma"
        = Raise (CoordinateOutOfRangeException msg)) /\
  (exists start,
      _get_bin_index pf_axis20 (py_max ((19 # 2) - 4 / 2) (-(10))) 0
      = Ok start) /\
  (exists stop,
      _get_bin_index pf_axis20 (py_min ((19 # 2) + 4 / 2) 10) 0 = Ok stop) /\
  exists sel lows,
    grid_selection pf_axis20 4 (enumerate [19 # 2]) = Ok (sel, lows).
Proof.
  assert (Hin : forall d x cd,
             nth_error [19 # 2] d = Some x ->
             nth_error (coordinate_data pf_axis20) d = Some cd ->
             in_range cd x = true).
  { intros [|[|d]] x cd Hx Hcd; try discriminate.
    simpl in Hx, Hcd. injection Hx as <-. injection Hcd as <-. reflexivity. }
  destruct (grid_out_of_range_iff_center pf_axis20 [19 # 2] 4 [1; 1] None None
              "chi2gamma") as [Hiff Hwindow].
  - repeat constructor; reflexivity.
  - reflexivity.
  - vm_compute. discriminate.
  - destruct (Hwindow Hin) as [Hedges Hsel]. split.
    + intros Hraise. apply Hiff in Hraise.
      destruct Hraise as (d & x & cd & Hx & Hcd & Hout).
      rewrite (Hin d x cd Hx Hcd) in Hout. discriminate.
    + destruct (Hedges 0%nat (19 # 2) _ eq_refl eq_refl) as [Hlow Hhigh].
      split; [exact Hlow|]. split; [exact Hhigh | exact Hsel].
Defined.

(* ------------------------------------------------------------------ *)
(** * The grid minimum *)

(** ** The order on floats *)

Lemma ltb_irrefl (a : float) : ltb a a = false.
Proof.
  destruct a as [x| | |]; simpl; try reflexivity.
  now rewrite (proj2 (Qle_bool_iff x x) (Qle_refl x)).
Qed.

Lemma Qle_bool_false_lt (x y : Q) : Qle_bool x y = false <-> y < x.
Proof.
  split; intros H.
  - destruct (Qlt_le_dec y x) as [Hlt|Hle]; [exact Hlt|].
    apply Qle_bool_iff in Hle. congruence.
  - destruct (Qle_bool x y) eqn:E; [|reflexivity].
    apply Qle_bool_iff in E. lra.
Qed.

Lemma ltb_Fin (x y : Q) : ltb (Fin x) (Fin y) = true <-> x < y.
Proof.
  simpl. rewrite negb_true_iff. apply Qle_bool_false_lt.
Qed.

Lemma ltb_Fin_false (x y : Q) : ltb (Fin x) (Fin y) = false <-> y <= x.
Proof.
  simpl. rewrite negb_false_iff. apply Qle_bool_iff.
Qed.

(** [x < b <= y] gives [x < y], away from NaN. *)
Lemma ltb_le_trans (x b y : float) :
  is_nan y = false ->
  ltb x b = true -> ltb y b = false -> ltb x y = true.
Proof.
  intros Hy Hxb Hyb.
  destruct x as [x| | |], b as [b| | |], y as [y| | |];
    try discriminate; try reflexivity.
  apply ltb_Fin in Hxb. apply ltb_Fin_false in Hyb. apply ltb_Fin. lra.
Qed.

Lemma ltb_asym (x y : float) : ltb x y = true -> ltb y x = false.
Proof.
  destruct x as [x| | |], y as [y| | |]; try discriminate; try reflexivity.
  intros H. apply ltb_Fin in H. apply ltb_Fin_false. lra.
Qed.

(** ** [argmin] finds the first smallest entry *)

Lemma argmin_from_first_minimum (l : list float) :
  forall (pre : list float) (best_i : nat) (best : float),
    pre <> [] ->
    Forall (fun y => is_nan y = false) (pre ++ l) ->
    is_first_minimum pre best_i best ->
    exists v,
      is_first_minimum (pre ++ l)
        (argmin_from best_i best (List.length pre) l) v.
Proof.
  induction l as [|x l IH]; intros pre best_i best Hne Hnan Hmin.
  - simpl. rewrite app_nil_r. now exists best.
  - simpl.
    replace (pre ++ x :: l) with ((pre ++ [x]) ++ l) in *
      by (rewrite <- app_assoc; reflexivity).
    replace (S (List.length pre)) with (List.length (pre ++ [x]))
      by (rewrite length_app; simpl; lia).
    assert (Hne' : pre ++ [x] <> []) by (destruct pre; discriminate).
    destruct Hmin as (Hnth & Hle & Hlt).
    assert (Hbi : (best_i < List.length pre)%nat)
      by (apply nth_error_Some; congruence).
    assert (Hprenan : forall y, In y pre -> is_nan y = false).
    { intros y Hy. rewrite Forall_forall in Hnan. apply Hnan.
      apply in_or_app. left. apply in_or_app. now left. }
    destruct (ltb x best) eqn:E.
    + apply IH; [exact Hne' | exact Hnan |]. repeat split.
      * rewrite nth_error_app2 by lia. rewrite Nat.sub_diag. reflexivity.
      * intros y Hy. apply in_app_or in Hy. destruct Hy as [Hy|[<-|[]]].
        -- apply ltb_asym.
           apply (ltb_le_trans x best y (Hprenan y Hy) E (Hle y Hy)).
        -- apply ltb_irrefl.
      * intros j y Hj Hy. rewrite nth_error_app1 in Hy by exact Hj.
        assert (Hin : In y pre) by (eapply nth_error_In; eauto).
        apply (ltb_le_trans x best y (Hprenan y Hin) E (Hle y Hin)).
    + apply IH; [exact Hne' | exact Hnan |]. repeat split.
      * rewrite nth_error_app1 by exact Hbi. exact Hnth.
      * intros y Hy. apply in_app_or in Hy. destruct Hy as [Hy|[<-|[]]].
        -- now apply Hle.
        -- exact E.
      * intros j y Hj Hy. rewrite nth_error_app1 in Hy by lia.
        now apply (Hlt j).
Qed.

Lemma argmin_first_minimum (l : list float) :
  l <> [] ->
  Forall (fun y => is_nan y = false) l ->
  exists k v, argmin l = Ok k /\ is_first_minimum l k v.
Proof.
  intros Hne Hnan. destruct l as [|x l]; [contradiction|].
  simpl. destruct (argmin_from_first_minimum l [x] 0 x) as [v Hv].
  - discriminate.
  - exact Hnan.
  - repeat split.
    + intros y [<-|[]]. apply ltb_irrefl.
    + intros j y Hj. lia.
  - exists (argmin_from 0 x 1 l), v. split; [reflexivity | exact Hv].
Qed.

(** ** [nanargmin] *)

Lemma replace_nan_not_nan (a : float) : is_nan (replace_nan a) = false.
Proof. destruct a; reflexivity. Qed.

Lemma replace_nan_id (a : float) : is_nan a = false -> replace_nan a = a.
Proof. destruct a; simpl; intros H; try reflexivity; discriminate H. Qed.

(** With an entry below +infinity in the array, [nanargmin] returns the
    position of the first smallest entry among those that are not NaN. *)
Lemma nanargmin_first_minimum (l : list float) :
  (exists x, In x l /\ ltb x PInf = true) ->
  exists k v,
    nanargmin l = Ok k /\
    nth_error l k = Some v /\
    is_nan v = false /\
    (forall y, In y l -> is_nan y = false -> ltb y v = false) /\
    (forall j y, (j < k)%nat -> nth_error l j = Some y ->
                 is_nan y = true \/ ltb v y = true).
Proof.
  intros (x & Hx & Hxinf).
  assert (Hxnan : is_nan x = false) by (destruct x; simpl in *; congruence).
  destruct (argmin_first_minimum (map replace_nan l))
    as (k & v' & Hk & Hnth & Hle & Hlt).
  { destruct l; [contradiction | discriminate]. }
  { apply Forall_forall. intros y Hy. apply in_map_iff in Hy.
    destruct Hy as [z [<- _]]. apply replace_nan_not_nan. }
  rewrite nth_error_map in Hnth.
  destruct (nth_error l k) as [v|] eqn:Ev; [|discriminate].
  simpl in Hnth. injection Hnth as <-.
  assert (Hv : is_nan v = false).
  { destruct v; try reflexivity. exfalso.
    specialize (Hle (replace_nan x) (in_map replace_nan l x Hx)).
    rewrite (replace_nan_id x Hxnan) in Hle.
    change (replace_nan NaN) with PInf in Hle. congruence. }
  rewrite (replace_nan_id v Hv) in *.
  exists k, v. repeat split; auto.
  - unfold nanargmin. rewrite Hk. cbn [bind].
    destruct (forallb is_nan l) eqn:E; [|reflexivity].
    rewrite forallb_forall in E. specialize (E x Hx). congruence.
  - intros y Hy Hynan. rewrite <- (replace_nan_id y Hynan).
    apply Hle. now apply in_map.
  - intros j y Hj Hy. destruct (is_nan y) eqn:Ey; [now left | right].
    rewrite <- (replace_nan_id y Ey). apply (Hlt j); [exact Hj|].
    rewrite nth_error_map, Hy. reflexivity.
Qed.

(** ** Flat and multi-dimensional indices of a rectangular array *)

Lemma flat_map_uniform_length {A B} (f : A -> list B) (m : nat) (rows : list A) :
  (forall r, In r rows -> List.length (f r) = m) ->
  List.length (flat_map f rows) = (List.length rows * m)%nat.
Proof.
  induction rows as [|r rows IH]; intros H; simpl; [reflexivity|].
  rewrite length_app, (H r (or_introl eq_refl)), IH; [reflexivity|].
  intros r' Hr'. apply H. now right.
Qed.

Lemma nth_error_flat_map_uniform {A B} (f : A -> list B) (m : nat)
    (rows : list A) :
  (forall r, In r rows -> List.length (f r) = m) ->
  forall k v,
    nth_error (flat_map f rows) k = Some v ->
    exists r, nth_error rows (k / m) = Some r /\
              nth_error (f r) (k mod m) = Some v.
Proof.
  intros Hm. destruct (Nat.eq_dec m 0) as [->|Hm0].
  { intros k v Hk. exfalso.
    assert (Hlen : List.length (flat_map f rows) = 0%nat)
      by (rewrite (flat_map_uniform_length f 0 rows Hm); lia).
    destruct (flat_map f rows); [destruct k; discriminate | discriminate]. }
  induction rows as [|r rows IH]; intros k v Hk; simpl in *.
  - destruct k; discriminate.
  - assert (Hr : List.length (f r) = m) by (apply Hm; now left).
    destruct (Nat.lt_ge_cases k m) as [Hlt|Hge].
    + rewrite nth_error_app1 in Hk by lia.
      exists r. rewrite Nat.div_small, Nat.mod_small by exact Hlt.
      split; [reflexivity | exact Hk].
    + rewrite nth_error_app2 in Hk by lia. rewrite Hr in Hk.
      destruct (IH (fun r' Hr' => Hm r' (or_intror Hr')) (k - m)%nat v Hk)
        as [r' [Hr1 Hr2]].
      exists r'.
      replace k with ((k - m) + 1 * m)%nat at 1 2 by lia.
      rewrite Nat.div_add by exact Hm0.
      rewrite Nat.Div0.mod_add.
      rewrite Nat.add_1_r. simpl. split; [exact Hr1 | exact Hr2].
Qed.

Lemma has_shape_node {A} (rows : list (nd A)) (n : nat) (s : list nat) :
  has_shape (Node rows) (n :: s) = true <->
  List.length rows = n /\ forall r, In r rows -> has_shape r s = true.
Proof.
  simpl. rewrite andb_true_iff, Nat.eqb_eq, forallb_forall. tauto.
Qed.

Lemma has_shape_flatten_length {A} (s : list nat) :
  forall t : nd A, has_shape t s = true -> List.length (flatten t) = size s.
Proof.
  induction s as [|n s IH]; intros [a|rows] H; try discriminate.
  - reflexivity.
  - apply has_shape_node in H. destruct H as [Hn Hrows]. simpl.
    rewrite (flat_map_uniform_length flatten (size s)), Hn; [reflexivity|].
    intros r Hr. apply IH. now apply Hrows.
Qed.

(** A non-empty rectangular array has the shape NumPy reports. *)
Lemma has_shape_shape {A} (s : list nat) :
  forall t : nd A,
    has_shape t s = true -> flatten t <> [] -> shape t = s.
Proof.
  induction s as [|n s IH]; intros [a|rows] H Hne; try discriminate.
  - reflexivity.
  - pose proof (has_shape_flatten_length _ _ H) as Hlen.
    apply has_shape_node in H. destruct H as [Hn Hrows]. simpl.
    rewrite Hn. f_equal.
    destruct rows as [|r rows]; [now contradiction Hne|].
    apply IH; [apply Hrows; now left|].
    intros Hr. apply Hne.
    assert (H0 : size s = 0%nat).
    { rewrite <- (has_shape_flatten_length s r) by (apply Hrows; now left).
      now rewrite Hr. }
    simpl in Hlen. rewrite H0, Nat.mul_0_r in Hlen.
    simpl. now apply length_zero_iff_nil.
Qed.

(** [a[np.unravel_index(k, a.shape)]] is the [k]-th entry of [a.ravel()]. *)
Lemma item_at_unravel_index {A} (s : list nat) :
  forall (t : nd A) (k : nat) (v : A),
    has_shape t s = true ->
    nth_error (flatten t) k = Some v ->
    item_at (unravel_index k s) t = Ok v.
Proof.
  induction s as [|n s IH]; intros [a|rows] k v H Hk; try discriminate.
  - simpl in *. destruct k as [|k]; [now injection Hk as -> |].
    destruct k; discriminate.
  - apply has_shape_node in H. destruct H as [Hn Hrows].
    cbn [flatten] in Hk.
    destruct (nth_error_flat_map_uniform flatten (size s) rows
                (fun r Hr => has_shape_flatten_length s r (Hrows r Hr))
                k v Hk) as [r [Hr1 Hr2]].
    cbn [unravel_index item_at]. fold (size s). rewrite Hr1.
    apply IH; [|exact Hr2]. apply Hrows. eapply nth_error_In; eauto.
Qed.

Lemma unravel_index_length (s : list nat) :
  forall k, List.length (unravel_index k s) = List.length s.
Proof.
  induction s as [|n s IH]; intros k; simpl; [reflexivity|].
  now rewrite IH.
Qed.

Lemma has_shape_nd_map {A B} (f : A -> B) (s : list nat) :
  forall t : nd A, has_shape t s = true -> has_shape (nd_map f t) s = true.
Proof.
  induction s as [|n s IH]; intros [a|rows] H; try discriminate.
  - reflexivity.
  - apply has_shape_node in H. destruct H as [Hn Hrows].
    cbn [nd_map]. apply has_shape_node. split.
    + now rewrite length_map.
    + intros r Hr. apply in_map_iff in Hr. destruct Hr as [r0 [<- Hr0]].
      apply IH. now apply Hrows.
Qed.

Lemma flatten_nd_map {A B} (f : A -> B) (t : nd A) :
  flatten (nd_map f t) = map f (flatten t).
Proof.
  induction t as [a|rows IH] using nd_induction; simpl; [reflexivity|].
  induction rows as [|r rows IHr]; simpl; [reflexivity|].
  inversion IH as [|? ? Hr Hrows]; subst.
  rewrite map_app, Hr, IHr; [reflexivity | exact Hrows].
Qed.

(** ** The grid is rectangular *)

Lemma slice_length_indep {A B} (l : list A) (l' : list B) (a b : Z) :
  List.length l = List.length l' ->
  List.length (slice l a b) = List.length (slice l' a b).
Proof.
  intros H. unfold slice.
  now rewrite !length_firstn, !length_skipn, H.
Qed.

Lemma slice_In {A} (l : list A) (a b : Z) (x : A) :
  In x (slice l a b) -> In x l.
Proof.
  unfold slice. intros H.
  set (i := Z.to_nat (clip (Z.of_nat (List.length l)) a)) in *.
  set (n := Z.to_nat _) in H.
  rewrite <- (firstn_skipn i l). apply in_or_app. right.
  rewrite <- (firstn_skipn n (skipn i l)). apply in_or_app. now left.
Qed.

Lemma mapM_ok {A B} (f : A -> result B) (l : list A) :
  forall bs,
    mapM f l = Ok bs ->
    List.length bs = List.length l /\
    forall b, In b bs -> exists a, In a l /\ f a = Ok b.
Proof.
  induction l as [|a l IH]; simpl; intros bs H.
  - injection H as <-. split; [reflexivity | intros b []].
  - destruct (f a) as [b0|] eqn:Ea; [|discriminate].
    destruct (mapM f l) as [bs0|]; [|discriminate].
    injection H as <-. destruct (IH bs0 eq_refl) as [Hlen Hin].
    split; [simpl; now rewrite Hlen|].
    intros b [<-|Hb].
    + exists a. split; [now left | exact Ea].
    + destruct (Hin b Hb) as [a' [Ha' Hf]]. exists a'. split; [now right | exact Hf].
Qed.

Lemma sliced_shape_length (sel : list index) :
  forall s,
    Forall is_slice sel -> List.length sel = List.length s ->
    List.length (sliced_shape sel s) = List.length sel.
Proof.
  induction sel as [|ix sel IH]; intros [|n s] Hsl Hlen;
    try discriminate; [reflexivity|].
  inversion Hsl as [|? ? Hix Hrest]; subst.
  destruct ix as [i|a b]; [contradiction|].
  simpl. f_equal. apply IH; [exact Hrest | now injection Hlen].
Qed.

Lemma getitem_slices_shape {A} (ch : channel_index) (sel : list index) :
  forall (s : list nat) (d q : nd (list A)),
    Forall is_slice sel ->
    List.length sel = List.length s ->
    has_shape d s = true ->
    getitem sel ch d = Ok q ->
    has_shape q (sliced_shape sel s) = true.
Proof.
  induction sel as [|ix sel IH]; intros [|n s] d q Hsl Hlen Hd Hq;
    try discriminate.
  - destruct d as [v|rows]; [|discriminate].
    simpl in Hq. destruct (channel_select ch v); [|discriminate].
    simpl in Hq. now injection Hq as <-.
  - inversion Hsl as [|? ? Hix Hrest]; subst.
    destruct ix as [i|a b]; [contradiction|].
    destruct d as [v|rows]; [discriminate|].
    apply has_shape_node in Hd. destruct Hd as [Hn Hrows].
    cbn [getitem] in Hq.
    destruct (mapM (getitem sel ch) (slice rows a b)) as [rs|] eqn:Ers;
      [|discriminate].
    simpl in Hq. injection Hq as <-.
    destruct (mapM_ok _ _ _ Ers) as [Hlen_rs Hin_rs].
    cbn [sliced_shape]. apply has_shape_node. split.
    + rewrite Hlen_rs. apply slice_length_indep.
      now rewrite repeat_length.
    + intros r' Hr'. destruct (Hin_rs r' Hr') as [r [Hr Hget]].
      apply (IH s r r'); auto.
      apply Hrows. eapply slice_In; eauto.
Qed.

Lemma grid_selection_slices (self : PatternFitter) (grid_size : Q)
    (items : list (nat * Q)) :
  forall sel lows,
    grid_selection self grid_size items = Ok (sel, lows) ->
    Forall is_slice sel /\
    List.length sel = List.length items /\
    List.length lows = List.length items.
Proof.
  induction items as [|[d x] items IH]; intros sel lows H.
  - simpl in H. injection H as <- <-. repeat split. constructor.
  - cbn [grid_selection] in H.
    destruct (axis self d) as [cd|]; [|discriminate]. cbn [bind] in H.
    destruct (negb (in_range cd x)); [discriminate|].
    destruct (_get_bin_index self _ d) as [start|]; [|discriminate].
    cbn [bind] in H.
    destruct (_get_bin_index self _ d) as [stop|]; [|discriminate].
    cbn [bind] in H.
    destruct (grid_selection self grid_size items) as [[sel0 lows0]|];
      [|discriminate].
    cbn [bind] in H. injection H as <- <-.
    destruct (IH sel0 lows0 eq_refl) as (Hs & Hl1 & Hl2).
    repeat split; simpl; try congruence.
    constructor; [exact I | exact Hs].
Qed.

Lemma enumerate_from_length {A} (l : list A) :
  forall k, List.length (enumerate_from k l) = List.length l.
Proof.
  induction l as [|x l IH]; intros k; simpl; [reflexivity|]. now rewrite IH.
Qed.

Lemma enumerate_from_In {A} (l : list A) :
  forall k d x, In (d, x) (enumerate_from k l) ->
                (k <= d < k + List.length l)%nat.
Proof.
  induction l as [|y l IH]; intros k d x H; simpl in *; [contradiction|].
  destruct H as [H|H].
  - injection H as <- <-. lia.
  - apply IH in H. lia.
Qed.

Lemma item_of_nat {A} (l : list A) (d : nat) (default : A) :
  (d < List.length l)%nat -> item l (Z.of_nat d) = Ok (nth d l default).
Proof.
  intros H. unfold item.
  destruct (Z.ltb_spec (Z.of_nat d) 0) as [Hneg|_]; [lia|].
  destruct (Z.leb_spec 0 (Z.of_nat d)) as [_|Hneg]; [|lia].
  destruct (Z.ltb_spec (Z.of_nat d) (Z.of_nat (List.length l))) as [_|Hge];
    [|lia].
  simpl. rewrite Nat2Z.id. now rewrite (nth_error_nth' l default H).
Qed.

(** The positions returned for a multi-index: the bin centers of the
    recorded lowest bins plus the index, axis by axis. *)
Lemma index_to_position_centers (self : PatternFitter) (lows : list Z)
    (min_index : list (nat * nat)) :
  (forall d i, In (d, i) min_index ->
               (d < List.length lows)%nat /\
               (d < List.length (coordinate_data self))%nat) ->
  exists pos,
    index_to_position self lows min_index = Ok pos /\
    mapM (fun '(d, i) =>
            _get_bin_center self (nth d lows 0%Z + Z.of_nat i) d)
         min_index = Ok pos.
Proof.
  induction min_index as [|[d i] rest IH]; intros H.
  - exists []. split; reflexivity.
  - destruct (H d i (or_introl eq_refl)) as [Hd1 Hd2].
    destruct (IH (fun d' i' Hin => H d' i' (or_intror Hin)))
      as [pos [Hpos Hmap]].
    destruct (nth_error (coordinate_data self) d) as [cd|] eqn:Ecd.
    2:{ apply nth_error_None in Ecd. lia. }
    assert (Hc : forall b, _get_bin_center self b d
                           = Ok (minimum cd + bin_spacing cd
                                              * (inject_Z b + (1 # 2)))).
    { intros b. unfold _get_bin_center, axis. now rewrite Ecd. }
    eexists. cbn [index_to_position mapM].
    rewrite (item_of_nat lows d 0%Z Hd1). cbn [bind].
    rewrite Hc, Hpos, Hmap. cbn [bind]. split; reflexivity.
Qed.

Lemma nd_mapM_shape {A B} (f : A -> result B) (s : list nat) :
  forall (t : nd A) (res : nd B),
    has_shape t s = true -> nd_mapM f t = Ok res -> has_shape res s = true.
Proof.
  induction s as [|n s IH]; intros [a|rows] res Ht Hres; try discriminate.
  - simpl in Hres. destruct (f a); [|discriminate].
    simpl in Hres. now injection Hres as <-.
  - apply has_shape_node in Ht. destruct Ht as [Hn Hrows].
    cbn [nd_mapM] in Hres.
    destruct (mapM (nd_mapM f) rows) as [rs|] eqn:Ers; [|discriminate].
    simpl in Hres. injection Hres as <-.
    destruct (mapM_ok _ _ _ Ers) as [Hlen Hin].
    apply has_shape_node. split; [congruence|].
    intros r' Hr'. destruct (Hin r' Hr') as [r [Hr Hget]].
    apply (IH r r'); [now apply Hrows | exact Hget].
Qed.

(** ** [minimize_gof_grid] *)

(** C5, as stated, fails when the entries that are not NaN are all
    +infinity and a NaN comes first: [nanargmin] then selects the NaN.  Two
    bins, the first dead (NaN), the second with a vanishing denominator
    (observed amplitude -1, so the contribution is 1/0 = +inf): the minimum
    over the entries that are not NaN is +inf, at the second bin, but the
    minimiser returns NaN and the center of the first bin. *)
Lemma grid_minimum_nan_counterexample :
  compute_gof_grid pf_example [1] 2 [-(1)] None None "chi2gamma"
  = Ok (Node [Leaf NaN; Leaf PInf], [0%Z])
  /\ ~ (exists pos v,
           minimize_gof_grid pf_example [1] 2 [-(1)] None None "chi2gamma"
           = Ok (pos, v) /\
           is_nan v = false).
Proof.
  split; [vm_compute; reflexivity|].
  intros (pos & v & H & Hv). vm_compute in H.
  injection H as <- <-. discriminate Hv.
Qed.

(** C5, amended.  Let [gofs] be the grid that [compute_gof_grid] produces
    for a rectangular map with one axis per coordinate, and let some entry
    of it be neither NaN nor +infinity.  Then [minimize_gof_grid] returns;
    the returned value is the entry at flat (row-major) position [k], which
    is not NaN, is not above any entry that is not NaN, and is strictly
    below every such entry before position [k]; the returned coordinates are
    the bin centers of (lowest bin + index of the minimum) on every axis. *)
Theorem minimize_gof_grid_first_minimum (self : PatternFitter)
    (center : list Q) (grid_size : Q) (ao : list Q)
    (pmt : option (list bool)) (sse : option (list Q)) (statistic : string)
    (map_shape : list nat) (gofs : nd float) (lowest_bins : list Z) :
  has_shape (data self) map_shape = true ->
  List.length map_shape = List.length center ->
  List.length center = List.length (coordinate_data self) ->
  compute_gof_grid self center grid_size ao pmt sse statistic
  = Ok (gofs, lowest_bins) ->
  (exists x, In x (flatten gofs) /\ ltb x PInf = true) ->
  exists k v pos,
    minimize_gof_grid self center grid_size ao pmt sse statistic
    = Ok (pos, v) /\
    nth_error (flatten gofs) k = Some v /\
    item_at (unravel_index k (shape gofs)) gofs = Ok v /\
    is_nan v = false /\
    (forall y, In y (flatten gofs) -> is_nan y = false -> ltb y v = false) /\
    (forall j y, (j < k)%nat -> nth_error (flatten gofs) j = Some y ->
                 is_nan y = true \/ ltb v y = true) /\
    mapM (fun '(d, i) =>
            _get_bin_center self (nth d lowest_bins 0%Z + Z.of_nat i) d)
         (enumerate (unravel_index k (shape gofs))) = Ok pos.
Proof.
  intros Hshape Hdims Haxes Hgrid Hfinite.
  (* the grid is rectangular, one axis per coordinate *)
  assert (Hrect : exists s, has_shape gofs s = true /\
                            List.length s = List.length center /\
                            List.length lowest_bins = List.length center).
  { unfold compute_gof_grid in Hgrid.
    destruct (grid_selection self grid_size (enumerate center))
      as [[sel lows]|] eqn:Esel; [|discriminate].
    cbn [bind] in Hgrid.
    destruct (grid_selection_slices _ _ _ _ _ Esel) as (Hsl & Hl1 & Hl2).
    unfold enumerate in Hl1, Hl2. rewrite enumerate_from_length in Hl1, Hl2.
    unfold _compute_gof_base in Hgrid.
    destruct (gof_contributions self sel ao pmt sse statistic)
      as [res|] eqn:Eres; [|discriminate].
    cbn [bind] in Hgrid. injection Hgrid as <- <-.
    exists (sliced_shape sel map_shape). split; [|split].
    - apply has_shape_nd_map.
      unfold gof_contributions in Eres.
      destruct (errors_or_default self ao sse) as [s0|]; [|discriminate].
      cbn [bind] in Eres.
      destruct (boolean_index _ ao) as [aom|]; [|discriminate].
      cbn [bind] in Eres.
      destruct (getitem sel _ (data self)) as [q|] eqn:Eq; [|discriminate].
      cbn [bind] in Eres.
      assert (Hq : has_shape q (sliced_shape sel map_shape) = true).
      { apply (getitem_slices_shape (Mask (selection_or_default self pmt))
                 sel map_shape (data self) q); auto; congruence. }
      rewrite evaluate_fractions_total in Eres. cbn [bind] in Eres.
      destruct (boolean_index _ s0) as [sm|]; [|discriminate].
      cbn [bind] in Eres.
      destruct (gof_formula statistic) as [ex|]; [|discriminate].
      cbn [bind] in Eres. unfold evaluate_gof in Eres.
      destruct (Numexpr.compile ex) as [e|]; [|discriminate].
      cbn [bind] in Eres.
      apply (nd_mapM_shape _ _ _ _
               (has_shape_nd_map bin_fractions _ q Hq) Eres).
    - rewrite sliced_shape_length; congruence.
    - exact Hl2. }
  destruct Hrect as (s & Hs & Hslen & Hlows).
  destruct (nanargmin_first_minimum (flatten gofs) Hfinite)
    as (k & v & Hk & Hnth & Hnan & Hle & Hlt).
  assert (Hne : flatten gofs <> []).
  { destruct Hfinite as (x & Hx & _). intros E. now rewrite E in Hx. }
  rewrite (has_shape_shape s gofs Hs Hne).
  pose proof (item_at_unravel_index s gofs k v Hs Hnth) as Hitem.
  destruct (index_to_position_centers self lowest_bins
              (enumerate (unravel_index k s))) as (pos & Hpos & Hcenters).
  { intros d i Hin. apply enumerate_from_In in Hin.
    rewrite unravel_index_length in Hin. lia. }
  exists k, v, pos. repeat split; auto.
  unfold minimize_gof_grid. rewrite Hgrid. cbn [bind].
  rewrite Hk. cbn [bind].
  rewrite (has_shape_shape s gofs Hs Hne).
  rewrite Hpos. cbn [bind]. rewrite Hitem. reflexivity.
Qed.

Lemma minimize_gof_grid_first_minimum_witness :
  exists k v pos,
    minimize_gof_grid pf_example [1] 2 [4] None None "chi2gamma"
    = Ok (pos, v) /\
    nth_error (flatten (Node [Leaf NaN; Leaf (Fin (1 # 5))])) k = Some v /\
    item_at (unravel_index k (shape (Node [Leaf NaN; Leaf (Fin (1 # 5))])))
            (Node [Leaf NaN; Leaf (Fin (1 # 5))]) = Ok v /\
    is_nan v = false /\
    (forall y, In y (flatten (Node [Leaf NaN; Leaf (Fin (1 # 5))])) ->
               is_nan y = false -> ltb y v = false) /\
    (forall j y, (j < k)%nat ->
                 nth_error (flatten (Node [Leaf NaN; Leaf (Fin (1 # 5))])) j
                 = Some y ->
                 is_nan y = true \/ ltb v y = true) /\
    mapM (fun '(d, i) =>
            _get_bin_center pf_example (nth d [0%Z] 0%Z + Z.of_nat i) d)
         (enumerate (unravel_index k
                       (shape (Node [Leaf NaN; Leaf (Fin (1 # 5))]))))
    = Ok pos.
Proof.
  apply (minimize_gof_grid_first_minimum pf_example [1] 2 [4] None None
           "chi2gamma" [2%nat]).
  - reflexivity.
  - reflexivity.
  - reflexivity.
  - vm_compute. reflexivity.
  - exists (Fin (1 # 5)). split; [simpl; auto | reflexivity].
Defined.

(* ------------------------------------------------------------------ *)
(** * The degenerate grid ([grid_size = 0]) *)

Lemma flatten_nest {A} (n : nat) (t : nd A) : flatten (nest n t) = flatten t.
Proof.
  induction n as [|n IH]; simpl; [reflexivity|].
  now rewrite app_nil_r.
Qed.

Lemma shape_nest_leaf {A} (n : nat) (a : A) :
  shape (nest n (Leaf a)) = repeat 1%nat n.
Proof.
  induction n as [|n IH]; simpl; [reflexivity|]. now rewrite IH.
Qed.

Lemma nd_map_nest {A B} (f : A -> B) (n : nat) (t : nd A) :
  nd_map f (nest n t) = nest n (nd_map f t).
Proof.
  induction n as [|n IH]; simpl; [reflexivity|]. now rewrite IH.
Qed.

Lemma nd_mapM_nest {A B} (f : A -> result B) (n : nat) (t : nd A) (res : nd B) :
  nd_mapM f t = Ok res -> nd_mapM f (nest n t) = Ok (nest n res).
Proof.
  intros H. induction n as [|n IH]; simpl; [exact H|]. now rewrite IH.
Qed.

Lemma in_range_Qeq (cd : CoordinateData) (x y : Q) :
  x == y -> in_range cd x = in_range cd y.
Proof.
  intros H. unfold in_range. now rewrite H.
Qed.

Lemma py_int_Qeq (x y : Q) : x == y -> py_int x = py_int y.
Proof.
  intros H. unfold py_int. rewrite H.
  now rewrite (Qfloor_comp _ _ H), (Qceiling_comp _ _ H).
Qed.

Lemma get_bin_index_Qeq (self : PatternFitter) (d : nat) (x y : Q) :
  x == y -> _get_bin_index self x d = _get_bin_index self y d.
Proof.
  intros H. unfold _get_bin_index.
  destruct (axis self d) as [cd|]; cbn [bind]; [|reflexivity].
  rewrite (in_range_Qeq cd x y H).
  rewrite (py_int_Qeq ((x - minimum cd) / bin_spacing cd)
                      ((y - minimum cd) / bin_spacing cd));
    [reflexivity | now rewrite H].
Qed.

Lemma get_bin_index_ok (self : PatternFitter) (d : nat) (x : Q) (i : Z) :
  _get_bin_index self x d = Ok i ->
  exists cd, axis self d = Ok cd /\ in_range cd x = true.
Proof.
  unfold _get_bin_index. destruct (axis self d) as [cd|]; [|discriminate].
  cbn [bind]. destruct (in_range cd x) eqn:E; cbn [negb]; [|discriminate].
  intros _. exists cd. split; [reflexivity | exact E].
Qed.

(** With a window of size zero both edges are the center itself. *)
Lemma grid_selection_zero (self : PatternFitter) (center : list Q) :
  forall k idx,
    mapM (fun '(d, x) => _get_bin_index self x d) (enumerate_from k center)
    = Ok idx ->
    grid_selection self 0 (enumerate_from k center)
    = Ok (map (fun i => Slice i (i + 1)) idx, idx).
Proof.
  induction center as [|x center IH]; intros k idx H.
  - simpl in H. injection H as <-. reflexivity.
  - cbn [enumerate_from mapM] in H.
    destruct (_get_bin_index self x k) as [i|] eqn:Ei; [|discriminate].
    destruct (mapM _ (enumerate_from (S k) center)) as [idx'|] eqn:Eidx;
      [|discriminate].
    injection H as <-.
    destruct (get_bin_index_ok _ _ _ _ Ei) as [cd [Hcd Hin]].
    cbn [enumerate_from grid_selection]. rewrite Hcd. cbn [bind].
    rewrite Hin. cbn [negb].
    pose proof Hin as Hr. apply in_range_iff in Hr. destruct Hr as [Hlo Hhi].
    assert (Hxl : x - 0 / 2 == x) by (unfold Qdiv; ring).
    assert (Hxh : x + 0 / 2 == x) by (unfold Qdiv; ring).
    assert (Hlow : py_max (x - 0 / 2) (minimum cd) == x).
    { unfold py_max.
      assert (E : Qle_bool (minimum cd) (x - 0 / 2) = true)
        by (rewrite Hxl; now apply Qle_bool_iff).
      now rewrite E. }
    assert (Hhigh : py_min (x + 0 / 2) (maximum cd) == x).
    { unfold py_min.
      assert (E : Qle_bool (x + 0 / 2) (maximum cd) = true)
        by (rewrite Hxh; now apply Qle_bool_iff).
      now rewrite E. }
    rewrite (get_bin_index_Qeq self k _ _ Hlow).
    rewrite (get_bin_index_Qeq self k _ _ Hhigh).
    rewrite Ei. cbn [bind]. rewrite (IH (S k) idx' Eidx). reflexivity.
Qed.

Lemma firstn_one_skipn {A} (l : list A) :
  forall k r, nth_error l k = Some r -> firstn 1 (skipn k l) = [r].
Proof.
  induction l as [|a l IH]; intros [|k] r H; simpl in *; try discriminate.
  - now injection H as ->.
  - now apply IH.
Qed.

Lemma slice_singleton {A} (rows : list A) (i : Z) (r : A) :
  (0 <= i)%Z -> item rows i = Ok r -> slice rows i (i + 1) = [r].
Proof.
  intros Hi H. unfold item in H.
  destruct (Z.ltb_spec i 0) as [Hneg|_]; [lia|].
  destruct (Z.leb_spec 0 i) as [_|Hneg]; [|lia].
  destruct (Z.ltb_spec i (Z.of_nat (List.length rows))) as [Hlt|_];
    [|discriminate].
  simpl in H.
  destruct (nth_error rows (Z.to_nat i)) as [r'|] eqn:E; [|discriminate].
  injection H as ->.
  unfold slice, clip.
  destruct (Z.ltb_spec i 0) as [Hneg|_]; [lia|].
  destruct (Z.ltb_spec (i + 1) 0) as [Hneg|_]; [lia|].
  rewrite (Z.min_l i) by lia. rewrite (Z.min_l (i + 1)) by lia.
  replace (i + 1 - i)%Z with 1%Z by lia.
  now apply firstn_one_skipn.
Qed.

Lemma getitem_unit_slices {A} (ch : channel_index) (idx : list Z) :
  forall (d q : nd (list A)),
    Forall (fun i => (0 <= i)%Z) idx ->
    getitem (map Int idx) ch d = Ok q ->
    getitem (map (fun i => Slice i (i + 1)) idx) ch d
    = Ok (nest (List.length idx) q).
Proof.
  induction idx as [|i idx IH]; intros d q Hpos H.
  - exact H.
  - inversion Hpos as [|? ? Hi Hrest]; subst.
    cbn [map getitem] in *.
    destruct d as [v|rows]; [discriminate|].
    destruct (item rows i) as [r|] eqn:Er; [|discriminate].
    cbn [bind] in H.
    rewrite (slice_singleton rows i r Hi Er). cbn [mapM].
    rewrite (IH r q Hrest H). reflexivity.
Qed.

Lemma get_bin_indices_nonneg (self : PatternFitter) (c : list Q) :
  Forall wf_axis (coordinate_data self) ->
  forall k idx,
    mapM (fun '(d, x) => _get_bin_index self x d) (enumerate_from k c) = Ok idx ->
    Forall (fun i => (0 <= i)%Z) idx.
Proof.
  intros Hwf. induction c as [|x c IH]; intros k idx H.
  - simpl in H. injection H as <-. constructor.
  - cbn [enumerate_from mapM] in H.
    destruct (_get_bin_index self x k) as [i|] eqn:Ei; [|discriminate].
    destruct (mapM _ (enumerate_from (S k) c)) as [idx'|] eqn:Eidx;
      [|discriminate].
    injection H as <-. constructor; [|now apply (IH (S k))].
    destruct (get_bin_index_ok _ _ _ _ Ei) as [cd [Hcd Hin]].
    assert (Hcdwf : wf_axis cd).
    { rewrite Forall_forall in Hwf. apply Hwf. unfold axis in Hcd.
      destruct (nth_error (coordinate_data self) k) eqn:E; [|discriminate].
      injection Hcd as ->. eapply nth_error_In; eauto. }
    rewrite (bin_index_in_range self k cd Hcd Hcdwf x Hin) in Ei.
    injection Ei as <-.
    apply in_range_iff in Hin. destruct Hin as [Hlo _].
    pose proof (Qfloor_resp_le _ _ (offset_nonneg cd Hcdwf x Hlo)) as H0.
    change (Qfloor 0) with 0%Z in H0. exact H0.
Qed.

(** Where [compute_gof] returns a value at the center, the grid of size zero
    is that value in a 1 x ... x 1 array. *)
Lemma degenerate_grid_where_compute_gof_returns (self : PatternFitter)
    (center : list Q) (ao : list Q) (pmt : option (list bool))
    (sse : option (list Q)) (statistic : string) (v : float) :
  Forall wf_axis (coordinate_data self) ->
  compute_gof self center ao pmt sse statistic = Ok (Leaf v) ->
  exists lows,
    compute_gof_grid self center 0 ao pmt sse statistic
    = Ok (nest (List.length center) (Leaf v), lows) /\
    get_bin_indices self center = Ok lows /\
    shape (nest (List.length center) (Leaf v))
    = repeat 1%nat (List.length center) /\
    flatten (nest (List.length center) (Leaf v)) = [v].
Proof.
  intros Hwf H. unfold compute_gof in H.
  destruct (get_bin_indices self center) as [idx|] eqn:Eidx; [|discriminate].
  cbn [bind] in H. exists idx.
  split; [|split; [reflexivity | split;
                   [apply shape_nest_leaf | now rewrite flatten_nest]]].
  unfold compute_gof_grid, enumerate.
  rewrite (grid_selection_zero self center 0 idx Eidx). cbn [bind].
  assert (Hlen : List.length idx = List.length center).
  { destruct (mapM_ok _ _ _ Eidx) as [Hl _].
    unfold enumerate in Hl. now rewrite enumerate_from_length in Hl. }
  pose proof (get_bin_indices_nonneg self center Hwf 0 idx Eidx) as Hpos.
  unfold _compute_gof_base, gof_contributions in *.
  destruct (errors_or_default self ao sse) as [s0|]; [|discriminate].
  cbn [bind] in *.
  destruct (boolean_index _ ao) as [aom|]; [|discriminate].
  cbn [bind] in *.
  destruct (getitem (map Int idx) _ (data self)) as [q|] eqn:Eq;
    [|discriminate].
  rewrite (getitem_unit_slices _ idx (data self) q Hpos Eq).
  cbn [bind] in *.
  rewrite evaluate_fractions_total in *. cbn [bind] in *.
  destruct (boolean_index _ s0) as [sm|]; [|discriminate].
  cbn [bind] in *.
  destruct (gof_formula statistic) as [ex|]; [|discriminate].
  cbn [bind] in *. unfold evaluate_gof in *.
  destruct (Numexpr.compile ex) as [e|]; [|discriminate].
  cbn [bind] in *.
  destruct (nd_mapM _ (nd_map bin_fractions q)) as [res|] eqn:Eres;
    [|discriminate].
  cbn [bind] in H. injection H as H.
  rewrite nd_map_nest.
  rewrite (nd_mapM_nest _ (List.length idx) _ res Eres). cbn [bind].
  rewrite nd_map_nest, H, Hlen. reflexivity.
Qed.

(** C7 (upper edge).  On the axis [-10, 10] with 20 bins, at the center
    [maximum = 10], which is in range: the grid of size zero has no entry at
    all, and [compute_gof] at the same coordinate raises [IndexError], both
    because the bin index found for the upper edge is 20, one past the last
    bin.  One bin lower, at 19/2, the grid is the single value of
    [compute_gof]. *)
Theorem degenerate_grid_at_upper_edge :
  in_range {| minimum := -(10); maximum := 10; n_bins := 20; bin_spacing := 1 |}
           10 = true
  /\ compute_gof_grid pf_axis20 [10] 0 [1; 1] None None "chi2gamma"
     = Ok (Node [], [20%Z])
  /\ flatten (@Node float []) = []
  /\ compute_gof pf_axis20 [10] [1; 1] None None "chi2gamma" = Raise IndexError
  /\ (exists v,
         compute_gof pf_axis20 [19 # 2] [1; 1] None None "chi2gamma"
         = Ok (Leaf v) /\
         compute_gof_grid pf_axis20 [19 # 2] 0 [1; 1] None None "chi2gamma"
         = Ok (Node [Leaf v], [19%Z])).
Proof.
  split; [reflexivity|]. split; [vm_compute; reflexivity|].
  split; [reflexivity|]. split; [vm_compute; reflexivity|].
  eexists. split; vm_compute; reflexivity.
Qed.

(* ------------------------------------------------------------------ *)
(** * Further properties of the binning *)

Lemma bin_index_decided (self : PatternFitter) (dimension_i : nat)
    (cd : CoordinateData) (value : Q) :
  axis self dimension_i = Ok cd ->
  wf_axis cd ->
  _get_bin_index self value dimension_i
  = if in_range cd value
    then Ok (Qfloor ((value - minimum cd) / bin_spacing cd))
    else Raise (CoordinateOutOfRangeException NotInAllowedRange).
Proof.
  intros Haxis Hwf. destruct (in_range cd value) eqn:E.
  - exact (bin_index_in_range self dimension_i cd Haxis Hwf value E).
  - exact (bin_index_out_of_range self dimension_i cd Haxis value E).
Qed.

(** X3.  The bin index does not decrease with the value. *)
Theorem bin_index_monotone (self : PatternFitter) (dimension_i : nat)
    (cd : CoordinateData) (v1 v2 : Q) (i1 i2 : Z) :
  axis self dimension_i = Ok cd ->
  wf_axis cd ->
  v1 <= v2 ->
  _get_bin_index self v1 dimension_i = Ok i1 ->
  _get_bin_index self v2 dimension_i = Ok i2 ->
  (i1 <= i2)%Z.
Proof.
  intros Haxis Hwf Hle H1 H2.
  rewrite (bin_index_decided self dimension_i cd v1 Haxis Hwf) in H1.
  rewrite (bin_index_decided self dimension_i cd v2 Haxis Hwf) in H2.
  destruct (in_range cd v1); [|discriminate].
  destruct (in_range cd v2); [|discriminate].
  assert (E1 : i1 = Qfloor ((v1 - minimum cd) / bin_spacing cd)) by congruence.
  assert (E2 : i2 = Qfloor ((v2 - minimum cd) / bin_spacing cd)) by congruence.
  rewrite E1, E2. apply Qfloor_resp_le.
  pose proof (bin_spacing_pos cd Hwf) as Hs.
  unfold Qdiv. apply Qmult_le_compat_r; [lra|].
  apply Qlt_le_weak. now apply Qinv_lt_0_compat.
Qed.

Lemma bin_index_monotone_witness : (13 <= 19)%Z.
Proof.
  apply (bin_index_monotone pf_axis20 0%nat
           {| minimum := -(10); maximum := 10; n_bins := 20; bin_spacing := 1 |}
           (7 # 2) (19 # 2) 13%Z 19%Z).
  - reflexivity.
  - repeat split; reflexivity.
  - vm_compute. discriminate.
  - reflexivity.
  - reflexivity.
Defined.

(* ------------------------------------------------------------------ *)
(** * Further properties of the point evaluation *)

(** The list comprehension of [get_bin_indices] either finds a bin for every
    coordinate or stops at a coordinate that is out of range. *)
Lemma get_bin_indices_cases (self : PatternFitter) (c : list Q) :
  Forall wf_axis (coordinate_data self) ->
  forall k,
    (k + List.length c <= List.length (coordinate_data self))%nat ->
    (~ center_outside self k c /\
     exists idx,
       mapM (fun '(d, x) => _get_bin_index self x d) (enumerate_from k c)
       = Ok idx /\
       List.length idx = List.length c)
    \/
    (center_outside self k c /\
     mapM (fun '(d, x) => _get_bin_index self x d) (enumerate_from k c)
     = Raise (CoordinateOutOfRangeException NotInAllowedRange)).
Proof.
  intros Hwf. induction c as [|x c IH]; intros k Hk.
  - left. split.
    + intros (j & y & cd & Hj & _). destruct j; discriminate.
    + exists []. split; reflexivity.
  - simpl in Hk.
    destruct (nth_error (coordinate_data self) k) as [cd|] eqn:Ecd.
    2:{ apply nth_error_None in Ecd. lia. }
    assert (Hcd : wf_axis cd).
    { rewrite Forall_forall in Hwf. apply Hwf. eapply nth_error_In; eauto. }
    assert (Haxis : axis self k = Ok cd) by (unfold axis; now rewrite Ecd).
    cbn [enumerate_from mapM].
    rewrite (bin_index_decided self k cd x Haxis Hcd).
    destruct (in_range cd x) eqn:Ein.
    + destruct (IH (S k)) as [[Hin (idx & Hidx & Hlen)]|[Hout Hraise]]; [lia| |].
      * left. split.
        -- intros (j & y & cd' & Hj & Hcd' & Hr). destruct j as [|j].
           ++ simpl in Hj. injection Hj as <-.
              rewrite Nat.add_0_r in Hcd'. congruence.
           ++ apply Hin. exists j, y, cd'. simpl in Hj.
              rewrite Nat.add_succ_r in Hcd'. auto.
        -- rewrite Hidx. eexists. split; [reflexivity|]. simpl. congruence.
      * right. split.
        -- destruct Hout as (j & y & cd' & Hj & Hcd' & Hr).
           exists (S j), y, cd'. simpl. rewrite Nat.add_succ_r. auto.
        -- now rewrite Hraise.
    + right. split; [|reflexivity].
      exists 0%nat, x, cd. rewrite Nat.add_0_r. auto.
Qed.

Lemma get_bin_indices_raise_iff (self : PatternFitter) (c : list Q) :
  Forall wf_axis (coordinate_data self) ->
  List.length c = List.length (coordinate_data self) ->
  (exists msg,
      get_bin_indices self c = Raise (CoordinateOutOfRangeException msg))
  <->
  (exists d x cd,
      nth_error c d = Some x /\
      nth_error (coordinate_data self) d = Some cd /\
      in_range cd x = false).
Proof.
  intros Hwf Hlen.
  assert (Hk : (0 + List.length c <= List.length (coordinate_data self))%nat)
    by lia.
  pose proof (get_bin_indices_cases self c Hwf 0%nat Hk) as Hcases.
  unfold center_outside in Hcases. simpl in Hcases.
  fold (enumerate c) in Hcases.
  change (mapM (fun '(d, x) => _get_bin_index self x d) (enumerate c))
    with (get_bin_indices self c) in Hcases.
  destruct Hcases as [[Hin (idx & Hidx & Hl)]|[Hout Hraise]].
  - split; [intros [msg H]; congruence | intros Hout; contradiction].
  - split; [intros _; exact Hout | intros _; now exists NotInAllowedRange].
Qed.

(** X5.  With one coordinate per well-formed axis, [get_bin_indices]
    returns one bin index per coordinate when every coordinate is in its
    range, and raises [CoordinateOutOfRangeException] exactly when some
    coordinate is out of range. *)
Theorem get_bin_indices_iff_in_range (self : PatternFitter) (c : list Q) :
  Forall wf_axis (coordinate_data self) ->
  List.length c = List.length (coordinate_data self) ->
  ((exists idx, get_bin_indices self c = Ok idx /\
                List.length idx = List.length c)
   <->
   (forall d x cd,
       nth_error c d = Some x ->
       nth_error (coordinate_data self) d = Some cd ->
       in_range cd x = true))
  /\
  ((exists msg,
       get_bin_indices self c = Raise (CoordinateOutOfRangeException msg))
   <->
   (exists d x cd,
       nth_error c d = Some x /\
       nth_error (coordinate_data self) d = Some cd /\
       in_range cd x = false)).
Proof.
  intros Hwf Hlen.
  assert (Hk : (0 + List.length c <= List.length (coordinate_data self))%nat)
    by lia.
  pose proof (get_bin_indices_cases self c Hwf 0%nat Hk) as Hcases.
  unfold center_outside in Hcases. simpl in Hcases.
  fold (enumerate c) in Hcases.
  change (mapM (fun '(d, x) => _get_bin_index self x d) (enumerate c))
    with (get_bin_indices self c) in Hcases.
  destruct Hcases as [[Hin (idx & Hidx & Hl)]|[Hout Hraise]].
  - split; split.
    + intros _ d x cd Hd Hcd. destruct (in_range cd x) eqn:E; [reflexivity|].
      exfalso. apply Hin. now exists d, x, cd.
    + intros _. now exists idx.
    + intros [msg H]. congruence.
    + intros Hout. contradiction.
  - split; split.
    + intros (idx & Hidx & _). congruence.
    + intros Hall. destruct Hout as (d & x & cd & Hd & Hcd & Hr).
      rewrite (Hall d x cd Hd Hcd) in Hr. discriminate.
    + intros _. exact Hout.
    + intros _. now exists NotInAllowedRange.
Qed.

Lemma get_bin_indices_iff_in_range_witness :
  ((exists idx, get_bin_indices pf_axis20 [7 # 2] = Ok idx /\
                List.length idx = List.length [7 # 2])
   <->
   (forall d x cd,
       nth_error [7 # 2] d = Some x ->
       nth_error (coordinate_data pf_axis20) d = Some cd ->
       in_range cd x = true))
  /\
  ((exists msg,
       get_bin_indices pf_axis20 [7 # 2]
       = Raise (CoordinateOutOfRangeException msg))
   <->
   (exists d x cd,
       nth_error [7 # 2] d = Some x /\
       nth_error (coordinate_data pf_axis20) d = Some cd /\
       in_range cd x = false)).
Proof.
  apply (get_bin_indices_iff_in_range pf_axis20 [7 # 2]).
  - repeat constructor; reflexivity.
  - reflexivity.
Defined.

(** X6.  [compute_gof] raises [CoordinateOutOfRangeException] exactly when
    some coordinate is out of its range; the objective of
    [minimize_gof_powell] then returns +infinity, and it never raises that
    exception itself. *)
Theorem compute_gof_out_of_range_iff (self : PatternFitter) (c ao : list Q)
    (pmt : option (list bool)) (sse : option (list Q)) (statistic : string) :
  Forall wf_axis (coordinate_data self) ->
  List.length c = List.length (coordinate_data self) ->
  ((exists msg,
       compute_gof self c ao pmt sse statistic
       = Raise (CoordinateOutOfRangeException msg))
   <->
   (exists d x cd,
       nth_error c d = Some x /\
       nth_error (coordinate_data self) d = Some cd /\
       in_range cd x = false))
  /\
  ((exists d x cd,
       nth_error c d = Some x /\
       nth_error (coordinate_data self) d = Some cd /\
       in_range cd x = false) ->
   safe_compute_gof self c ao pmt sse statistic = Ok (Leaf PInf))
  /\
  (forall msg,
      safe_compute_gof self c ao pmt sse statistic
      <> Raise (CoordinateOutOfRangeException msg)).
Proof.
  intros Hwf Hlen.
  pose proof (get_bin_indices_raise_iff self c Hwf Hlen) as Hraise.
  assert (Hiff : (exists msg,
                     compute_gof self c ao pmt sse statistic
                     = Raise (CoordinateOutOfRangeException msg))
                 <->
                 (exists d x cd,
                     nth_error c d = Some x /\
                     nth_error (coordinate_data self) d = Some cd /\
                     in_range cd x = false)).
  { rewrite <- Hraise. unfold compute_gof. split.
    - intros [msg H].
      destruct (get_bin_indices self c) as [idx|e] eqn:E; cbn [bind] in H.
      + exfalso.
        apply (compute_gof_base_not_out_of_range
                 self (map Int idx) ao pmt sse statistic).
        now exists msg.
      + exists msg. now injection H as ->.
    - intros [msg H]. exists msg. now rewrite H. }
  split; [exact Hiff|]. split.
  - intros Hout. apply Hiff in Hout. destruct Hout as [msg H].
    unfold safe_compute_gof. now rewrite H.
  - intros msg H. unfold safe_compute_gof in H.
    destruct (compute_gof self c ao pmt sse statistic) as [g|e];
      [discriminate|].
    destruct e; discriminate.
Qed.

Lemma compute_gof_out_of_range_iff_witness :
  safe_compute_gof pf_axis20 [11] [1; 1] None None "chi2gamma"
  = Ok (Leaf PInf).
Proof.
  destruct (compute_gof_out_of_range_iff pf_axis20 [11] [1; 1] None None
              "chi2gamma") as (_ & Hinf & _).
  - repeat constructor; reflexivity.
  - reflexivity.
  - apply Hinf.
    exists 0%nat, 11,
      {| minimum := -(10); maximum := 10; n_bins := 20; bin_spacing := 1 |}.
    repeat split; reflexivity.
Defined.

Lemma gof_formula_ok (statistic ex : string) :
  gof_formula statistic = Ok ex ->
  (statistic = "chi2gamma"%string /\ ex = format_ae chi2gamma_template ae_text)
  \/ (statistic = "chi2"%string /\ ex = format_ae chi2_template ae_text).
Proof.
  unfold gof_formula.
  destruct (String.eqb_spec statistic "chi2gamma") as [->|_].
  - intros H. injection H as <-. now left.
  - destruct (String.eqb_spec statistic "chi2") as [->|_]; [|discriminate].
    intros H. injection H as <-. now right.
Qed.

(** X7.  ['chi2gamma'] is the only statistic for which a goodness of fit is
    ever returned, by [_compute_gof_base] and by everything built on it; for
    a statistic other than ['chi2gamma'] and ['chi2'] the error, once the
    index operations have succeeded, is [ValueError]. *)
Theorem only_chi2gamma_returns (self : PatternFitter) (ao : list Q)
    (pmt : option (list bool)) (sse : option (list Q)) (statistic : string) :
  (forall sel g,
      _compute_gof_base self sel ao pmt sse statistic = Ok g ->
      statistic = "chi2gamma"%string)
  /\ (forall c g,
         compute_gof self c ao pmt sse statistic = Ok g ->
         statistic = "chi2gamma"%string)
  /\ (forall c size r,
         compute_gof_grid self c size ao pmt sse statistic = Ok r ->
         statistic = "chi2gamma"%string)
  /\ (forall c size r,
         minimize_gof_grid self c size ao pmt sse statistic = Ok r ->
         statistic = "chi2gamma"%string)
  /\ (forall sel s0 aom q sm,
         statistic <> "chi2gamma"%string ->
         statistic <> "chi2"%string ->
         errors_or_default self ao sse = Ok s0 ->
         boolean_index (selection_or_default self pmt) ao = Ok aom ->
         getitem sel (Mask (selection_or_default self pmt)) (data self) = Ok q ->
         boolean_index (selection_or_default self pmt) s0 = Ok sm ->
         _compute_gof_base self sel ao pmt sse statistic = Raise ValueError).
Proof.
  assert (Hbase : forall sel g,
             _compute_gof_base self sel ao pmt sse statistic = Ok g ->
             statistic = "chi2gamma"%string).
  { intros sel g H. unfold _compute_gof_base, gof_contributions in H.
    destruct (errors_or_default self ao sse) as [s0|]; [|discriminate].
    cbn [bind] in H.
    destruct (boolean_index _ ao) as [aom|]; [|discriminate].
    cbn [bind] in H.
    destruct (getitem sel _ _) as [q|]; [|discriminate].
    cbn [bind] in H. rewrite evaluate_fractions_total in H. cbn [bind] in H.
    destruct (boolean_index _ s0) as [sm|]; [|discriminate].
    cbn [bind] in H.
    destruct (gof_formula statistic) as [ex|] eqn:Eex; [|discriminate].
    cbn [bind] in H.
    destruct (gof_formula_ok statistic ex Eex) as [[-> _]|[_ ->]];
      [reflexivity|].
    unfold evaluate_gof in H. rewrite compile_chi2 in H. discriminate. }
  assert (Hgrid : forall c size r,
             compute_gof_grid self c size ao pmt sse statistic = Ok r ->
             statistic = "chi2gamma"%string).
  { intros c size r H. unfold compute_gof_grid in H.
    destruct (grid_selection self size (enumerate c)) as [[sel lows]|];
      [|discriminate].
    cbn [bind] in H.
    destruct (_compute_gof_base self sel ao pmt sse statistic) as [g|] eqn:E;
      [|discriminate].
    exact (Hbase sel g E). }
  split; [exact Hbase|]. split; [|split; [exact Hgrid|split]].
  - intros c g H. unfold compute_gof in H.
    destruct (get_bin_indices self c) as [idx|]; [|discriminate].
    exact (Hbase (map Int idx) g H).
  - intros c size r H. unfold minimize_gof_grid in H.
    destruct (compute_gof_grid self c size ao pmt sse statistic) as [r'|] eqn:E;
      [|discriminate].
    exact (Hgrid c size r' E).
  - intros sel s0 aom q sm Hn1 Hn2 H0 H1 H2 H3.
    unfold _compute_gof_base, gof_contributions.
    rewrite H0. cbn [bind]. rewrite H1. cbn [bind]. rewrite H2. cbn [bind].
    rewrite evaluate_fractions_total. cbn [bind]. rewrite H3. cbn [bind].
    unfold gof_formula.
    destruct (String.eqb_spec statistic "chi2gamma") as [E|_];
      [contradiction|].
    destruct (String.eqb_spec statistic "chi2") as [E|_]; [contradiction|].
    reflexivity.
Qed.

Example unsupported_statistic_on_axis20 :
  compute_gof pf_axis20 [0] [1; 1] None None "likelihood" = Raise ValueError.
Proof. vm_compute. reflexivity. Qed.

Lemma only_chi2gamma_returns_witness :
  _compute_gof_base pf_axis20 [Int 3] [1; 1] None None "likelihood"
  = Raise ValueError.
Proof.
  destruct (only_chi2gamma_returns pf_axis20 [1; 1] None None "likelihood")
    as (_ & _ & _ & _ & Hother).
  apply (Hother [Int 3] [0; 0] [1; 1] (Leaf [1; 1]) [0; 0]).
  - discriminate.
  - discriminate.
  - reflexivity.
  - reflexivity.
  - reflexivity.
  - reflexivity.
Defined.

(* ------------------------------------------------------------------ *)
(** * The grid and the point evaluation agree *)

Lemma mapM_nth {A B} (f : A -> result B) (l : list A) :
  forall bs i b,
    mapM f l = Ok bs -> nth_error bs i = Some b ->
    exists a, nth_error l i = Some a /\ f a = Ok b.
Proof.
  induction l as [|a l IH]; simpl; intros bs i b H Hi.
  - injection H as <-. destruct i; discriminate.
  - destruct (f a) as [b0|] eqn:Ea; [|discriminate].
    destruct (mapM f l) as [bs0|]; [|discriminate].
    injection H as <-. destruct i as [|i]; simpl in *.
    + injection Hi as <-. now exists a.
    + now apply (IH bs0).
Qed.

Lemma slice_nth {A} (rows : list A) (a b : Z) (i : nat) (r : A) :
  (0 <= a)%Z ->
  nth_error (slice rows a b) i = Some r ->
  item rows (a + Z.of_nat i) = Ok r.
Proof.
  intros Ha H. unfold slice in H.
  rewrite nth_error_firstn in H.
  destruct (Nat.ltb i _); [|discriminate].
  rewrite nth_error_skipn in H.
  assert (Hlt : (Z.to_nat (clip (Z.of_nat (List.length rows)) a) + i
                 < List.length rows)%nat)
    by (apply nth_error_Some; congruence).
  unfold clip in H, Hlt.
  destruct (Z.ltb_spec a 0) as [Hneg|_]; [lia|].
  assert (Hmin : Z.min a (Z.of_nat (List.length rows)) = a) by lia.
  rewrite Hmin in H.
  unfold item.
  destruct (Z.ltb_spec (a + Z.of_nat i) 0) as [Hneg|_]; [lia|].
  destruct (Z.leb_spec 0 (a + Z.of_nat i)) as [_|Hneg]; [|lia].
  destruct (Z.ltb_spec (a + Z.of_nat i) (Z.of_nat (List.length rows)))
    as [_|Hge]; [|lia].
  simpl. replace (Z.to_nat (a + Z.of_nat i)) with (Z.to_nat a + i)%nat by lia.
  now rewrite H.
Qed.

Lemma item_at_nd_map {A B} (f : A -> B) (idx : list nat) :
  forall t : nd A, item_at idx (nd_map f t) = fmap f (item_at idx t).
Proof.
  induction idx as [|i idx IH]; intros [a|rows]; simpl; try reflexivity.
  rewrite nth_error_map. destruct (nth_error rows i) as [r|]; simpl.
  - apply IH.
  - reflexivity.
Qed.

Lemma nd_mapM_item_at {A B} (f : A -> result B) (idx : list nat) :
  forall (t : nd A) (res : nd B) (b : B),
    nd_mapM f t = Ok res -> item_at idx res = Ok b ->
    exists a, item_at idx t = Ok a /\ f a = Ok b.
Proof.
  induction idx as [|i idx IH]; intros [a|rows] res b H Hb; simpl in H.
  - destruct (f a) as [b0|] eqn:Ea; [|discriminate].
    simpl in H. injection H as <-. simpl in Hb. injection Hb as <-.
    now exists a.
  - destruct (mapM (nd_mapM f) rows); [|discriminate].
    simpl in H. injection H as <-. discriminate.
  - destruct (f a); [|discriminate].
    simpl in H. injection H as <-. discriminate.
  - destruct (mapM (nd_mapM f) rows) as [rs|] eqn:Ers; [|discriminate].
    simpl in H. injection H as <-. simpl in Hb.
    destruct (nth_error rs i) as [r'|] eqn:Er'; [|discriminate].
    destruct (mapM_nth _ _ _ _ _ Ers Er') as [r [Hr Hf]].
    simpl. rewrite Hr. now apply (IH r r').
Qed.

(** An entry of a sliced array is the entry of the array at the slice
    starts plus the position inside the slices. *)
Lemma getitem_slices_item_at {A} (ch : channel_index) (sel : list index)
    (lows : list Z) :
  Forall2 slice_from sel lows ->
  Forall (fun low => (0 <= low)%Z) lows ->
  forall (d q : nd (list A)) (idx : list nat) (w : list A),
    getitem sel ch d = Ok q ->
    item_at idx q = Ok w ->
    getitem (map Int (offset_index lows idx)) ch d = Ok (Leaf w) /\
    List.length idx = List.length lows.
Proof.
  induction 1 as [|ix low sel lows Hix Hrest IH]; intros Hpos d q idx w Hq Hw.
  - destruct d as [v|rows]; [|discriminate].
    simpl in Hq. destruct (channel_select ch v) as [v'|] eqn:Ev; [|discriminate].
    simpl in Hq. injection Hq as <-.
    destruct idx as [|i idx]; [|discriminate].
    simpl in Hw. injection Hw as <-.
    split; [|reflexivity]. simpl. now rewrite Ev.
  - inversion Hpos as [|? ? Hlow Hlows]; subst.
    destruct ix as [i0|start stop]; [contradiction|].
    simpl in Hix. subst start.
    destruct d as [v|rows]; [discriminate|].
    cbn [getitem] in Hq.
    destruct (mapM (getitem sel ch) (slice rows low stop)) as [rs|] eqn:Ers;
      [|discriminate].
    simpl in Hq. injection Hq as <-.
    destruct idx as [|i idx]; [discriminate|].
    simpl in Hw.
    destruct (nth_error rs i) as [r'|] eqn:Er'; [|discriminate].
    destruct (mapM_nth _ _ _ _ _ Ers Er') as [r [Hr Hget]].
    destruct (IH Hlows r r' idx w Hget Hw) as [Hrec Hlen].
    split; [|simpl; now rewrite Hlen].
    unfold offset_index. cbn [combine map fst snd getitem].
    rewrite (slice_nth rows low stop i r Hlow Hr). cbn [bind].
    exact Hrec.
Qed.

Lemma get_bin_index_nonneg (self : PatternFitter) (x : Q) (d : nat) (i : Z) :
  Forall wf_axis (coordinate_data self) ->
  _get_bin_index self x d = Ok i -> (0 <= i)%Z.
Proof.
  intros Hwf Hi.
  destruct (get_bin_index_ok _ _ _ _ Hi) as [cd [Hcd Hin]].
  assert (Hcdwf : wf_axis cd).
  { rewrite Forall_forall in Hwf. apply Hwf. unfold axis in Hcd.
    destruct (nth_error (coordinate_data self) d) eqn:E; [|discriminate].
    injection Hcd as ->. eapply nth_error_In; eauto. }
  rewrite (bin_index_in_range self d cd Hcd Hcdwf x Hin) in Hi.
  assert (Ei : i = Qfloor ((x - minimum cd) / bin_spacing cd)) by congruence.
  subst i.
  apply in_range_iff in Hin. destruct Hin as [Hlo _].
  pose proof (Qfloor_resp_le _ _ (offset_nonneg cd Hcdwf x Hlo)) as H0.
  change (Qfloor 0) with 0%Z in H0. exact H0.
Qed.

(** The slices of the window begin at the recorded lowest bins, which are
    not negative. *)
Lemma grid_selection_starts (self : PatternFitter) (grid_size : Q)
    (items : list (nat * Q)) :
  Forall wf_axis (coordinate_data self) ->
  forall sel lows,
    grid_selection self grid_size items = Ok (sel, lows) ->
    Forall2 slice_from sel lows /\ Forall (fun low => (0 <= low)%Z) lows.
Proof.
  intros Hwf. induction items as [|[d x] items IH]; intros sel lows H.
  - simpl in H. injection H as <- <-. split; constructor.
  - cbn [grid_selection] in H.
    destruct (axis self d) as [cd|]; [|discriminate]. cbn [bind] in H.
    destruct (negb (in_range cd x)); [discriminate|].
    destruct (_get_bin_index self (py_max _ _) d) as [start|] eqn:Estart;
      [|discriminate].
    cbn [bind] in H.
    destruct (_get_bin_index self (py_min _ _) d) as [stop|]; [|discriminate].
    cbn [bind] in H.
    destruct (grid_selection self grid_size items) as [[sel0 lows0]|];
      [|discriminate].
    cbn [bind] in H. injection H as <- <-.
    destruct (IH sel0 lows0 eq_refl) as [Hs Hl].
    split; constructor; auto.
    + reflexivity.
    + exact (get_bin_index_nonneg self _ d start Hwf Estart).
Qed.

(** The grid entry at [idx] is what [_compute_gof_base] computes for the
    single bin [lowest_bins + idx]. *)
Lemma grid_entry_source (self : PatternFitter) (center : list Q)
    (grid_size : Q) (ao : list Q) (pmt : option (list bool))
    (sse : option (list Q)) (statistic : string) (gofs : nd float)
    (lows : list Z) (idx : list nat) (v : float) :
  Forall wf_axis (coordinate_data self) ->
  compute_gof_grid self center grid_size ao pmt sse statistic
  = Ok (gofs, lows) ->
  item_at idx gofs = Ok v ->
  _compute_gof_base self (map Int (offset_index lows idx)) ao pmt sse statistic
  = Ok (Leaf v) /\
  List.length idx = List.length lows /\
  Forall (fun low => (0 <= low)%Z) lows /\
  List.length lows = List.length center /\
  exists q, getitem (map Int (offset_index lows idx))
                    (Mask (selection_or_default self pmt)) (data self) = Ok q.
Proof.
  intros Hwf Hgrid Hv. unfold compute_gof_grid in Hgrid.
  destruct (grid_selection self grid_size (enumerate center))
    as [[sel lows0]|] eqn:Esel; [|discriminate].
  cbn [bind] in Hgrid.
  destruct (grid_selection_starts self grid_size _ Hwf _ _ Esel) as [Hfrom Hpos].
  destruct (grid_selection_slices _ _ _ _ _ Esel) as (_ & _ & Hl2).
  unfold enumerate in Hl2. rewrite enumerate_from_length in Hl2.
  unfold _compute_gof_base, gof_contributions in *.
  destruct (errors_or_default self ao sse) as [s0|]; [|discriminate].
  cbn [bind] in *.
  destruct (boolean_index _ ao) as [aom|]; [|discriminate].
  cbn [bind] in *.
  destruct (getitem sel _ (data self)) as [q|] eqn:Eq; [|discriminate].
  cbn [bind] in Hgrid.
  rewrite evaluate_fractions_total in Hgrid. cbn [bind] in Hgrid.
  destruct (boolean_index _ s0) as [sm|]; [|discriminate].
  cbn [bind] in *.
  destruct (gof_formula statistic) as [ex|]; [|discriminate].
  cbn [bind] in *. unfold evaluate_gof in *.
  destruct (Numexpr.compile ex) as [e|]; [|discriminate].
  cbn [bind] in *.
  destruct (nd_mapM _ (nd_map bin_fractions q)) as [res|] eqn:Eres;
    [|discriminate].
  cbn [bind] in Hgrid. injection Hgrid as <- <-.
  rewrite item_at_nd_map in Hv.
  destruct (item_at idx res) as [r|] eqn:Er; [|discriminate].
  simpl in Hv. injection Hv as <-.
  destruct (nd_mapM_item_at _ idx _ res r Eres Er) as [fr [Hfr Hrun]].
  rewrite item_at_nd_map in Hfr.
  destruct (item_at idx q) as [w|] eqn:Ew; [|discriminate].
  simpl in Hfr. injection Hfr as <-.
  destruct (getitem_slices_item_at _ sel lows0 Hfrom Hpos _ q idx w Eq Ew)
    as [Hget Hlen].
  rewrite Hget. cbn [bind].
  rewrite evaluate_fractions_total. cbn [bind nd_map nd_mapM].
  rewrite Hrun. simpl.
  repeat split; auto. now exists (Leaf w).
Qed.

(** X8.  Every entry of the grid of [compute_gof_grid] is a point
    evaluation: the entry at multi-index [idx] is the value that
    [compute_gof] returns at any coordinates lying in the bins
    [lowest_bins + idx]. *)
Theorem grid_entries_are_point_evaluations (self : PatternFitter)
    (center : list Q) (grid_size : Q) (ao : list Q)
    (pmt : option (list bool)) (sse : option (list Q)) (statistic : string)
    (gofs : nd float) (lowest_bins : list Z) (idx : list nat) (v : float)
    (c : list Q) :
  Forall wf_axis (coordinate_data self) ->
  compute_gof_grid self center grid_size ao pmt sse statistic
  = Ok (gofs, lowest_bins) ->
  item_at idx gofs = Ok v ->
  get_bin_indices self c = Ok (offset_index lowest_bins idx) ->
  compute_gof self c ao pmt sse statistic = Ok (Leaf v).
Proof.
  intros Hwf Hgrid Hv Hc.
  destruct (grid_entry_source self center grid_size ao pmt sse statistic
              gofs lowest_bins idx v Hwf Hgrid Hv) as [Hbase _].
  unfold compute_gof. rewrite Hc. exact Hbase.
Qed.

Lemma grid_entries_are_point_evaluations_witness :
  compute_gof pf_example [3 # 2] [4] None None "chi2gamma"
  = Ok (Leaf (Fin (1 # 5))).
Proof.
  apply (grid_entries_are_point_evaluations pf_example [1] 2 [4] None None
           "chi2gamma" (Node [Leaf NaN; Leaf (Fin (1 # 5))]) [0%Z] [1%nat]).
  - repeat constructor; reflexivity.
  - vm_compute. reflexivity.
  - reflexivity.
  - reflexivity.
Defined.




(** ** When the grid has no usable entry *)

Lemma nanargmin_all_nan (l : list float) :
  forallb is_nan l = true -> nanargmin l = Raise ValueError.
Proof.
  intros H. unfold nanargmin. destruct l as [|x l]; [reflexivity|].
  cbn [map argmin bind]. now rewrite H.
Qed.

Lemma nanargmin_some_number (l : list float) :
  forallb is_nan l = false -> exists k, nanargmin l = Ok k.
Proof.
  intros H. unfold nanargmin. destruct l as [|x l]; [discriminate|].
  cbn [map argmin bind]. rewrite H. eauto.
Qed.

(** X10.  [minimize_gof_grid] fails with [ValueError] when the grid holds
    no number at all: when every entry is NaN, and in particular when the
    grid is empty.  With a single entry that is not NaN the search for the
    minimum itself does not fail. *)
Theorem minimize_gof_grid_without_numbers (self : PatternFitter)
    (center : list Q) (grid_size : Q) (ao : list Q)
    (pmt : option (list bool)) (sse : option (list Q)) (statistic : string)
    (gofs : nd float) (lowest_bins : list Z) :
  compute_gof_grid self center grid_size ao pmt sse statistic
  = Ok (gofs, lowest_bins) ->
  (forallb is_nan (flatten gofs) = true ->
   minimize_gof_grid self center grid_size ao pmt sse statistic
   = Raise ValueError)
  /\ (flatten gofs = [] ->
      minimize_gof_grid self center grid_size ao pmt sse statistic
      = Raise ValueError)
  /\ (forallb is_nan (flatten gofs) = false ->
      exists k, nanargmin (flatten gofs) = Ok k /\
                (k < List.length (flatten gofs))%nat).
Proof.
  intros Hgrid.
  assert (Hnan : forallb is_nan (flatten gofs) = true ->
                 minimize_gof_grid self center grid_size ao pmt sse statistic
                 = Raise ValueError).
  { intros H. unfold minimize_gof_grid. rewrite Hgrid. cbn [bind].
    now rewrite (nanargmin_all_nan _ H). }
  split; [exact Hnan|]. split.
  - intros E. apply Hnan. now rewrite E.
  - intros H. destruct (nanargmin_some_number _ H) as [k Hk].
    exists k. split; [exact Hk|].
    unfold nanargmin in Hk.
    destruct (flatten gofs) as [|x l] eqn:El; [discriminate|].
    destruct (argmin_first_minimum (map replace_nan (x :: l)))
      as (k' & v' & Hk' & Hnth & _).
    { discriminate. }
    { apply Forall_forall. intros y Hy. apply in_map_iff in Hy.
      destruct Hy as [z [<- _]]. apply replace_nan_not_nan. }
    rewrite Hk' in Hk. cbn [bind] in Hk. rewrite H in Hk.
    injection Hk as <-.
    rewrite <- (length_map replace_nan). apply nth_error_Some. congruence.
Qed.

Lemma minimize_gof_grid_without_numbers_witness :
  minimize_gof_grid pf_axis20 [10] 0 [1; 1] None None "chi2gamma"
  = Raise ValueError.
Proof.
  destruct (minimize_gof_grid_without_numbers pf_axis20 [10] 0 [1; 1] None
              None "chi2gamma" (Node []) [20%Z]) as (_ & Hempty & _).
  - vm_compute. reflexivity.
  - apply Hempty. reflexivity.
Defined.

(* ------------------------------------------------------------------ *)
(** * Further properties of the chi2gamma value *)

(** The value of [compute_gof] at a bin, from the bin's full vector. *)
Lemma compute_gof_chi2gamma_value (self : PatternFitter) (c : list Q)
    (ao : list Q) (pmt : option (list bool)) (sse : option (list Q))
    (v s0 : list Q) :
  pattern_at self c = Ok (Leaf v) ->
  List.length (selection_or_default self pmt) = List.length v ->
  List.length ao = List.length v ->
  errors_or_default self ao sse = Ok s0 ->
  List.length s0 = List.length v ->
  compute_gof self c ao pmt sse "chi2gamma"
  = Ok (Leaf (Float.sum
                (bin_contributions
                   (select (selection_or_default self pmt) ao)
                   (select (selection_or_default self pmt) s0)
                   (bin_fractions (select (selection_or_default self pmt) v))))).
Proof.
  intros Hat Hm Hao Hs0 Hs0len.
  set (m := selection_or_default self pmt) in *.
  destruct (pattern_at_indices _ _ _ Hat) as [idx [Hidx Hget]].
  unfold compute_gof. rewrite Hidx. cbn [bind].
  unfold _compute_gof_base.
  assert (Hmao : List.length m = List.length ao) by congruence.
  assert (Hms0 : List.length m = List.length s0) by congruence.
  rewrite (gof_contributions_chi2gamma self (map Int idx) ao pmt sse s0
             (select m ao) (select m s0) (Leaf (select m v)) Hs0
             (boolean_index_same_length _ _ Hmao)
             (getitem_mask_of_all idx m v _ Hget Hm)
             (boolean_index_same_length _ _ Hms0)).
  reflexivity.
Qed.

Lemma select_Forall {A} (P : A -> Prop) (m : list bool) :
  forall v, Forall P v -> Forall P (select m v).
Proof.
  induction m as [|b m IH]; intros v Hv; [constructor|].
  destruct v as [|x v]; [constructor|].
  inversion Hv; subst. destruct b; simpl; [constructor|]; auto.
Qed.

Lemma sum_of_nonneg (l : list float) :
  Forall (fun a => exists q, a = Fin q /\ 0 <= q) l ->
  exists r, Float.sum l = Fin r /\ 0 <= r.
Proof.
  induction 1 as [|a l (q & -> & Hq) _ (r & Hr & Hr0)]; simpl.
  - exists 0. split; [reflexivity | apply Qle_refl].
  - rewrite Hr. exists (q + r). split; [reflexivity|].
    change 0 with (0 + 0). now apply Qplus_le_compat.
Qed.

Lemma chi2gamma_element_nonneg (total x qsum o s : Q) :
  0 < qsum -> 0 <= x -> 0 <= total -> 0 <= s ->
  exists q,
    chi2gamma_element total (fractions_element x qsum) o s = Fin q /\ 0 <= q.
Proof.
  intros Hq Hx Ht Hs.
  assert (Hae : 0 <= x / qsum * total).
  { apply Qmult_le_0_compat; [|exact Ht].
    apply Qle_shift_div_l; [exact Hq|]. now rewrite Qmult_0_l. }
  assert (Hq0 : ~ qsum == 0) by lra.
  assert (Hd : ~ x / qsum * total + s + 1 == 0).
  { generalize dependent (x / qsum * total). intros ae Hae. lra. }
  pose proof (chi2gamma_element_finite total x qsum o s Hq0 Hd) as Hf.
  destruct (chi2gamma_element total (fractions_element x qsum) o s)
    as [q| | |]; cbn [Float.eq] in Hf; try contradiction.
  exists q. split; [reflexivity|]. rewrite Hf.
  generalize dependent (x / qsum * total). intros ae Hae Hd Hf.
  apply Qle_shift_div_l; [lra|]. rewrite Qmult_0_l.
  set (n := o + Qmin o 1 - ae).
  assert (Hsq : n ^ 2 == n * n) by (simpl; ring).
  rewrite Hsq. clearbody n.
  destruct (Qlt_le_dec n 0) as [Hneg|Hpos].
  - setoid_replace (n * n) with ((- n) * (- n)) by ring.
    apply Qmult_le_0_compat; lra.
  - now apply Qmult_le_0_compat.
Qed.

Lemma in_combine3 {A B C} (l1 : list A) (l2 : list B) (l3 : list C)
    (elt : A * (B * C)) :
  In elt (combine l1 (combine l2 l3)) ->
  In (fst elt) l1 /\ In (fst (snd elt)) l2 /\ In (snd (snd elt)) l3.
Proof.
  destruct elt as [a [b c]]. intros H.
  pose proof (in_combine_l _ _ _ _ H) as Ha.
  pose proof (in_combine_r _ _ _ _ H) as Hbc.
  split; [exact Ha|]. split.
  - exact (in_combine_l _ _ _ _ Hbc).
  - exact (in_combine_r _ _ _ _ Hbc).
Qed.

(** X11.  On a live bin, with nonnegative map values, observed amplitudes
    and squared systematic errors, the ['chi2gamma'] goodness of fit is a
    finite number that is not negative: every denominator is at least 1. *)
Theorem compute_gof_finite_nonneg (self : PatternFitter) (c : list Q)
    (ao : list Q) (pmt : option (list bool)) (sse : option (list Q))
    (v s0 : list Q) :
  pattern_at self c = Ok (Leaf v) ->
  List.length (selection_or_default self pmt) = List.length v ->
  List.length ao = List.length v ->
  errors_or_default self ao sse = Ok s0 ->
  List.length s0 = List.length v ->
  Forall (fun x => 0 <= x) v ->
  Forall (fun x => 0 <= x) ao ->
  Forall (fun x => 0 <= x) s0 ->
  ~ Qsum (select (selection_or_default self pmt) v) == 0 ->
  exists r,
    compute_gof self c ao pmt sse "chi2gamma" = Ok (Leaf (Fin r)) /\ 0 <= r.
Proof.
  intros Hat Hm Hao Hs0 Hs0len Hv Hpos Hs Hsum.
  rewrite (compute_gof_chi2gamma_value self c ao pmt sse v s0
             Hat Hm Hao Hs0 Hs0len).
  set (m := selection_or_default self pmt) in *.
  pose proof (select_Forall _ m v Hv) as Hv'.
  pose proof (select_Forall _ m ao Hpos) as Hao'.
  pose proof (select_Forall _ m s0 Hs) as Hs'.
  assert (Hq : 0 < Qsum (select m v)).
  { pose proof (Qsum_nonneg _ Hv') as H0.
    destruct (Qlt_le_dec 0 (Qsum (select m v))) as [Hlt|Hle]; [exact Hlt|].
    exfalso. apply Hsum. now apply Qle_antisym. }
  destruct (sum_of_nonneg
              (bin_contributions (select m ao) (select m s0)
                 (bin_fractions (select m v)))) as [r [Hr Hr0]].
  { rewrite bin_contributions_elements. apply Forall_forall.
    intros a Ha. apply in_map_iff in Ha. destruct Ha as [elt [<- Helt]].
    destruct (in_combine3 _ _ _ _ Helt) as (Hx & Ho & Hse).
    rewrite Forall_forall in Hv', Hs'.
    apply chi2gamma_element_nonneg; auto.
    now apply Qsum_nonneg. }
  exists r. now rewrite Hr.
Qed.

Lemma compute_gof_finite_nonneg_witness :
  exists r,
    compute_gof pf_example [3 # 2] [4] None None "chi2gamma"
    = Ok (Leaf (Fin r)) /\ 0 <= r.
Proof.
  apply (compute_gof_finite_nonneg pf_example [3 # 2] [4] None None
           [1] [(0 * 4) ^ 2]).
  - reflexivity.
  - reflexivity.
  - reflexivity.
  - reflexivity.
  - reflexivity.
  - repeat constructor. vm_compute. discriminate.
  - repeat constructor. vm_compute. discriminate.
  - repeat constructor. vm_compute. discriminate.
  - intros H. vm_compute in H. discriminate H.
Defined.

(** ** Equality of floats and the arithmetic *)

Lemma feq_refl (a : float) : Float.eq a a.
Proof. destruct a; simpl; [reflexivity | exact I | exact I | exact I]. Qed.

Lemma Qcompare_zero_eq (x y : Q) : x == y -> (x ?= 0) = (y ?= 0).
Proof. intros H. now rewrite H. Qed.

Lemma Qeq_bool_zero_eq (x y : Q) : x == y -> Qeq_bool x 0 = Qeq_bool y 0.
Proof. intros H. now rewrite H. Qed.

Lemma feq_neg (a a' : float) : Float.eq a a' -> Float.eq (neg a) (neg a').
Proof.
  destruct a, a'; simpl; try contradiction; auto.
  intros H. now rewrite H.
Qed.

Lemma feq_add (a a' b b' : float) :
  Float.eq a a' -> Float.eq b b' -> Float.eq (add a b) (add a' b').
Proof.
  destruct a, a', b, b'; simpl; try contradiction; auto.
  intros H H'. now rewrite H, H'.
Qed.

Lemma feq_mul (a a' b b' : float) :
  Float.eq a a' -> Float.eq b b' -> Float.eq (mul a b) (mul a' b').
Proof.
  intros H H'.
  destruct a as [x| | |], a' as [x'| | |]; try contradiction;
    destruct b as [y| | |], b' as [y'| | |]; try contradiction;
    cbn [mul sign Float.eq] in *; try exact I;
    try (rewrite (Qcompare_zero_eq _ _ H); apply feq_refl);
    try (rewrite (Qcompare_zero_eq _ _ H'); apply feq_refl).
  now rewrite H, H'.
Qed.

Lemma feq_div (a a' b b' : float) :
  Float.eq a a' -> Float.eq b b' -> Float.eq (div a b) (div a' b').
Proof.
  intros H H'.
  destruct a as [x| | |], a' as [x'| | |]; try contradiction;
    destruct b as [y| | |], b' as [y'| | |]; try contradiction;
    cbn [div sign Float.eq] in *; try exact I; try reflexivity;
    try (rewrite (Qeq_bool_zero_eq _ _ H'), (Qcompare_zero_eq _ _ H');
         apply feq_refl).
  rewrite (Qeq_bool_zero_eq _ _ H'), (Qcompare_zero_eq _ _ H).
  destruct (Qeq_bool y' 0); [apply feq_refl|].
  cbn [Float.eq]. now rewrite H, H'.
Qed.

Lemma feq_sum (l l' : list float) :
  Forall2 Float.eq l l' -> Float.eq (Float.sum l) (Float.sum l').
Proof.
  induction 1 as [|a a' l l' Ha _ IH]; simpl.
  - reflexivity.
  - now apply feq_add.
Qed.

Lemma chi2gamma_element_feq (total : Q) (fe fe' : float) (o s : Q) :
  Float.eq fe fe' ->
  Float.eq (chi2gamma_element total fe o s) (chi2gamma_element total fe' o s).
Proof.
  intros H. unfold chi2gamma_element. cbn [pow].
  pose proof (feq_mul fe fe' (Fin total) (Fin total) H (feq_refl _)) as Hae.
  apply feq_div.
  - apply feq_mul; unfold sub;
      (apply feq_add; [apply feq_refl | now apply feq_neg]).
  - apply feq_add; [|apply feq_refl].
    apply feq_add; [exact Hae | apply feq_refl].
Qed.

Lemma Qsum_scaled (k : Q) (v : list Q) :
  Qsum (map (Qmult k) v) == k * Qsum v.
Proof.
  induction v as [|x v IH]; simpl; [ring|]. rewrite IH. ring.
Qed.

(** Scaling a vector and its sum by the same positive factor leaves the
    expected fractions as they are. *)
Lemma fractions_element_scaled (k x qsum qsum' : Q) :
  0 < k -> qsum' == k * qsum ->
  Float.eq (fractions_element (k * x) qsum') (fractions_element x qsum).
Proof.
  intros Hk Hq. unfold fractions_element. cbn [div].
  rewrite (Qeq_bool_zero_eq qsum' (k * qsum) Hq).
  destruct (Qeq_bool qsum 0) eqn:E.
  - apply Qeq_bool_iff in E.
    assert (E' : k * qsum == 0) by (rewrite E; ring).
    rewrite (Qeq_eq_bool _ _ E').
    assert (Hs : (k * x ?= 0) = (x ?= 0)).
    { destruct (x ?= 0) eqn:Ex.
      - apply Qeq_alt in Ex. apply Qeq_alt. rewrite Ex. ring.
      - apply Qlt_alt in Ex. apply Qlt_alt.
        setoid_replace 0 with (k * 0) by ring.
        now apply Qmult_lt_l.
      - apply Qgt_alt in Ex. apply Qgt_alt.
        setoid_replace 0 with (k * 0) by ring.
        now apply Qmult_lt_l. }
    rewrite Hs. apply feq_refl.
  - assert (Hne : ~ qsum == 0) by (now apply Qeq_bool_neq).
    assert (E' : ~ k * qsum == 0).
    { intros H0. apply Hne.
      apply (Qmult_inj_l qsum 0 k); [lra|]. rewrite H0. ring. }
    rewrite (Qeq_bool_false _ _ E'). cbn [Float.eq].
    rewrite Hq. field. split; [exact Hne | lra].
Qed.

Lemma select_map {A B} (f : A -> B) (m : list bool) :
  forall v, select m (map f v) = map f (select m v).
Proof.
  induction m as [|b m IH]; intros [|x v]; simpl; try reflexivity.
  destruct b; simpl; now rewrite IH.
Qed.

Lemma Forall2_map_same {A B} (R : B -> B -> Prop) (f g : A -> B) (l : list A) :
  (forall a, In a l -> R (f a) (g a)) -> Forall2 R (map f l) (map g l).
Proof.
  induction l as [|a l IH]; intros H; simpl; constructor.
  - apply H. now left.
  - apply IH. intros a' Ha'. apply H. now right.
Qed.

(** X12.  The goodness of fit sees the map only through the normalised
    pattern: two fitters whose bins at [c] hold the vectors [v] and [k * v],
    for a positive factor [k], give the same ['chi2gamma'] value there. *)
Theorem compute_gof_scale_invariant (self self' : PatternFitter)
    (c : list Q) (ao : list Q) (pmt : option (list bool))
    (sse : option (list Q)) (v s0 : list Q) (k : Q) :
  0 < k ->
  pattern_at self c = Ok (Leaf v) ->
  pattern_at self' c = Ok (Leaf (map (Qmult k) v)) ->
  selection_or_default self' pmt = selection_or_default self pmt ->
  List.length (selection_or_default self pmt) = List.length v ->
  List.length ao = List.length v ->
  errors_or_default self ao sse = Ok s0 ->
  errors_or_default self' ao sse = Ok s0 ->
  List.length s0 = List.length v ->
  exists g g',
    compute_gof self c ao pmt sse "chi2gamma" = Ok (Leaf g) /\
    compute_gof self' c ao pmt sse "chi2gamma" = Ok (Leaf g') /\
    Float.eq g' g.
Proof.
  intros Hk Hat Hat' Hsel Hm Hao Hs0 Hs0' Hs0len.
  assert (Hv' : List.length (map (Qmult k) v) = List.length v)
    by apply length_map.
  rewrite (compute_gof_chi2gamma_value self c ao pmt sse v s0
             Hat Hm Hao Hs0 Hs0len).
  rewrite (compute_gof_chi2gamma_value self' c ao pmt sse (map (Qmult k) v) s0
             Hat'); try congruence.
  rewrite Hsel. set (m := selection_or_default self pmt).
  eexists _, _. split; [reflexivity|]. split; [reflexivity|].
  apply feq_sum. rewrite !bin_contributions_elements.
  rewrite select_map, combine_map_l, map_map.
  apply Forall2_map_same. intros [x [o s]] _. cbn [fst snd].
  apply chi2gamma_element_feq.
  apply fractions_element_scaled; [exact Hk | apply Qsum_scaled].
Qed.

Lemma compute_gof_scale_invariant_witness :
  exists g g',
    compute_gof pf_example [3 # 2] [4] None None "chi2gamma" = Ok (Leaf g) /\
    compute_gof
      {| data := Node [Leaf [0]; Leaf [3]];
         dimensions := 1;
         coordinate_data := coordinate_data pf_example;
         n_points := 1;
         default_pmt_selection := [true];
         default_errors := ErrScalar 0 |}
      [3 # 2] [4] None None "chi2gamma" = Ok (Leaf g') /\
    Float.eq g' g.
Proof.
  apply (compute_gof_scale_invariant pf_example _ [3 # 2] [4] None None
           [1] [(0 * 4) ^ 2] 3).
  - reflexivity.
  - reflexivity.
  - reflexivity.
  - reflexivity.
  - reflexivity.
  - reflexivity.
  - reflexivity.
  - reflexivity.
  - reflexivity.
Defined.

(* ------------------------------------------------------------------ *)
(** * Further properties of the search window *)

Lemma bin_index_le (self : PatternFitter) (d : nat) (cd : CoordinateData)
    (v1 v2 : Q) (i1 i2 : Z) :
  axis self d = Ok cd ->
  wf_axis cd ->
  v1 <= v2 ->
  _get_bin_index self v1 d = Ok i1 ->
  _get_bin_index self v2 d = Ok i2 ->
  (i1 <= i2)%Z.
Proof.
  intros Haxis Hwf Hle H1 H2.
  rewrite (bin_index_decided self d cd v1 Haxis Hwf) in H1.
  rewrite (bin_index_decided self d cd v2 Haxis Hwf) in H2.
  destruct (in_range cd v1); [|discriminate].
  destruct (in_range cd v2); [|discriminate].
  assert (E1 : i1 = Qfloor ((v1 - minimum cd) / bin_spacing cd)) by congruence.
  assert (E2 : i2 = Qfloor ((v2 - minimum cd) / bin_spacing cd)) by congruence.
  rewrite E1, E2. apply Qfloor_resp_le.
  pose proof (bin_spacing_pos cd Hwf) as Hs.
  unfold Qdiv. apply Qmult_le_compat_r; [lra|].
  apply Qlt_le_weak. now apply Qinv_lt_0_compat.
Qed.

(** What the loop of [compute_gof_grid] records for the axis of one center
    coordinate. *)
Lemma grid_selection_nth (self : PatternFitter) (grid_size : Q)
    (center : list Q) :
  forall k sel lows,
    grid_selection self grid_size (enumerate_from k center) = Ok (sel, lows) ->
    forall j x,
      nth_error center j = Some x ->
      exists cd start stop,
        axis self (k + j) = Ok cd /\
        in_range cd x = true /\
        nth_error sel j = Some (Slice start (stop + 1)) /\
        nth_error lows j = Some start /\
        _get_bin_index self (py_max (x - grid_size / 2) (minimum cd)) (k + j)
        = Ok start /\
        _get_bin_index self (py_min (x + grid_size / 2) (maximum cd)) (k + j)
        = Ok stop.
Proof.
  induction center as [|y center IH]; intros k sel lows H j x Hj.
  - destruct j; discriminate.
  - cbn [enumerate_from grid_selection] in H.
    destruct (axis self k) as [cd|] eqn:Ecd; [|discriminate].
    cbn [bind] in H.
    destruct (in_range cd y) eqn:Ein; cbn [negb] in H; [|discriminate].
    destruct (_get_bin_index self (py_max _ _) k) as [start|] eqn:Estart;
      [|discriminate].
    cbn [bind] in H.
    destruct (_get_bin_index self (py_min _ _) k) as [stop|] eqn:Estop;
      [|discriminate].
    cbn [bind] in H.
    destruct (grid_selection self grid_size (enumerate_from (S k) center))
      as [[sel0 lows0]|] eqn:Erest; [|discriminate].
    cbn [bind] in H. injection H as <- <-.
    destruct j as [|j].
    + simpl in Hj. injection Hj as <-. rewrite Nat.add_0_r.
      exists cd, start, stop. repeat split; assumption.
    + simpl in Hj. rewrite Nat.add_succ_r.
      exact (IH (S k) sel0 lows0 Erest j x Hj).
Qed.

Lemma axis_of_nth (self : PatternFitter) (d : nat) (cd : CoordinateData) :
  axis self d = Ok cd -> nth_error (coordinate_data self) d = Some cd.
Proof.
  unfold axis. destruct (nth_error (coordinate_data self) d); [|discriminate].
  intros H. now injection H as ->.
Qed.

(** X13.  For a window size that is not negative, the bin range selected on
    every axis lies within the axis, from bin 0 to [n_bins], and contains
    the bin of the center coordinate; the recorded lowest bin is the start
    of that range. *)
Theorem grid_window_contains_center (self : PatternFitter) (center : list Q)
    (grid_size : Q) (sel : list index) (lows : list Z) (d : nat) (x : Q) :
  Forall wf_axis (coordinate_data self) ->
  0 <= grid_size ->
  grid_selection self grid_size (enumerate center) = Ok (sel, lows) ->
  nth_error center d = Some x ->
  exists cd start stop i,
    nth_error (coordinate_data self) d = Some cd /\
    nth_error sel d = Some (Slice start (stop + 1)) /\
    nth_error lows d = Some start /\
    _get_bin_index self x d = Ok i /\
    (0 <= start <= i)%Z /\ (i <= stop <= n_bins cd)%Z.
Proof.
  intros Hwf Hg Hsel Hd.
  destruct (grid_selection_nth self grid_size center 0 sel lows Hsel d x Hd)
    as (cd & start & stop & Haxis & Hin & Hs & Hl & Hstart & Hstop).
  simpl in Haxis, Hstart, Hstop.
  pose proof (axis_of_nth self d cd Haxis) as Hcd.
  assert (Hcdwf : wf_axis cd).
  { rewrite Forall_forall in Hwf. apply Hwf. eapply nth_error_In; eauto. }
  pose proof (bin_index_in_range self d cd Haxis Hcdwf x Hin) as Hi.
  exists cd, start, stop, (Qfloor ((x - minimum cd) / bin_spacing cd)).
  repeat split; auto.
  - exact (get_bin_index_nonneg self _ d start Hwf Hstart).
  - refine (bin_index_le self d cd _ _ _ _ Haxis Hcdwf _ Hstart Hi).
    unfold py_max. apply in_range_iff in Hin.
    assert (Hh : 0 <= grid_size / 2) by (apply Qle_shift_div_l; lra).
    destruct (Qle_bool (minimum cd) (x - grid_size / 2)); lra.
  - refine (bin_index_le self d cd _ _ _ _ Haxis Hcdwf _ Hi Hstop).
    unfold py_min. apply in_range_iff in Hin.
    assert (Hh : 0 <= grid_size / 2) by (apply Qle_shift_div_l; lra).
    destruct (Qle_bool (x + grid_size / 2) (maximum cd)); lra.
  - pose proof (window_high_in_range cd x grid_size Hin Hg) as Hhigh.
    apply in_range_iff in Hhigh. destruct Hhigh as [_ Hhigh].
    assert (Hmax : in_range cd (maximum cd) = true).
    { apply in_range_iff. destruct Hcdwf as (Hlt & _). lra. }
    pose proof (bin_index_in_range self d cd Haxis Hcdwf _ Hmax) as Hn.
    rewrite (Qfloor_comp _ _ (range_in_bins cd Hcdwf)), Qfloor_Z in Hn.
    exact (bin_index_le self d cd _ _ _ _ Haxis Hcdwf Hhigh Hstop Hn).
Qed.

Lemma grid_window_contains_center_witness :
  exists cd start stop i,
    nth_error (coordinate_data pf_axis20) 0 = Some cd /\
    nth_error [Slice 11 (15 + 1)] 0 = Some (Slice start (stop + 1)) /\
    nth_error [11%Z] 0 = Some start /\
    _get_bin_index pf_axis20 (7 # 2) 0 = Ok i /\
    (0 <= start <= i)%Z /\ (i <= stop <= n_bins cd)%Z.
Proof.
  apply (grid_window_contains_center pf_axis20 [7 # 2] 4
           [Slice 11 (15 + 1)] [11%Z] 0 (7 # 2)).
  - repeat constructor; reflexivity.
  - vm_compute. discriminate.
  - vm_compute. reflexivity.
  - reflexivity.
Defined.



(* ------------------------------------------------------------------ *)
(** * Further properties of the arrays handed to the formula *)

Lemma sum_of_finite (f : Q -> Q) (l : list Q) :
  Float.sum (map (fun x => Fin (f x)) l) = Fin (Qsum (map f l)).
Proof.
  induction l as [|x l IH]; simpl; [reflexivity|]. now rewrite IH.
Qed.

(** X15.  [fractions_expected] is computed for every selection without an
    error; the fractions of a bin whose selected responses do not sum to
    zero are finite and sum to 1, and those of a bin whose responses sum to
    zero are all NaN or infinite. *)
Theorem fractions_expected_sum_to_one (q : nd (list Q)) :
  exists fr,
    evaluate_fractions q = Ok fr /\
    forall idx qv,
      item_at idx q = Ok qv ->
      exists f,
        item_at idx fr = Ok f /\
        List.length f = List.length qv /\
        (~ Qsum qv == 0 ->
         Forall (fun a => is_finite a = true) f /\
         Float.eq (Float.sum f) (Fin 1)) /\
        (Qsum qv == 0 -> Forall (fun a => is_finite a = false) f).
Proof.
  exists (nd_map bin_fractions q). split; [apply evaluate_fractions_total|].
  intros idx qv Hqv. exists (bin_fractions qv).
  rewrite item_at_nd_map, Hqv. split; [reflexivity|].
  unfold bin_fractions. split; [apply length_map|]. split.
  - intros Hsum.
    assert (E : map (fun x => fractions_element x (Qsum qv)) qv
                = map (fun x => Fin (x / Qsum qv)) qv).
    { apply map_ext. intros x. unfold fractions_element. cbn [div].
      now rewrite (Qeq_bool_false _ _ Hsum). }
    rewrite E. split.
    + apply Forall_forall. intros a Ha. apply in_map_iff in Ha.
      destruct Ha as [x [<- _]]. reflexivity.
    + rewrite (sum_of_finite (fun x => x / Qsum qv)). cbn [Float.eq].
      rewrite Qsum_scale. field. exact Hsum.
  - intros Hzero. apply Forall_forall. intros a Ha.
    apply in_map_iff in Ha. destruct Ha as [x [<- _]].
    unfold fractions_element. cbn [div].
    rewrite (Qeq_eq_bool _ _ Hzero). now destruct (x ?= 0).
Qed.

Lemma fractions_expected_sum_to_one_witness :
  exists f,
    item_at [0%nat] (nd_map bin_fractions (Node [Leaf [1; 3]])) = Ok f /\
    Float.eq (Float.sum f) (Fin 1).
Proof.
  destruct (fractions_expected_sum_to_one (Node [Leaf [1; 3]]))
    as (fr & Hfr & Hbins).
  rewrite evaluate_fractions_total in Hfr. injection Hfr as <-.
  destruct (Hbins [0%nat] [1; 3] eq_refl) as (f & Hf & _ & Hlive & _).
  exists f. split; [exact Hf|].
  apply Hlive. intros H. vm_compute in H. discriminate H.
Defined.

Lemma getitem_mask_wrong_length {A} (idx : list Z) (m : list bool)
    (v : list A) :
  forall d : nd (list A),
    getitem (map Int idx) AllChannels d = Ok (Leaf v) ->
    List.length m <> List.length v ->
    getitem (map Int idx) (Mask m) d = Raise IndexError.
Proof.
  induction idx as [|i idx IH]; intros d H Hlen; simpl in *.
  - destruct d as [v'|rows]; [|discriminate].
    simpl in H. injection H as ->.
    simpl. unfold boolean_index.
    destruct (Nat.eqb_spec (List.length m) (List.length v)); [contradiction|].
    reflexivity.
  - destruct d as [v'|rows]; [discriminate|].
    destruct (item rows i) as [r|e]; [|discriminate].
    cbn [bind] in *. now apply IH.
Qed.

Lemma boolean_index_wrong_length {A} (m : list bool) (v : list A) :
  List.length m <> List.length v -> boolean_index m v = Raise IndexError.
Proof.
  intros H. unfold boolean_index.
  destruct (Nat.eqb_spec (List.length m) (List.length v)); [contradiction|].
  reflexivity.
Qed.

(** X16.  The channel mask, the observed amplitudes, the squared errors and
    the channel axis of the map must all have one length: at coordinates
    that resolve to a bin, any other length among them makes [compute_gof]
    raise [IndexError], whatever the statistic. *)
Theorem compute_gof_length_mismatch (self : PatternFitter) (c : list Q)
    (ao : list Q) (pmt : option (list bool)) (sse : option (list Q))
    (statistic : string) (v s0 : list Q) :
  pattern_at self c = Ok (Leaf v) ->
  errors_or_default self ao sse = Ok s0 ->
  List.length ao <> List.length (selection_or_default self pmt) \/
  List.length v <> List.length (selection_or_default self pmt) \/
  List.length s0 <> List.length (selection_or_default self pmt) ->
  compute_gof self c ao pmt sse statistic = Raise IndexError.
Proof.
  intros Hat Hs0 Hmis.
  set (m := selection_or_default self pmt) in *.
  destruct (pattern_at_indices _ _ _ Hat) as [idx [Hidx Hget]].
  unfold compute_gof. rewrite Hidx. cbn [bind].
  unfold _compute_gof_base, gof_contributions. fold m.
  rewrite Hs0. cbn [bind].
  destruct (Nat.eq_dec (List.length m) (List.length ao)) as [Eao|Nao].
  2:{ now rewrite (boolean_index_wrong_length m ao Nao). }
  rewrite (boolean_index_same_length m ao Eao). cbn [bind].
  destruct (Nat.eq_dec (List.length m) (List.length v)) as [Ev|Nv].
  2:{ now rewrite (getitem_mask_wrong_length idx m v _ Hget Nv). }
  rewrite (getitem_mask_of_all idx m v _ Hget Ev). cbn [bind].
  rewrite evaluate_fractions_total. cbn [bind].
  destruct (Nat.eq_dec (List.length m) (List.length s0)) as [Es|Ns].
  2:{ now rewrite (boolean_index_wrong_length m s0 Ns). }
  exfalso. destruct Hmis as [H|[H|H]]; congruence.
Qed.

Lemma compute_gof_length_mismatch_witness :
  compute_gof pf_example [3 # 2] [4; 5] None None "chi2gamma"
  = Raise IndexError.
Proof.
  apply (compute_gof_length_mismatch pf_example [3 # 2] [4; 5] None None
           "chi2gamma" [1] [(0 * 4) ^ 2; (0 * 5) ^ 2]).
  - reflexivity.
  - reflexivity.
  - left. simpl. discriminate.
Defined.

(* ------------------------------------------------------------------ *)
(** * The upper edge in point lookups *)





(* ------------------------------------------------------------------ *)
(** * The shape of the grid *)

Lemma compute_gof_grid_shape (self : PatternFitter) (center : list Q)
    (grid_size : Q) (ao : list Q) (pmt : option (list bool))
    (sse : option (list Q)) (statistic : string) (map_shape : list nat)
    (gofs : nd float) (lowest_bins : list Z) :
  has_shape (data self) map_shape = true ->
  List.length map_shape = List.length center ->
  compute_gof_grid self center grid_size ao pmt sse statistic
  = Ok (gofs, lowest_bins) ->
  exists sel,
    grid_selection self grid_size (enumerate center) = Ok (sel, lowest_bins) /\
    has_shape gofs (sliced_shape sel map_shape) = true /\
    List.length (sliced_shape sel map_shape) = List.length center /\
    List.length lowest_bins = List.length center.
Proof.
  intros Hshape Hdims Hgrid.
  unfold compute_gof_grid in Hgrid.
  destruct (grid_selection self grid_size (enumerate center))
    as [[sel lows]|] eqn:Esel; [|discriminate].
  cbn [bind] in Hgrid.
  destruct (grid_selection_slices _ _ _ _ _ Esel) as (Hsl & Hl1 & Hl2).
  unfold enumerate in Hl1, Hl2. rewrite enumerate_from_length in Hl1, Hl2.
  unfold _compute_gof_base in Hgrid.
  destruct (gof_contributions self sel ao pmt sse statistic)
    as [res|] eqn:Eres; [|discriminate].
  cbn [bind] in Hgrid. injection Hgrid as <- <-.
  exists sel. split; [reflexivity|]. split; [|split].
  - apply has_shape_nd_map.
    unfold gof_contributions in Eres.
    destruct (errors_or_default self ao sse) as [s0|]; [|discriminate].
    cbn [bind] in Eres.
    destruct (boolean_index _ ao) as [aom|]; [|discriminate].
    cbn [bind] in Eres.
    destruct (getitem sel _ (data self)) as [q|] eqn:Eq; [|discriminate].
    cbn [bind] in Eres.
    assert (Hq : has_shape q (sliced_shape sel map_shape) = true).
    { apply (getitem_slices_shape (Mask (selection_or_default self pmt))
               sel map_shape (data self) q); auto; congruence. }
    rewrite evaluate_fractions_total in Eres. cbn [bind] in Eres.
    destruct (boolean_index _ s0) as [sm|]; [|discriminate].
    cbn [bind] in Eres.
    destruct (gof_formula statistic) as [ex|]; [|discriminate].
    cbn [bind] in Eres. unfold evaluate_gof in Eres.
    destruct (Numexpr.compile ex) as [e|]; [|discriminate].
    cbn [bind] in Eres.
    apply (nd_mapM_shape _ _ _ _
             (has_shape_nd_map bin_fractions _ q Hq) Eres).
  - rewrite sliced_shape_length; congruence.
  - exact Hl2.
Qed.

Lemma sliced_shape_nth (sel : list index) :
  forall s j n,
    nth_error (sliced_shape sel s) j = Some n ->
    exists a b m,
      nth_error sel j = Some (Slice a b) /\
      nth_error s j = Some m /\
      n = List.length (slice (repeat tt m) a b).
Proof.
  induction sel as [|ix sel IH]; intros s j n H.
  - destruct j; discriminate.
  - destruct ix as [i|a b]; [destruct j; discriminate|].
    destruct s as [|m s]; [destruct j; discriminate|].
    cbn [sliced_shape] in H. destruct j as [|j].
    + simpl in H. injection H as <-. exists a, b, m. repeat split.
    + simpl in H. exact (IH s j n H).
Qed.

Lemma slice_length_pos {A} (l : list A) (a b : Z) :
  (0 <= a)%Z -> (a < Z.of_nat (List.length l))%Z -> (a < b)%Z ->
  (1 <= List.length (slice l a b))%nat.
Proof.
  intros H0 Ha Hb. unfold slice, clip.
  destruct (Z.ltb_spec a 0); [lia|].
  destruct (Z.ltb_spec b 0); [lia|].
  rewrite length_firstn, length_skipn. lia.
Qed.

Lemma slice_length_le {A} (l : list A) (a b : Z) :
  (List.length (slice l a b) <= List.length l)%nat.
Proof.
  unfold slice. rewrite length_firstn, length_skipn. lia.
Qed.

Lemma size_pos (s : list nat) :
  Forall (fun n => (1 <= n)%nat) s -> (1 <= size s)%nat.
Proof.
  induction 1 as [|n s Hn _ IH]; unfold size in *; simpl; [lia|].
  apply (Nat.mul_le_mono 1 n 1 _ Hn IH).
Qed.

(** X20.  A grid that [compute_gof_grid] returns is rectangular, with one
    axis per center coordinate and one recorded lowest bin per axis, and no
    axis longer than that of the map.  For a window size that is not
    negative, an axis of the grid has at least one entry where the bin
    index of the center coordinate is that of a bin of the map; where this
    holds on every axis the grid is not empty. *)
Theorem grid_is_rectangular (self : PatternFitter) (center : list Q)
    (grid_size : Q) (ao : list Q) (pmt : option (list bool))
    (sse : option (list Q)) (statistic : string)
    (gofs : nd float) (lowest_bins : list Z) :
  Forall wf_axis (coordinate_data self) ->
  has_shape (data self)
            (map (fun cd => Z.to_nat (n_bins cd)) (coordinate_data self))
  = true ->
  List.length center = List.length (coordinate_data self) ->
  compute_gof_grid self center grid_size ao pmt sse statistic
  = Ok (gofs, lowest_bins) ->
  exists s,
    has_shape gofs s = true /\
    List.length (flatten gofs) = size s /\
    List.length s = List.length center /\
    List.length lowest_bins = List.length center /\
    (forall j n cd,
       nth_error s j = Some n ->
       nth_error (coordinate_data self) j = Some cd ->
       (n <= Z.to_nat (n_bins cd))%nat) /\
    (0 <= grid_size ->
     (forall d x cd i,
        nth_error center d = Some x ->
        nth_error (coordinate_data self) d = Some cd ->
        _get_bin_index self x d = Ok i ->
        (i < n_bins cd)%Z) ->
     Forall (fun n => (1 <= n)%nat) s /\ flatten gofs <> []).
Proof.
  intros Hwf Hshape Hlen Hgrid.
  destruct (compute_gof_grid_shape self center grid_size ao pmt sse statistic
              _ gofs lowest_bins Hshape) as (sel & Hsel & Hs & Hslen & Hlows);
    [now rewrite length_map | exact Hgrid |].
  set (s := sliced_shape sel
              (map (fun cd => Z.to_nat (n_bins cd)) (coordinate_data self)))
    in *.
  exists s.
  split; [exact Hs|]. split; [now apply has_shape_flatten_length|].
  split; [exact Hslen|]. split; [exact Hlows|]. split.
  - intros j n cd Hn Hcd.
    destruct (sliced_shape_nth _ _ _ _ Hn) as (a & b & m & _ & Hm & ->).
    rewrite nth_error_map, Hcd in Hm. simpl in Hm. injection Hm as <-.
    etransitivity; [apply slice_length_le|]. now rewrite repeat_length.
  - intros Hg Hbelow.
    assert (Hall : Forall (fun n => (1 <= n)%nat) s).
    { apply Forall_forall. intros n Hn.
      apply In_nth_error in Hn. destruct Hn as [j Hj].
      destruct (sliced_shape_nth _ _ _ _ Hj) as (a & b & m & Hab & Hm & ->).
      assert (Hjlt : (j < List.length center)%nat).
      { rewrite <- Hslen. apply nth_error_Some. fold s. congruence. }
      destruct (nth_error center j) as [x|] eqn:Ex;
        [|apply nth_error_None in Ex; lia].
      destruct (grid_selection_nth self grid_size center 0 sel lowest_bins
                  Hsel j x Ex)
        as (cd & start & stop & Haxis & Hin & Hsl & _ & Hstart & Hstop).
      simpl in Haxis, Hstart, Hstop.
      pose proof (axis_of_nth self j cd Haxis) as Hcd.
      assert (Hcdwf : wf_axis cd).
      { rewrite Forall_forall in Hwf. apply Hwf. eapply nth_error_In; eauto. }
      rewrite Hsl in Hab. injection Hab as <- <-.
      rewrite nth_error_map, Hcd in Hm. simpl in Hm. injection Hm as <-.
      destruct (_get_bin_index self x j) as [i|] eqn:Hi.
      2:{ rewrite (bin_index_in_range self j cd Haxis Hcdwf x Hin) in Hi.
          discriminate. }
      pose proof (Hbelow j x cd i Ex Hcd Hi) as Hin_bins.
      apply in_range_iff in Hin.
      assert (Hh : 0 <= grid_size / 2) by (apply Qle_shift_div_l; lra).
      assert (H1 : (start <= i)%Z).
      { refine (bin_index_le self j cd _ _ _ _ Haxis Hcdwf _ Hstart Hi).
        unfold py_max.
        destruct (Qle_bool (minimum cd) (x - grid_size / 2)); lra. }
      assert (H2 : (i <= stop)%Z).
      { refine (bin_index_le self j cd _ _ _ _ Haxis Hcdwf _ Hi Hstop).
        unfold py_min.
        destruct (Qle_bool (x + grid_size / 2) (maximum cd)); lra. }
      pose proof (get_bin_index_nonneg self _ j start Hwf Hstart) as H0.
      apply slice_length_pos; [exact H0 | | lia].
      rewrite repeat_length. lia. }
    split; [exact Hall|].
    intros E. pose proof (has_shape_flatten_length _ _ Hs) as Hl.
    rewrite E in Hl. simpl in Hl.
    pose proof (size_pos s Hall). lia.
Qed.

Lemma grid_is_rectangular_witness :
  exists gofs lowest_bins,
    compute_gof_grid pf_axis20 [7 # 2] 4 [1; 1] None None "chi2gamma"
    = Ok (gofs, lowest_bins) /\
    exists s,
      has_shape gofs s = true /\ List.length s = 1%nat /\
      Forall (fun n => (1 <= n)%nat) s /\ flatten gofs <> [].
Proof.
  eexists. eexists. split; [vm_compute; reflexivity|].
  match goal with
  | |- exists s, has_shape ?g s = true /\ _ =>
      destruct (grid_is_rectangular pf_axis20 [7 # 2] 4 [1; 1] None None
                  "chi2gamma" g [11%Z])
        as (s & Hs & _ & Hlen & _ & _ & Hpos)
  end.
  - repeat constructor; reflexivity.
  - vm_compute. reflexivity.
  - reflexivity.
  - vm_compute. reflexivity.
  - exists s. split; [exact Hs|]. split; [exact Hlen|].
    apply Hpos.
    + vm_compute. discriminate.
    + intros [|[|d]] x cd i Hx Hcd Hi; try discriminate.
      simpl in Hx, Hcd. injection Hx as <-. injection Hcd as <-.
      vm_compute in Hi. injection Hi as <-. reflexivity.
Defined.

(* ------------------------------------------------------------------ *)
(** * The two normalisations of a bin *)

(** X21.  [expected_pattern] and the [fractions_expected] of the goodness
    of fit normalise a bin in the same way where the bin's sum is not zero:
    with every channel selected they hold the same numbers.  On a bin that
    sums to zero they part: [expected_pattern] raises, while the fractions
    are computed and none of them is a finite number. *)
Theorem expected_pattern_agrees_with_fractions (self : PatternFitter)
    (c : list Q) (v : list Q) :
  pattern_at self c = Ok (Leaf v) ->
  (~ Qsum v == 0 ->
   exists p,
     expected_pattern self c = Ok p /\
     List.length p = List.length v /\
     evaluate_fractions (Leaf v) = Ok (Leaf (map Fin p)))
  /\ (Qsum v == 0 ->
      expected_pattern self c
      = Raise (CoordinateOutOfRangeException OnlyZeros) /\
      exists fr,
        evaluate_fractions (Leaf v) = Ok (Leaf fr) /\
        List.length fr = List.length v /\
        Forall (fun f => is_finite f = false) fr).
Proof.
  intros Hat. split; intros Hsum.
  - unfold expected_pattern. rewrite Hat. cbn [bind].
    rewrite (Qeq_bool_false _ _ Hsum).
    eexists. split; [reflexivity|]. split; [apply length_map|].
    rewrite evaluate_fractions_total. cbn [nd_map]. do 2 f_equal.
    unfold bin_fractions. rewrite map_map. apply map_ext. intros x.
    unfold fractions_element, div. now rewrite (Qeq_bool_false _ _ Hsum).
  - assert (Hz : Qeq_bool (Qsum v) 0 = true) by now apply Qeq_bool_iff.
    split.
    + unfold expected_pattern. rewrite Hat. cbn [bind]. now rewrite Hz.
    + rewrite evaluate_fractions_total. cbn [nd_map].
      eexists. split; [reflexivity|]. split; [apply length_map|].
      unfold bin_fractions. apply Forall_forall. intros f Hf.
      apply in_map_iff in Hf. destruct Hf as [x [<- _]].
      unfold fractions_element, div. rewrite Hz.
      destruct (x ?= 0); reflexivity.
Qed.

Lemma expected_pattern_agrees_with_fractions_witness :
  exists p,
    expected_pattern pf_axis20 [7 # 2] = Ok p /\
    List.length p = 2%nat /\
    evaluate_fractions (Leaf [1; 1]) = Ok (Leaf (map Fin p)).
Proof.
  destruct (expected_pattern_agrees_with_fractions pf_axis20 [7 # 2] [1; 1])
    as [Hlive _].
  - reflexivity.
  - apply Hlive. intros H. vm_compute in H. discriminate H.
Defined.

(* ------------------------------------------------------------------ *)
(** * Channels outside the selection *)

Lemma mapM_ext_on {A A' B} (f : A -> result B) (f' : A' -> result B)
    (R : A' -> A -> Prop) (l' : list A') (l : list A) :
  Forall2 R l' l ->
  (forall x' x, R x' x -> f' x' = f x) ->
  mapM f' l' = mapM f l.
Proof.
  intros H Hf. induction H as [|x' x l' l Hx _ IH]; [reflexivity|].
  cbn [mapM]. now rewrite (Hf x' x Hx), IH.
Qed.

Lemma map_eq_Forall2 {A B} (g : A -> B) (l' l : list A) :
  map g l' = map g l -> Forall2 (fun x' x => g x' = g x) l' l.
Proof.
  revert l. induction l' as [|x' l' IH]; intros [|x l] H; try discriminate.
  - constructor.
  - simpl in H. injection H as Hx Hl. constructor; auto.
Qed.

Lemma slice_map {A B} (g : A -> B) (l : list A) (a b : Z) :
  map g (slice l a b) = slice (map g l) a b.
Proof.
  unfold slice. now rewrite length_map, <- firstn_map, <- skipn_map.
Qed.

Lemma item_map {A B} (g : A -> B) (l : list A) (i : Z) :
  item (map g l) i = fmap g (item l i).
Proof.
  unfold item. rewrite length_map.
  destruct (_ && _); [|reflexivity].
  rewrite nth_error_map. now destruct (nth_error l _).
Qed.

(** The selection [a[sel + [mask]]] reads an array only through the lengths
    of its channel vectors and their entries under the mask. *)
Lemma getitem_masked_view {A} (m : list bool) (sel : list index) :
  forall d' d : nd (list A),
    nd_map (fun v => (List.length v, select m v)) d'
    = nd_map (fun v => (List.length v, select m v)) d ->
    getitem sel (Mask m) d' = getitem sel (Mask m) d.
Proof.
  induction sel as [|ix sel IH]; intros [v'|rows'] [v|rows] H;
    try discriminate; try reflexivity.
  - cbn [nd_map] in H. injection H as Hlen Hsel.
    cbn [getitem channel_select]. unfold boolean_index.
    now rewrite Hlen, Hsel.
  - cbn [nd_map] in H. injection H as H.
    cbn [getitem]. destruct ix as [i|a b].
    + pose proof (f_equal (fun l => item l i) H) as Hi. cbv beta in Hi.
      rewrite !item_map in Hi.
      destruct (item rows' i) as [r'|e'], (item rows i) as [r|e];
        cbn [fmap bind] in Hi |- *; try discriminate.
      * injection Hi as Hr. exact (IH r' r Hr).
      * injection Hi as ->. reflexivity.
    + f_equal.
      apply (mapM_ext_on _ _
               (fun x' x => nd_map (fun v => (List.length v, select m v)) x'
                            = nd_map (fun v => (List.length v, select m v)) x)).
      * apply map_eq_Forall2. rewrite !slice_map. now rewrite H.
      * intros x' x Hx. exact (IH x' x Hx).
Qed.

(** X22.  Channels outside [pmt_selection] have no influence on the
    goodness of fit: two maps on the same axes, two observations and two
    error arrays that have the same lengths and agree on the selected
    channels give the same result, or the same failure, at a point and on a
    grid. *)
Theorem masked_channels_are_ignored (self' self : PatternFitter)
    (ao' ao : list Q) (m : list bool) (sse' sse : list Q)
    (statistic : string) :
  coordinate_data self' = coordinate_data self ->
  nd_map (fun v => (List.length v, select m v)) (data self')
  = nd_map (fun v => (List.length v, select m v)) (data self) ->
  List.length ao' = List.length ao -> select m ao' = select m ao ->
  List.length sse' = List.length sse -> select m sse' = select m sse ->
  (forall c,
     compute_gof self' c ao' (Some m) (Some sse') statistic
     = compute_gof self c ao (Some m) (Some sse) statistic)
  /\ (forall center grid_size,
        compute_gof_grid self' center grid_size ao' (Some m) (Some sse')
                         statistic
        = compute_gof_grid self center grid_size ao (Some m) (Some sse)
                           statistic).
Proof.
  intros Hcd Hdata Hlao Hsao Hlsse Hssse.
  assert (Hbase : forall sel,
             _compute_gof_base self' sel ao' (Some m) (Some sse') statistic
             = _compute_gof_base self sel ao (Some m) (Some sse) statistic).
  { intros sel. unfold _compute_gof_base, gof_contributions.
    cbn [selection_or_default errors_or_default bind].
    unfold boolean_index.
    rewrite Hlao, Hsao, Hlsse, Hssse.
    now rewrite (getitem_masked_view m sel (data self') (data self) Hdata). }
  split.
  - intros c. unfold compute_gof, get_bin_indices, _get_bin_index, axis.
    rewrite Hcd. destruct (mapM _ (enumerate c)) as [idx|e]; [|reflexivity].
    cbn [bind]. apply Hbase.
  - intros center grid_size. unfold compute_gof_grid.
    assert (Hsel : forall items,
               grid_selection self' grid_size items
               = grid_selection self grid_size items).
    { induction items as [|[d x] items IH]; [reflexivity|].
      cbn [grid_selection]. unfold _get_bin_index, axis.
      now rewrite Hcd, IH. }
    rewrite Hsel.
    destruct (grid_selection self grid_size (enumerate center))
      as [[sel lows]|e]; [|reflexivity].
    cbn [bind]. now rewrite Hbase.
Qed.

Lemma masked_channels_are_ignored_witness :
  compute_gof pf_axis20 [7 # 2] [3; 100] (Some [true; false]) (Some [0; 9])
              "chi2gamma"
  = compute_gof pf_axis20 [7 # 2] [3; 5] (Some [true; false]) (Some [0; 0])
                "chi2gamma".
Proof.
  destruct (masked_channels_are_ignored pf_axis20 pf_axis20 [3; 100] [3; 5]
              [true; false] [0; 9] [0; 0] "chi2gamma") as [Hpoint _];
    [reflexivity | reflexivity | reflexivity | reflexivity | reflexivity
    | reflexivity |].
  apply Hpoint.
Defined.

(* ------------------------------------------------------------------ *)
(** * The grid minimum bounds the point evaluations of the window *)

Lemma item_at_In_flatten {A} (idx : list nat) :
  forall (t : nd A) (w : A), item_at idx t = Ok w -> In w (flatten t).
Proof.
  induction idx as [|i idx IH]; intros [a|rows] w H; try discriminate.
  - simpl in H. injection H as <-. now left.
  - cbn [item_at] in H.
    destruct (nth_error rows i) as [r|] eqn:Er; [|discriminate].
    cbn [flatten]. apply in_flat_map. exists r. split.
    + eapply nth_error_In; eauto.
    + now apply IH.
Qed.

(** The entry that [nanargmin] selects has no entry of the array strictly
    below it. *)
Lemma nanargmin_lower_bound (l : list float) (k : nat) :
  nanargmin l = Ok k ->
  exists v, nth_error l k = Some v /\
            forall y, In y l -> ltb y v = false.
Proof.
  intros Hk. unfold nanargmin in Hk.
  destruct l as [|x l]; [discriminate|].
  destruct (argmin_first_minimum (map replace_nan (x :: l)))
    as (k' & v' & Hk' & Hnth & Hle & _).
  { discriminate. }
  { apply Forall_forall. intros y Hy. apply in_map_iff in Hy.
    destruct Hy as [z [<- _]]. apply replace_nan_not_nan. }
  rewrite Hk' in Hk. cbn [bind] in Hk.
  destruct (forallb is_nan (x :: l)); [discriminate|].
  injection Hk as <-.
  rewrite nth_error_map in Hnth.
  destruct (nth_error (x :: l) k') as [v|] eqn:Ev; [|discriminate].
  simpl in Hnth. injection Hnth as <-.
  exists v. split; [reflexivity|].
  intros y Hy. specialize (Hle (replace_nan y) (in_map replace_nan _ y Hy)).
  destruct v, y; simpl in *; try reflexivity; try exact Hle; discriminate.
Qed.

(** X23.  The value that [minimize_gof_grid] returns is a lower bound for
    the window: every entry of the grid is the value of [compute_gof] at
    the coordinates lying in its bin, and none of these values is strictly
    below the returned one. *)
Theorem minimize_gof_grid_lower_bound (self : PatternFitter)
    (center : list Q) (grid_size : Q) (ao : list Q)
    (pmt : option (list bool)) (sse : option (list Q)) (statistic : string)
    (pos : list Q) (v : float) (gofs : nd float) (lowest_bins : list Z)
    (idx : list nat) (w : float) (c : list Q) :
  Forall wf_axis (coordinate_data self) ->
  has_shape (data self)
            (map (fun cd => Z.to_nat (n_bins cd)) (coordinate_data self))
  = true ->
  List.length center = List.length (coordinate_data self) ->
  minimize_gof_grid self center grid_size ao pmt sse statistic
  = Ok (pos, v) ->
  compute_gof_grid self center grid_size ao pmt sse statistic
  = Ok (gofs, lowest_bins) ->
  item_at idx gofs = Ok w ->
  get_bin_indices self c = Ok (offset_index lowest_bins idx) ->
  compute_gof self c ao pmt sse statistic = Ok (Leaf w) /\
  ltb w v = false.
Proof.
  intros Hwf Hshape Hlen Hmin Hgrid Hw Hc. split.
  - destruct (grid_entry_source self center grid_size ao pmt sse statistic
                gofs lowest_bins idx w Hwf Hgrid Hw) as [Hbase _].
    unfold compute_gof. rewrite Hc. exact Hbase.
  - destruct (compute_gof_grid_shape self center grid_size ao pmt sse
                statistic _ gofs lowest_bins Hshape)
      as (sel & _ & Hs & _ & _);
      [now rewrite length_map | exact Hgrid |].
    unfold minimize_gof_grid in Hmin. rewrite Hgrid in Hmin.
    cbn [bind] in Hmin.
    destruct (nanargmin (flatten gofs)) as [k|] eqn:Ek; [|discriminate].
    cbn [bind] in Hmin.
    destruct (index_to_position self lowest_bins _) as [p|]; [|discriminate].
    cbn [bind] in Hmin.
    destruct (item_at (unravel_index k (shape gofs)) gofs) as [g|] eqn:Eg;
      [|discriminate].
    cbn [bind] in Hmin.
    assert (Ev : g = v) by congruence. subst g.
    destruct (nanargmin_lower_bound _ _ Ek) as (v0 & Hv0 & Hle).
    assert (Hne : flatten gofs <> []).
    { intros E. rewrite E in Hv0. destruct k; discriminate. }
    rewrite (has_shape_shape _ gofs Hs Hne) in Eg.
    rewrite (item_at_unravel_index _ gofs k v0 Hs Hv0) in Eg.
    assert (E0 : v0 = v) by congruence. subst v0.
    apply Hle. now apply (item_at_In_flatten idx).
Qed.

Lemma minimize_gof_grid_lower_bound_witness :
  compute_gof pf_example [1 # 2] [4] None None "chi2gamma" = Ok (Leaf NaN) /\
  ltb NaN (Fin (1 # 5)) = false.
Proof.
  apply (minimize_gof_grid_lower_bound pf_example [1] 2 [4] None None
           "chi2gamma" [3 # 2] (Fin (1 # 5))
           (Node [Leaf NaN; Leaf (Fin (1 # 5))]) [0%Z] [0%nat]).
  - repeat constructor; reflexivity.
  - reflexivity.
  - reflexivity.
  - vm_compute. reflexivity.
  - vm_compute. reflexivity.
  - reflexivity.
  - reflexivity.
Defined.

(* ------------------------------------------------------------------ *)
(** * The round trip in double precision *)






(** On the axis from -10 to 10 in 20 bins every bin is found again from its
    center, in doubles as in exact arithmetic. *)
Example binary64_round_trips_on_axis20 :
  exists cd,
    Binary64.make_coordinate_data 1 Binary64.axis20 = Ok cd /\
    Binary64.round_trips cd = true.
Proof. eexists. split; [reflexivity | vm_compute; reflexivity]. Qed.

(** The quotient can round up to a whole number: the double next below 10
    is in range and below the maximum of that axis, and its bin index is
    20, where exact arithmetic gives 19. *)
Example binary64_bin_index_next_below_maximum :
  exists cd,
    Binary64.make_coordinate_data 1 Binary64.axis20 = Ok cd /\
    PrimFloat.ltb Binary64.below_10 (Binary64.maximum cd) = true /\
    Binary64._get_bin_index [cd] Binary64.below_10 0 = Ok 20%Z /\
    _get_bin_index pf_axis20 (5629499534213119 # 562949953421312) 0
    = Ok 19%Z /\
    Binary64.value Binary64.below_10
    = Some (5629499534213119 # 562949953421312).
Proof.
  eexists. split; [reflexivity|]. repeat split; vm_compute; reflexivity.
Qed.
